(** * Excel-to-PowerPoint table synchronisation: a shallow embedding

    The development follows [sync-ppt-with-excel.py].  The Python function
    [sync_excel_to_ppt] and its nested helpers are embedded as Rocq functions
    over an explicit model of the presentation object tree (slides, shapes,
    tables, cells).  A Python exception is [None] in the [option] monad; the
    mutable closure variables ([target_table], [updates_made], ...) are the
    fields of an explicit [State] record threaded through the loop. *)

From Stdlib Require Import ZArith Ascii String.
From stdpp Require Import base option list strings gmap.

Open Scope string_scope.
Open Scope list_scope.

(** ** Python string operations

    A string is a sequence of code points below 256.  [strip] and [lower]
    follow [str.strip()] and [str.lower()] on that range. *)

Module PyStr.

Definition in_range (lo hi n : nat) : bool := (lo <=? n)%nat && (n <=? hi)%nat.

(** [str.isspace] on one code point: TAB..CR, FS..US, SPACE, NEL, NBSP. *)
Definition is_space (a : ascii) : bool :=
  let n := nat_of_ascii a in
  in_range 9 13 n || in_range 28 31 n || (n =? 32)%nat || (n =? 133)%nat || (n =? 160)%nat.

Fixpoint lstrip (s : string) : string :=
  match s with
  | EmptyString => EmptyString
  | String a r => if is_space a then lstrip r else s
  end.

Fixpoint rstrip (s : string) : string :=
  match s with
  | EmptyString => EmptyString
  | String a r =>
      match rstrip r with
      | EmptyString => if is_space a then EmptyString else String a EmptyString
      | r' => String a r'
      end
  end.

Definition strip (s : string) : string := rstrip (lstrip s).

(** [str.lower] on one code point: A..Z and the Latin-1 capitals
    (0xC0..0xDE without the multiplication sign 0xD7) move up by 32. *)
Definition lower_char (a : ascii) : ascii :=
  let n := nat_of_ascii a in
  if in_range 65 90 n || (in_range 192 222 n && negb (n =? 215)%nat)
  then ascii_of_nat (n + 32) else a.

Fixpoint lower (s : string) : string :=
  match s with
  | EmptyString => EmptyString
  | String a r => String (lower_char a) (lower r)
  end.

End PyStr.

Import PyStr.

(** ** The presentation object model (python-pptx objects as data) *)

Record Font := { font_name : string; font_size : Z; font_bold : bool }.

(** A cell owns its text and the font of its runs; [None] is whatever the
    file had, or the bare runs left behind by a text assignment. *)
Record Cell := { text : string; font : option Font }.

(** [columns] is the table grid: [None] when the grid cannot be inspected
    ([len(table.columns)] raises); a column whose width cannot be read is
    [None] inside the list.  [rows] holds the cells of each table row. *)
Record Table := { columns : option (list (option Z)); rows : list (list Cell) }.

Record Geometry := { left : Z; top : Z; width : Z; height : Z }.

Inductive Shape :=
  | OtherShape (tag : nat)                      (* has_table is absent or False *)
  | GraphicFrame (geom : Geometry) (table : Table).

Record Layout := { layout_id : nat; layout_placeholders : list nat }.

Record Slide := { slide_layout : Layout; shapes : list Shape }.

Abbreviation Presentation := (list Slide).

#[global] Instance Font_eq_dec : EqDecision Font.
Proof. solve_decision. Defined.
#[global] Instance Cell_eq_dec : EqDecision Cell.
Proof. solve_decision. Defined.

(** *** Style constants *)

Definition FONT_NAME : string := "Calibri".
Definition Pt (n : Z) : Z := (n * 12700)%Z.
Definition FONT_SIZE : Z := Pt 11.
Definition HEADER_BOLD : bool := true.
Definition BODY_BOLD : bool := false.
Definition MAX_BODY_ROWS : Z := 8.

Definition set_cell_style (cell : Cell) (is_header : bool) : Cell :=
  {| text := text cell;
     font := Some {| font_name := FONT_NAME; font_size := FONT_SIZE;
                     font_bold := if is_header then HEADER_BOLD else BODY_BOLD |} |}.

(** [cell.text = s]: the text frame is rebuilt, its runs carry no font. *)
Definition set_text (cell : Cell) (s : string) : Cell :=
  {| text := s; font := None |}.

(** *** Grid access *)

Definition len_columns (t : Table) : option nat := length <$> columns t.

(** [table.cell(r, c)]; an index outside the grid raises. *)
Definition cell (t : Table) (r c : nat) : option Cell :=
  row ← rows t !! r; row !! c.

(** In-place mutation of the cell at [(r, c)]. *)
Definition write_cell (t : Table) (r c : nat) (f : Cell → Cell) : option Table :=
  row ← rows t !! r;
  cl ← row !! c;
  Some {| columns := columns t; rows := <[r := <[c := f cl]> row]> (rows t) |}.

(** A [for] loop whose body may raise. *)
Fixpoint for_in {A S : Type} (l : list A) (body : A → S → option S) (s : S) : option S :=
  match l with
  | [] => Some s
  | x :: l' => s' ← body x s; for_in l' body s'
  end.

(** [l.index(x)]: the first position, [ValueError] when absent. *)
Fixpoint index_of (x : string) (l : list string) : option nat :=
  match l with
  | [] => None
  | y :: l' => if decide (y = x) then Some 0 else S <$> index_of x l'
  end.

(** ** Header Matcher *)

Definition required_ppt_cols : list string :=
  ["AI Tool"; "Tool Description"; "Requestor"; "Current State"].

(** [[table.cell(0, c).text.strip() for c in range(num_cols)]] *)
Definition header_names (t : Table) (num_cols : nat) : option (list string) :=
  mapM (λ c, cl ← cell t 0 c; Some (strip (text cl))) (seq 0 num_cols).

(** The outer [option] is the exception; the inner one is the
    [(None, None)] "not qualifying" signal. *)
Definition _table_headers_and_indices (t : Table)
  : option (option (list string * gmap string nat)) :=
  match len_columns t with
  | None => Some None
  | Some num_cols =>
      let num_rows := length (rows t) in
      if (num_rows =? 0)%nat || (num_cols =? 0)%nat then Some None
      else
        hdrs ← header_names t num_cols;
        if forallb (λ col, bool_decide (col ∈ hdrs)) required_ppt_cols then
          idx ← mapM (λ col, i ← index_of col hdrs; Some (col, i)) required_ppt_cols;
          Some (Some (hdrs, list_to_map idx))
        else Some None
  end.

(** ** Shapes on a slide *)

(** A Python reference to a shape object: the shape at a position of the
    slide's shape tree, or an object that was removed from the tree and is
    only kept alive by the reference. *)
Inductive ShapeRef :=
  | Attached (i : nat)
  | Detached (sh : Shape).

Definition deref_shape (slide : Slide) (ref : ShapeRef) : option Shape :=
  match ref with
  | Attached i => shapes slide !! i
  | Detached sh => Some sh
  end.

(** [shape.table] together with the frame geometry; raises on a shape
    that holds no table. *)
Definition shape_table (sh : Shape) : option (Geometry * Table) :=
  match sh with
  | GraphicFrame g t => Some (g, t)
  | OtherShape _ => None
  end.

(** [el.getparent().remove(el)]; a detached element has no parent. *)
Definition remove_shape (slide : Slide) (ref : ShapeRef) : option Slide :=
  match ref with
  | Attached i =>
      _ ← shapes slide !! i;
      Some {| slide_layout := slide_layout slide; shapes := delete i (shapes slide) |}
  | Detached _ => None
  end.

(** Mutation of the table held by the frame at position [i]. *)
Definition with_table (slide : Slide) (i : nat) (f : Table → option Table) : option Slide :=
  sh ← shapes slide !! i;
  '(g, t) ← shape_table sh;
  t' ← f t;
  Some {| slide_layout := slide_layout slide;
          shapes := <[i := GraphicFrame g t']> (shapes slide) |}.

Definition table_at (slide : Slide) (i : nat) : option Table :=
  sh ← shapes slide !! i; snd <$> shape_table sh.

Definition blank_cell : Cell := {| text := ""; font := None |}.

Section Sync.

(** Behaviour of the presentation library that the script relies on:
    the width [add_table] gives column [c] of a new [cols]-column table in
    a frame of width [w], and the widths a column accepts (assigning any
    other value raises). *)
Variable new_col_width : Z → nat → nat → Z.
Variable width_settable : Z → bool.

(** [slide.shapes.add_table(rows, cols, left, top, width, height)]: the
    new frame becomes the last shape of the slide.  Row height and column
    width are the frame size divided by the counts, so a zero count raises. *)
Definition add_table (slide : Slide) (nrows ncols : nat) (g : Geometry) : option Slide :=
  if (nrows =? 0)%nat || (ncols =? 0)%nat then None
  else Some {| slide_layout := slide_layout slide;
               shapes := shapes slide ++
                 [GraphicFrame g
                    {| columns := Some ((λ c, Some (new_col_width (width g) ncols c)) <$> seq 0 ncols);
                       rows := replicate nrows (replicate ncols blank_cell) |}] |}.

(** [table.columns[c].width = w] *)
Definition set_col_width (t : Table) (c : nat) (w : Z) : option Table :=
  ws ← columns t;
  _ ← ws !! c;
  if width_settable w then Some {| columns := Some (<[c := Some w]> ws); rows := rows t |}
  else None.

(** The [try]/[except] around the whole capture loop: one unreadable
    width leaves [col_widths = None]. *)
Definition capture_widths (t : Table) (cols : nat) : option (list Z) :=
  mapM (λ c, ws ← columns t; w ← ws !! c; w) (seq 0 cols).

(** [if col_widths: ... try: columns[c].width = col_widths[c] except: pass] *)
Definition restore_width (col_widths : option (list Z)) (c : nat) (t : Table) : Table :=
  match col_widths with
  | Some (w0 :: ws) => default t (w ← (w0 :: ws) !! c; set_col_width t c w)
  | _ => t
  end.

(** ** Table Rebuilder *)

(** Returns the slide after the replacement and the position of the new
    frame, whose table is the function's return value. *)
Definition _append_row_by_rebuilding (slide : Slide) (table_shape : ShapeRef)
    (values_by_header : gmap string string) : option (Slide * nat) :=
  sh ← deref_shape slide table_shape;
  '(g, table) ← shape_table sh;
  let nrows := length (rows table) in
  cols ← len_columns table;
  grid ← mapM (λ r, mapM (λ c, cl ← cell table r c; Some (text cl)) (seq 0 cols)) (seq 0 nrows);
  hdrs ← header_names table cols;
  let new_row := (λ h, default "" (values_by_header !! h)) <$> hdrs in
  let grid := grid ++ [new_row] in
  let col_widths := capture_widths table cols in
  slide1 ← remove_shape slide table_shape;
  slide2 ← add_table slide1 (nrows + 1) cols g;
  let new_idx := (length (shapes slide2) - 1)%nat in
  slide3 ← with_table slide2 new_idx
              (for_in (seq 0 cols) (λ c t, Some (restore_width col_widths c t)));
  slide4 ← with_table slide3 new_idx
              (for_in (seq 0 (nrows + 1)) (λ r,
                 for_in (seq 0 cols) (λ c t,
                   grow ← grid !! r;
                   v ← grow !! c;
                   write_cell t r c (λ cl, set_cell_style (set_text cl v) (bool_decide (r = 0%nat))))));
  Some (slide4, new_idx).

(** ** Pagination Controller *)

(** [pres.slides.add_slide(layout)]: the new slide is last and holds the
    layout's placeholders. *)
Definition add_slide (pres : Presentation) (layout : Layout) : Presentation :=
  pres ++ [{| slide_layout := layout; shapes := OtherShape <$> layout_placeholders layout |}].

(** Returns the presentation with the new slide last, and the position of
    the new frame on it. *)
Definition _start_new_slide_with_table (pres : Presentation) (src_slide : nat)
    (src_shape : ShapeRef) : option (Presentation * nat) :=
  slide ← pres !! src_slide;
  let layout := slide_layout slide in
  let pres1 := add_slide pres layout in
  let new_slide_idx := (length pres1 - 1)%nat in
  new_slide ← pres1 !! new_slide_idx;
  sh ← deref_shape slide src_shape;
  '(g, src_table) ← shape_table sh;
  cols ← len_columns src_table;
  hdrs ← header_names src_table cols;
  let col_widths := capture_widths src_table cols in
  new_slide1 ← add_table new_slide 1 cols g;
  let new_idx := (length (shapes new_slide1) - 1)%nat in
  new_slide2 ← with_table new_slide1 new_idx
                 (for_in (seq 0 cols) (λ c t,
                    h ← hdrs !! c;
                    t1 ← write_cell t 0 c (λ cl, set_cell_style (set_text cl h) true);
                    Some (restore_width col_widths c t1)));
  Some (<[new_slide_idx := new_slide2]> pres1, new_idx).

(** ** Orchestrator state *)

(** The cached references.  [target_slide] is the position of the slide
    object in the presentation (slides are only ever appended), which is
    also what [target_slide_idx] holds; [target_table] is the position, on
    that slide, of the frame whose table the reference denotes. *)
Record Target := {
  target_slide : nat;
  target_table : nat;
  target_shape : ShapeRef
}.

Record State := {
  presentation : Presentation;
  updates_made : nat;
  rows_added : nat;
  not_found_before_adding : nat;
  target : option Target
}.

Definition target_table_obj (pres : Presentation) (tg : Target) : option Table :=
  slide ← pres !! target_slide tg; table_at slide (target_table tg).

Definition _ensure_capacity_or_paginate (st : State) : option State :=
  match target st with
  | None => Some st
  | Some tg =>
      tt ← target_table_obj (presentation st) tg;
      let body_rows := (Z.of_nat (length (rows tt)) - 1)%Z in
      if (MAX_BODY_ROWS <=? body_rows)%Z then
        '(pres', new_idx) ← _start_new_slide_with_table (presentation st) (target_slide tg) (target_shape tg);
        Some {| presentation := pres';
                updates_made := updates_made st;
                rows_added := rows_added st;
                not_found_before_adding := not_found_before_adding st;
                target := Some {| target_slide := (length pres' - 1)%nat;
                                  target_table := new_idx;
                                  target_shape := Attached new_idx |} |}
      else Some st
  end.

(** ** Row Synchronizer *)

(** One record of the dataset; every field is already a string. *)
Record ExcelRow := {
  Tool : string;
  Service_Use_Case : string;
  Requestor : string;
  Status : string
}.

(** The compare-and-overwrite of one mapped cell; the second component is
    the increment of [updates_made]. *)
Definition update_field (t : Table) (row_idx col : nat) (new_val : string)
  : option (Table * nat) :=
  cl ← cell t row_idx col;
  if decide (strip (text cl) = new_val) then Some (t, 0%nat)
  else
    t' ← write_cell t row_idx col (λ cl, set_cell_style (set_text cl new_val) false);
    Some (t', 1%nat).

(** The body of [if current_tool.lower() == tool_name.lower()]. *)
Definition update_row (t : Table) (row_idx : nat) (col_indices : gmap string nat)
    (ai_tool_col_idx : nat) (excel_row : ExcelRow) : option (Table * nat) :=
  let new_desc := strip (Service_Use_Case excel_row) in
  d ← col_indices !! "Tool Description";
  '(t1, n1) ← update_field t row_idx d new_desc;
  let new_requester := strip (Requestor excel_row) in
  r ← col_indices !! "Requestor";
  '(t2, n2) ← update_field t1 row_idx r new_requester;
  let new_status := strip (Status excel_row) in
  s ← col_indices !! "Current State";
  '(t3, n3) ← update_field t2 row_idx s new_status;
  t4 ← write_cell t3 row_idx ai_tool_col_idx (λ cl, set_cell_style cl false);
  Some (t4, (n1 + n2 + n3)%nat).

(** [for row_idx in range(1, len(table.rows))] with its [break]; the
    result carries [Some n] when the tool was found and [n] cells changed. *)
Fixpoint scan_rows (t : Table) (col_indices : gmap string nat) (ai_tool_col_idx : nat)
    (excel_row : ExcelRow) (tool_name : string) (row_idxs : list nat)
  : option (Table * option nat) :=
  match row_idxs with
  | [] => Some (t, None)
  | row_idx :: rest =>
      cl ← cell t row_idx ai_tool_col_idx;
      let current_tool := strip (text cl) in
      if decide (lower current_tool = lower tool_name) then
        '(t', n) ← update_row t row_idx col_indices ai_tool_col_idx excel_row;
        Some (t', Some n)
      else scan_rows t col_indices ai_tool_col_idx excel_row tool_name rest
  end.

(** Header styling of the table that becomes the append target. *)
Definition style_header (t : Table) : option Table :=
  n ← len_columns t;
  for_in (seq 0 n) (λ c t, write_cell t 0 c (λ cl, set_cell_style cl true)) t.

(** [for shape in slide.shapes], from position [j] on. *)
Fixpoint scan_shapes (excel_row : ExcelRow) (tool_name : string) (slide_idx j : nat)
    (shs : list Shape) (tgt : option Target)
  : option (list Shape * option Target * option nat) :=
  match shs with
  | [] => Some ([], tgt, None)
  | OtherShape tag :: rest =>
      '(rest', tgt', found) ← scan_shapes excel_row tool_name slide_idx (S j) rest tgt;
      Some (OtherShape tag :: rest', tgt', found)
  | GraphicFrame g table :: rest =>
      hi ← _table_headers_and_indices table;
      match hi with
      | None =>
          '(rest', tgt', found) ← scan_shapes excel_row tool_name slide_idx (S j) rest tgt;
          Some (GraphicFrame g table :: rest', tgt', found)
      | Some (headers, col_indices) =>
          '(table1, tgt1) ←
             match tgt with
             | None =>
                 table1 ← style_header table;
                 Some (table1, Some {| target_slide := slide_idx; target_table := j;
                                       target_shape := Attached j |})
             | Some _ => Some (table, tgt)
             end;
          match col_indices !! "AI Tool" with
          | None =>
              '(rest', tgt', found) ← scan_shapes excel_row tool_name slide_idx (S j) rest tgt1;
              Some (GraphicFrame g table1 :: rest', tgt', found)
          | Some ai_tool_col_idx =>
              '(table2, found) ← scan_rows table1 col_indices ai_tool_col_idx excel_row tool_name
                                   (seq 1 (length (rows table1) - 1));
              match found with
              | Some n => Some (GraphicFrame g table2 :: rest, tgt1, Some n)
              | None =>
                  '(rest', tgt', found') ←
                     scan_shapes excel_row tool_name slide_idx (S j) rest tgt1;
                  Some (GraphicFrame g table2 :: rest', tgt', found')
              end
          end
      end
  end.

(** [for slide_idx, slide in enumerate(presentation.slides)], from
    position [slide_idx] on. *)
Fixpoint scan_slides (excel_row : ExcelRow) (tool_name : string) (slide_idx : nat)
    (slides : list Slide) (tgt : option Target)
  : option (list Slide * option Target * option nat) :=
  match slides with
  | [] => Some ([], tgt, None)
  | slide :: rest =>
      '(shs', tgt1, found) ← scan_shapes excel_row tool_name slide_idx 0 (shapes slide) tgt;
      let slide' := {| slide_layout := slide_layout slide; shapes := shs' |} in
      match found with
      | Some n => Some (slide' :: rest, tgt1, Some n)
      | None =>
          '(rest', tgt', found') ← scan_slides excel_row tool_name (S slide_idx) rest tgt1;
          Some (slide' :: rest', tgt', found')
      end
  end.

(** ** Sync Orchestrator *)

(** The loop that refreshes [target_shape] after a rebuild: the first
    frame of the slide whose table qualifies. *)
Fixpoint find_refreshed_shape (j : nat) (shs : list Shape) : option (option nat) :=
  match shs with
  | [] => Some None
  | OtherShape _ :: rest => find_refreshed_shape (S j) rest
  | GraphicFrame _ t :: rest =>
      hi ← _table_headers_and_indices t;
      match hi with
      | Some _ => Some (Some j)
      | None => find_refreshed_shape (S j) rest
      end
  end.

Definition col_values_from_excel (tool_name : string) (excel_row : ExcelRow)
  : gmap string string :=
  <["AI Tool" := tool_name]>
    (<["Tool Description" := strip (Service_Use_Case excel_row)]>
      (<["Requestor" := strip (Requestor excel_row)]>
        (<["Current State" := strip (Status excel_row)]> ∅))).

(** [{h: "" for h in tgt_headers}] followed by the fill loop over its keys. *)
Definition build_values_by_header (tgt_headers : list string) (tool_name : string)
    (excel_row : ExcelRow) : gmap string string :=
  let values_by_header : gmap string string := list_to_map ((λ h, (h, "")) <$> tgt_headers) in
  map_imap (λ h v, Some (default v (col_values_from_excel tool_name excel_row !! h)))
           values_by_header.

(** The branch taken for a tool that no table holds, once a target is cached. *)
Definition append_missing (st : State) (tool_name : string) (excel_row : ExcelRow)
  : option State :=
  st1 ← _ensure_capacity_or_paginate st;
  tg ← target st1;
  tt ← target_table_obj (presentation st1) tg;
  ncols ← len_columns tt;
  tgt_headers ← header_names tt ncols;
  let values_by_header := build_values_by_header tgt_headers tool_name excel_row in
  slide ← presentation st1 !! target_slide tg;
  old_shape ← deref_shape slide (target_shape tg);
  '(slide', new_idx) ← _append_row_by_rebuilding slide (target_shape tg) values_by_header;
  refreshed_shape ← find_refreshed_shape 0 (shapes slide');
  Some {| presentation := <[target_slide tg := slide']> (presentation st1);
          updates_made := (updates_made st1 + 4)%nat;
          rows_added := (rows_added st1 + 1)%nat;
          not_found_before_adding := not_found_before_adding st1;
          target := Some {| target_slide := target_slide tg;
                            target_table := new_idx;
                            target_shape := match refreshed_shape with
                                            | Some j => Attached j
                                            | None => Detached old_shape
                                            end |} |}.

(** One iteration of [for idx, excel_row in excel_df.iterrows()]. *)
Definition process_row (add_missing_tools : bool) (excel_row : ExcelRow) (st : State)
  : option State :=
  let tool_name := strip (Tool excel_row) in
  if decide (tool_name = "") then Some st
  else
    '(slides', tgt', found) ← scan_slides excel_row tool_name 0 (presentation st) (target st);
    match found with
    | Some n =>
        Some {| presentation := slides';
                updates_made := (updates_made st + n)%nat;
                rows_added := rows_added st;
                not_found_before_adding := not_found_before_adding st;
                target := tgt' |}
    | None =>
        let st1 := {| presentation := slides';
                      updates_made := updates_made st;
                      rows_added := rows_added st;
                      not_found_before_adding := (not_found_before_adding st + 1)%nat;
                      target := tgt' |} in
        if add_missing_tools && bool_decide (is_Some tgt')
        then append_missing st1 tool_name excel_row
        else Some st1
    end.

Definition initial_state (pres : Presentation) : State :=
  {| presentation := pres; updates_made := 0; rows_added := 0;
     not_found_before_adding := 0; target := None |}.

(** The printed summary. *)
Record Summary := {
  total_tools_processed : nat;
  sum_updates_made : nat;
  sum_rows_added : nat;
  sum_not_found : nat
}.

(** What a run leaves behind: the content of [ppt_file], the number of
    [presentation.save] calls, and the final state with its summary when
    the run ended without an exception. *)
Record Outcome := {
  ppt_file_after : Presentation;
  save_calls : nat;
  final : option (State * Summary)
}.

(** The part of [sync_excel_to_ppt] after the dataset has been read and
    its columns checked: [excel_df] is the list of records, [ppt_file] the
    content of the file that [Presentation(ppt_file)] loads. *)
Definition sync_excel_to_ppt (excel_df : list ExcelRow) (ppt_file : Presentation)
    (add_missing_tools : bool) : Outcome :=
  match for_in excel_df (process_row add_missing_tools) (initial_state ppt_file) with
  | None => {| ppt_file_after := ppt_file; save_calls := 0; final := None |}
  | Some st =>
      let summary := {| total_tools_processed := length excel_df;
                        sum_updates_made := updates_made st;
                        sum_rows_added := rows_added st;
                        sum_not_found := not_found_before_adding st |} in
      if (0 <? updates_made st)%nat
      then {| ppt_file_after := presentation st; save_calls := 1; final := Some (st, summary) |}
      else {| ppt_file_after := ppt_file; save_calls := 0; final := Some (st, summary) |}
  end.

(** ** Reading the dataset *)

(** A worksheet cell holds [None] or a value; of a value the script uses
    its truth value ([if cell]) and its [str]. *)
Variable Value : Type.
Variable truthy : Value → bool.
Variable str : Value → string.

(** [str(cell) if cell else ""] *)
Definition cell_str (cell : option Value) : string :=
  match cell with
  | Some v => if truthy v then str v else ""
  | None => ""
  end.

(** [any(cell is not None for cell in row)] *)
Definition any_not_none (row : list (option Value)) : bool :=
  existsb (λ cell, bool_decide (cell ≠ None)) row.

(** One round of [for row_idx, row in enumerate(worksheet.iter_rows(...))];
    the state is [(headers, excel_data)]. *)
Definition read_row (acc : list string * list (list string))
    (item : nat * list (option Value)) : list string * list (list string) :=
  let '(headers, excel_data) := acc in
  let '(row_idx, row) := item in
  if (row_idx =? 0)%nat then (cell_str <$> row, excel_data)
  else if any_not_none row then (headers, excel_data ++ [cell_str <$> row])
  else (headers, excel_data).

(** The loop over the rows that [iter_rows(values_only=True)] yields. *)
Definition read_rows (iter_rows : list (list (option Value)))
  : list string * list (list string) :=
  fold_left read_row (zip (seq 0 (length iter_rows)) iter_rows) ([], []).

Definition newline : string := String (ascii_of_nat 10) EmptyString.

(** ['Service\nUse Case'] and the variant ['Service\n Use Case']. *)
Definition Service_Use_Case_col : string := "Service" +:+ newline +:+ "Use Case".
Definition Service_Use_Case_variant : string := "Service" +:+ newline +:+ " Use Case".

(** [excel_df.rename(columns={'Service\n Use Case': 'Service\nUse Case'})],
    on one column label. *)
Definition rename_column (c : string) : string :=
  if decide (c = Service_Use_Case_variant) then Service_Use_Case_col else c.

(** [[col for col in ['Tool', 'Service\nUse Case', 'Requestor', 'Status']
      if col not in excel_df.columns]] *)
Definition missing_cols (columns : list string) : list string :=
  filter (λ col, col ∉ columns) ["Tool"; Service_Use_Case_col; "Requestor"; "Status"].

(** [excel_row[label]] as a scalar: the cell of the row in the column
    that carries the label.  A label that names no column raises, and so
    does the use the script makes of the series that a label naming
    several columns gives. *)
Definition row_get (columns : list string) (row : list string) (label : string)
  : option string :=
  i ← index_of label columns;
  if bool_decide (label ∈ drop (S i) columns) then None else row !! i.

(** The four fields that the loop reads from a row of the frame; every
    loaded value is a string, on which [or ""] changes nothing. *)
Definition record_of (columns : list string) (row : list string) : option ExcelRow :=
  tool ← row_get columns row "Tool";
  desc ← row_get columns row Service_Use_Case_col;
  req ← row_get columns row "Requestor";
  status ← row_get columns row "Status";
  Some {| Tool := tool; Service_Use_Case := desc; Requestor := req; Status := status |}.

(** * Specification vocabulary

    The notions in which the properties below are stated: the text view
    of a table, the tables the two builders produce, the verdict of the
    Header Matcher, the entries of a document, and the invariant of the
    cached target. *)

(** ** Strings *)

Definition starts_clean (s : string) : Prop :=
  match s with
  | EmptyString => True
  | String a _ => is_space a = false
  end.

(** ** Grids *)

(** A table is an [N]-by-[M] grid: the column collection has [M] entries
    and each of the [N] rows has [M] cells. *)
Definition table_dims (t : Table) (N M : nat) : Prop :=
  len_columns t = Some M ∧ length (rows t) = N ∧ Forall (λ row, length row = M) (rows t).

Definition text_grid (t : Table) : list (list string) :=
  (λ row : list Cell, text <$> row) <$> rows t.

(** The cell that a text assignment followed by [set_cell_style] leaves. *)
Definition styled_cell (is_header : bool) (v : string) : Cell :=
  set_cell_style (set_text blank_cell v) is_header.

Definition styled_grid (grid : list (list string)) : list (list Cell) :=
  imap (λ r grow, styled_cell (bool_decide (r = 0%nat)) <$> grow) grid.

(** ** Column widths *)

(** The widths of a rebuilt table: [defaults] are those [add_table]
    assigned, [col_widths] is the result of the capture. *)
Definition restored_widths (defaults : list (option Z)) (col_widths : option (list Z))
  : list (option Z) :=
  match col_widths with
  | Some cw => zip_with (λ d w, if width_settable w then Some w else d) defaults cw
  | None => defaults
  end.

(** ** The Table Rebuilder as a function of the old table *)

Definition default_widths (g : Geometry) (M : nat) : list (option Z) :=
  (λ c, Some (new_col_width (width g) M c)) <$> seq 0 M.

Definition blank_table (g : Geometry) (N M : nat) : Table :=
  {| columns := Some (default_widths g M); rows := replicate N (replicate M blank_cell) |}.

(** The values of the appended row, one per column, looked up by the
    trimmed header of the column. *)
Definition new_row_values (t : Table) (values_by_header : gmap string string) : list string :=
  (λ cl, default "" (values_by_header !! strip (text cl))) <$> hd [] (rows t).

Definition rebuilt_table (g : Geometry) (t : Table) (M : nat)
    (values_by_header : gmap string string) : Table :=
  {| columns := Some (restored_widths (default_widths g M) (capture_widths t M));
     rows := styled_grid (text_grid t ++ [new_row_values t values_by_header]) |}.

(** ** The Pagination Controller as a function of the full table *)

(** Column widths once the columns before [c] went through [restore_width]. *)
Definition widths_upto (ds : list (option Z)) (col_widths : option (list Z)) (c : nat)
  : list (option Z) :=
  match col_widths with
  | Some cw => zip_with (λ d w, if width_settable w then Some w else d) (take c ds) (take c cw)
               ++ drop c ds
  | None => ds
  end.

(** The header-only table that pagination places on the new slide. *)
Definition header_table (g : Geometry) (t : Table) (M : nat) : Table :=
  {| columns := Some (restored_widths (default_widths g M) (capture_widths t M));
     rows := [(λ cl, styled_cell true (strip (text cl))) <$> hd [] (rows t)] |}.

Definition overflow_slide (slide : Slide) (g : Geometry) (t : Table) (M : nat) : Slide :=
  {| slide_layout := slide_layout slide;
     shapes := (OtherShape <$> layout_placeholders (slide_layout slide))
               ++ [GraphicFrame g (header_table g t M)] |}.

(** ** The Header Matcher on a readable header row *)

Definition col_idx (names : list string) (col : string) : nat :=
  default 0%nat (index_of col names).

Definition idx_map (names : list string) : gmap string nat :=
  list_to_map ((λ col, (col, col_idx names col)) <$> required_ppt_cols).

Definition has_required (names : list string) : bool :=
  forallb (λ col, bool_decide (col ∈ names)) required_ppt_cols.

(** The verdict of the Header Matcher as a function of the header names. *)
Definition classify (names : list string) : option (list string * gmap string nat) :=
  if has_required names then Some (names, idx_map names) else None.

(** ** Well-formed tables *)

(** Every row spans the grid, whenever the grid can be inspected. *)
Definition wf_table (t : Table) : Prop :=
  ∀ M, len_columns t = Some M → Forall (λ row, length row = M) (rows t).

Definition verdict (t : Table) : option (list string * gmap string nat) :=
  match len_columns t, rows t with
  | Some (S _), hdr :: _ => classify ((λ cl, strip (text cl)) <$> hdr)
  | _, _ => None
  end.

(** ** The Row Synchronizer on one table *)

(** What the compare-and-overwrite leaves in a cell, and what it adds to
    the change counter. *)
Definition sync_cell (new_val : string) (cl : Cell) : Cell :=
  if decide (strip (text cl) = new_val) then cl else styled_cell false new_val.

Definition changed (new_val : string) (cl : Cell) : nat :=
  if decide (strip (text cl) = new_val) then 0%nat else 1%nat.

(** The positions of the four mapped columns in a table. *)
Record Cols := { c_tool : nat; c_desc : nat; c_req : nat; c_status : nat }.

Definition cols_ok (k : Cols) (M : nat) : Prop :=
  c_tool k < M ∧ c_desc k < M ∧ c_req k < M ∧ c_status k < M
  ∧ c_tool k ≠ c_desc k ∧ c_tool k ≠ c_req k ∧ c_tool k ≠ c_status k
  ∧ c_desc k ≠ c_req k ∧ c_desc k ≠ c_status k ∧ c_req k ≠ c_status k.

Definition cols_of (names : list string) : Cols :=
  {| c_tool := col_idx names "AI Tool";
     c_desc := col_idx names "Tool Description";
     c_req := col_idx names "Requestor";
     c_status := col_idx names "Current State" |}.

(** The matched row after the update, and the number of changed cells. *)
Definition sync_row (k : Cols) (excel_row : ExcelRow) (row : list Cell) : list Cell :=
  alter (λ cl, set_cell_style cl false) (c_tool k)
    (alter (sync_cell (strip (Status excel_row))) (c_status k)
      (alter (sync_cell (strip (Requestor excel_row))) (c_req k)
        (alter (sync_cell (strip (Service_Use_Case excel_row))) (c_desc k) row))).

Definition cell_or_blank (row : list Cell) (c : nat) : Cell := default blank_cell (row !! c).

Definition changed_row (k : Cols) (excel_row : ExcelRow) (row : list Cell) : nat :=
  (changed (strip (Service_Use_Case excel_row)) (cell_or_blank row (c_desc k))
   + changed (strip (Requestor excel_row)) (cell_or_blank row (c_req k))
   + changed (strip (Status excel_row)) (cell_or_blank row (c_status k)))%nat.

Definition maps_cols (col_indices : gmap string nat) (k : Cols) : Prop :=
  col_indices !! "AI Tool" = Some (c_tool k)
  ∧ col_indices !! "Tool Description" = Some (c_desc k)
  ∧ col_indices !! "Requestor" = Some (c_req k)
  ∧ col_indices !! "Current State" = Some (c_status k).

(** The key test of the row loop, on a row as data. *)
Definition row_matches (k : Cols) (tool_name : string) (row : list Cell) : Prop :=
  lower (strip (text (cell_or_blank row (c_tool k)))) = lower tool_name.

#[global] Instance row_matches_dec k tool_name row : Decision (row_matches k tool_name row).
Proof. unfold row_matches. apply _. Defined.

(** The row loop as a function of the body rows: the first matching row is
    updated, every other row is kept. *)
Fixpoint sync_first (k : Cols) (excel_row : ExcelRow) (tool_name : string)
    (body : list (list Cell)) : list (list Cell) * option nat :=
  match body with
  | [] => ([], None)
  | row :: rest =>
      if decide (row_matches k tool_name row)
      then (sync_row k excel_row row :: rest, Some (changed_row k excel_row row))
      else let '(rest', found) := sync_first k excel_row tool_name rest in (row :: rest', found)
  end.

(** ** Qualifying tables and their entries *)

Record Entry := { e_tool : string; e_desc : string; e_req : string; e_status : string }.

Definition entry_of (k : Cols) (row : list Cell) : Entry :=
  {| e_tool := text (cell_or_blank row (c_tool k));
     e_desc := text (cell_or_blank row (c_desc k));
     e_req := text (cell_or_blank row (c_req k));
     e_status := text (cell_or_blank row (c_status k)) |}.

(** The body rows of a qualifying table, read through its mapped columns;
    a table that does not qualify contributes nothing. *)
Definition table_entries (t : Table) : list Entry :=
  match verdict t with
  | Some (names, _) => entry_of (cols_of names) <$> tail (rows t)
  | None => []
  end.

Definition shape_entries (sh : Shape) : list Entry :=
  match sh with
  | GraphicFrame _ t => table_entries t
  | OtherShape _ => []
  end.

Definition shapes_entries (shs : list Shape) : list Entry := concat (shape_entries <$> shs).

Definition doc_entries (pres : Presentation) : list Entry :=
  concat ((λ s, shapes_entries (shapes s)) <$> pres).

Definition entry_matches (tool_name : string) (e : Entry) : Prop :=
  lower (strip (e_tool e)) = lower tool_name.

#[global] Instance entry_matches_dec tool_name e : Decision (entry_matches tool_name e).
Proof. unfold entry_matches. apply _. Defined.

Definition sync_text (new_val : string) (x : string) : string :=
  if decide (strip x = new_val) then x else new_val.

Definition differs (new_val : string) (x : string) : nat :=
  if decide (strip x = new_val) then 0%nat else 1%nat.

Definition sync_entry (excel_row : ExcelRow) (e : Entry) : Entry :=
  {| e_tool := e_tool e;
     e_desc := sync_text (strip (Service_Use_Case excel_row)) (e_desc e);
     e_req := sync_text (strip (Requestor excel_row)) (e_req e);
     e_status := sync_text (strip (Status excel_row)) (e_status e) |}.

Definition changed_entry (excel_row : ExcelRow) (e : Entry) : nat :=
  (differs (strip (Service_Use_Case excel_row)) (e_desc e)
   + differs (strip (Requestor excel_row)) (e_req e)
   + differs (strip (Status excel_row)) (e_status e))%nat.

(** The search of one record, on entries in scan order. *)
Fixpoint update_first (excel_row : ExcelRow) (tool_name : string) (es : list Entry)
  : list Entry * option nat :=
  match es with
  | [] => ([], None)
  | e :: rest =>
      if decide (entry_matches tool_name e)
      then (sync_entry excel_row e :: rest, Some (changed_entry excel_row e))
      else let '(rest', found) := update_first excel_row tool_name rest in (e :: rest', found)
  end.

(** ** One qualifying frame in the shape loop *)

(** The table after the header styling done when it becomes the target. *)
Definition header_styled (t : Table) : Table :=
  {| columns := columns t;
     rows := match rows t with
             | hdr :: body => ((λ cl, set_cell_style cl true) <$> hdr) :: body
             | [] => []
             end |}.

(** The reference cached for the first qualifying table. *)
Definition first_target (slide_idx j : nat) : Target :=
  {| target_slide := slide_idx; target_table := j; target_shape := Attached j |}.

Definition seen_table (tgt : option Target) (t : Table) : Table :=
  match tgt with None => header_styled t | Some _ => t end.

Definition seen_target (tgt : option Target) (slide_idx j : nat) : option Target :=
  match tgt with None => Some (first_target slide_idx j) | Some _ => tgt end.

(** ** The search of one record over the whole document *)

Definition wf_shape (sh : Shape) : Prop :=
  match sh with
  | GraphicFrame _ t => wf_table t
  | OtherShape _ => True
  end.

Definition wf_pres (pres : Presentation) : Prop :=
  Forall (λ s, Forall wf_shape (shapes s)) pres.

(** What the search never changes in a table: the grid, the lengths of the
    rows and the header texts. *)
Definition tbl_skel (t : Table) : option (list (option Z)) * list nat * list string :=
  (columns t, (λ row : list Cell, length row) <$> rows t, text <$> hd [] (rows t)).

Definition shape_skel (sh : Shape)
  : nat + Geometry * (option (list (option Z)) * list nat * list string) :=
  match sh with
  | OtherShape n => inl n
  | GraphicFrame g t => inr (g, tbl_skel t)
  end.

Definition slide_skel (s : Slide) := (slide_layout s, shape_skel <$> shapes s).

(** The document without its fonts. *)
Definition shape_text (sh : Shape)
  : nat + Geometry * option (list (option Z)) * list (list string) :=
  match sh with
  | OtherShape n => inl n
  | GraphicFrame g t => inr (g, columns t, text_grid t)
  end.

Definition slide_text (s : Slide) := (slide_layout s, shape_text <$> shapes s).

(** The table of a qualifying frame after the row loop ran over it. *)
Definition synced_table (tgt : option Target) (names : list string) (excel_row : ExcelRow)
    (tool_name : string) (t : Table) : Table :=
  {| columns := columns t;
     rows := hd [] (rows (seen_table tgt t))
             :: (sync_first (cols_of names) excel_row tool_name
                   (tail (rows (seen_table tgt t)))).1 |}.

Fixpoint first_qual_shape (j : nat) (shs : list Shape) : option nat :=
  match shs with
  | [] => None
  | GraphicFrame _ t :: rest =>
      match verdict t with
      | Some _ => Some j
      | None => first_qual_shape (S j) rest
      end
  | OtherShape _ :: rest => first_qual_shape (S j) rest
  end.

(** The cached target after a scan: kept when there was one, otherwise
    the first qualifying frame met. *)
Definition new_target (tgt : option Target) (fresh : option Target) : option Target :=
  match tgt with Some _ => tgt | None => fresh end.

Definition unchanged_count (found : option nat) : Prop :=
  found = None ∨ found = Some 0%nat.

Fixpoint first_qual_doc (i : nat) (pres : Presentation) : option Target :=
  match pres with
  | [] => None
  | s :: rest =>
      match first_qual_shape 0 (shapes s) with
      | Some j => Some (first_target i j)
      | None => first_qual_doc (S i) rest
      end
  end.

(** ** The cached target *)

(** A frame at a position of the document whose table qualifies. *)
Definition qual_at (pres : Presentation) (i j : nat) : Prop :=
  ∃ slide g t, pres !! i = Some slide ∧ shapes slide !! j = Some (GraphicFrame g t)
               ∧ is_Some (verdict t).

(** The cached references denote qualifying tables of one slide. *)
Definition target_ok (pres : Presentation) (tg : Target) : Prop :=
  qual_at pres (target_slide tg) (target_table tg)
  ∧ ∃ j, target_shape tg = Attached j ∧ qual_at pres (target_slide tg) j.

(** No table of the document qualifies. *)
Definition no_qual (pres : Presentation) : Prop := first_qual_doc 0 pres = None.

(** ** The appended row *)

(** The entry the appended row reads as. *)
Definition new_entry (tool_name : string) (excel_row : ExcelRow) : Entry :=
  {| e_tool := tool_name;
     e_desc := strip (Service_Use_Case excel_row);
     e_req := strip (Requestor excel_row);
     e_status := strip (Status excel_row) |}.

(** ** The append step on the whole state *)

Definition same_counters (st st' : State) : Prop :=
  updates_made st' = updates_made st ∧ rows_added st' = rows_added st
  ∧ not_found_before_adding st' = not_found_before_adding st.

(** ** One record *)

Definition target_inv (st : State) : Prop :=
  match target st with
  | None => True
  | Some tg => target_ok (presentation st) tg
  end.

(** The three ways one record with a key can end. *)
Definition found_step (excel_row : ExcelRow) (st st' : State) (n : nat) : Prop :=
  let es := doc_entries (presentation st) in
  update_first excel_row (strip (Tool excel_row)) es
    = (doc_entries (presentation st'), Some n)
  ∧ updates_made st' = (updates_made st + n)%nat
  ∧ rows_added st' = rows_added st
  ∧ slide_skel <$> presentation st' = slide_skel <$> presentation st
  ∧ (n = 0%nat → slide_text <$> presentation st' = slide_text <$> presentation st).

Definition appended_step (excel_row : ExcelRow) (st st' : State) : Prop :=
  let es := doc_entries (presentation st) in
  (update_first excel_row (strip (Tool excel_row)) es).2 = None
  ∧ doc_entries (presentation st') ≡ₚ es ++ [new_entry (strip (Tool excel_row)) excel_row]
  ∧ updates_made st' = (updates_made st + 4)%nat
  ∧ rows_added st' = (rows_added st + 1)%nat
  ∧ ¬ no_qual (presentation st).

Definition passed_step (add_missing_tools : bool) (excel_row : ExcelRow) (st st' : State)
  : Prop :=
  let es := doc_entries (presentation st) in
  (update_first excel_row (strip (Tool excel_row)) es).2 = None
  ∧ doc_entries (presentation st') = es
  ∧ updates_made st' = updates_made st
  ∧ rows_added st' = rows_added st
  ∧ slide_skel <$> presentation st' = slide_skel <$> presentation st
  ∧ slide_text <$> presentation st' = slide_text <$> presentation st
  ∧ (add_missing_tools = false ∨ no_qual (presentation st)).

(** ** Header style *)


(** ** Records and entries *)

(** The entries a key finds. *)
Definition hits (tool_name : string) (es : list Entry) : list Entry :=
  filter (entry_matches tool_name) es.


(** ** Steps and resolved records *)

Definition step (add_missing_tools : bool) (excel_row : ExcelRow) (st st' : State) : Prop :=
  (∃ n, found_step excel_row st st' n)
  ∨ (add_missing_tools = true ∧ appended_step excel_row st st')
  ∨ passed_step add_missing_tools excel_row st st'.


(** ** A whole run *)

(** The normalised key of a record; records with an empty key have none. *)
Definition key_of (excel_row : ExcelRow) : option string :=
  if decide (strip (Tool excel_row) = "") then None
  else Some (lower (strip (Tool excel_row))).

Definition keys (excel_df : list ExcelRow) : list string := omap key_of excel_df.

(** The number of rows of every table of the document, slide by slide. *)
Definition row_counts (pres : Presentation) : list (list (option nat)) :=
  (λ s, (λ sh, match sh with
               | GraphicFrame _ t => Some (length (rows t))
               | OtherShape _ => None
               end) <$> shapes s) <$> pres.

(** The run that follows a run: the same dataset on the file the first
    run left. *)
Definition second_run (excel_df : list ExcelRow) (ppt_file : Presentation)
    (add_missing_tools : bool) : Outcome :=
  sync_excel_to_ppt excel_df
    (ppt_file_after (sync_excel_to_ppt excel_df ppt_file add_missing_tools)) add_missing_tools.

(** ** What a run keeps *)

#[global] Instance Entry_eq_dec : EqDecision Entry.
Proof. solve_decision. Defined.

(** A record with a key that no entry carries. *)
Definition lacks (es : list Entry) (excel_row : ExcelRow) : Prop :=
  strip (Tool excel_row) ≠ "" ∧ hits (strip (Tool excel_row)) es = [].

#[global] Instance lacks_dec es excel_row : Decision (lacks es excel_row).
Proof. unfold lacks. apply _. Defined.

(** The summary that the end of the run prints for a final state. *)
Definition summary_of (excel_df : list ExcelRow) (st : State) : Summary :=
  {| total_tools_processed := length excel_df;
     sum_updates_made := updates_made st;
     sum_rows_added := rows_added st;
     sum_not_found := not_found_before_adding st |}.

(** ** The document after a run *)


(** ** The row an append writes *)


(** The table that receives the row of an append: the target table, or
    the header copy of it once the target is full. *)
Definition receiving_table (g : Geometry) (t : Table) (M : nat) : Table :=
  if decide (MAX_BODY_ROWS ≤ Z.of_nat (length (rows t)) - 1)%Z then header_table g t M else t.

(** ** Reading the dataset *)

(** A row that the loading loop keeps: some cell of it is not [None]. *)
Definition kept (row : list (option Value)) : Prop := any_not_none row = true.

#[global] Instance kept_dec row : Decision (kept row).
Proof. unfold kept. apply _. Defined.

(** ** Documents with one qualifying table per slide *)

Definition qualifies (sh : Shape) : Prop :=
  match sh with
  | GraphicFrame _ t => is_Some (verdict t)
  | OtherShape _ => False
  end.

#[global] Instance qualifies_dec sh : Decision (qualifies sh).
Proof. destruct sh; simpl; apply _. Defined.

(** At most one frame of the slide holds a qualifying table. *)
Definition single_qual (shs : list Shape) : Prop := (length (filter qualifies shs) ≤ 1)%nat.

(** The table of the shape, if any, has at most [B] rows. *)
Definition within (B : nat) (sh : Shape) : Prop :=
  match sh with
  | GraphicFrame _ t => (length (rows t) ≤ B)%nat
  | OtherShape _ => True
  end.

Definition capped (B : nat) (pres : Presentation) : Prop :=
  Forall (λ s, single_qual (shapes s) ∧ Forall (within B) (shapes s)) pres.

(** The invariant of the record loop on such documents: the cached shape
    is the frame of the cached table. *)
Definition capped_state (B : nat) (st : State) : Prop :=
  wf_pres (presentation st) ∧ capped B (presentation st)
  ∧ match target st with
    | None => True
    | Some tg => target_ok (presentation st) tg ∧ target_shape tg = Attached (target_table tg)
    end.

(** ** Sample documents and records *)

(** A concrete presentation library: columns of a new table share the
    frame width evenly; a width can be assigned when it is not negative. *)
Definition even_width (w : Z) (cols c : nat) : Z := (w / Z.of_nat cols)%Z.

Definition nonneg (w : Z) : bool := (0 <=? w)%Z.

Definition plain (s : string) : Cell := {| text := s; font := None |}.

Definition hdr : list Cell :=
  [plain "AI Tool"; plain "Tool Description"; plain "Requestor"; plain "Current State"].

Definition names : list string :=
  ["AI Tool"; "Tool Description"; "Requestor"; "Current State"].

Definition row_x : list Cell := [plain "ToolX"; plain "Old"; plain "Bob"; plain "Pending"].

Definition frame : Geometry := {| left := 100; top := 200; width := 400; height := 300 |}.

Definition grid4 : option (list (option Z)) := Some [Some 70; Some 90; Some 110; Some 130]%Z.

Definition header_only : Table := {| columns := grid4; rows := [hdr] |}.

Definition one_row : Table := {| columns := grid4; rows := [hdr; row_x] |}.

Definition layout : Layout := {| layout_id := 1; layout_placeholders := [0%nat] |}.

Definition slide_of (t : Table) : Slide :=
  {| slide_layout := layout; shapes := [OtherShape 7; GraphicFrame frame t] |}.

Definition tool_x : ExcelRow :=
  {| Tool := "ToolX"; Service_Use_Case := "New"; Requestor := "Bob"; Status := "Approved" |}.


Definition blank_key : ExcelRow :=
  {| Tool := "   "; Service_Use_Case := "New"; Requestor := "Bob"; Status := "Approved" |}.

Definition doc_one : list Slide := [slide_of one_row].

Definition values_x : gmap string string :=
  build_values_by_header names "ToolX" tool_x.

(** The same table with one column whose width cannot be read. *)
Definition one_row_gap : Table :=
  {| columns := Some [Some 70; None; Some 110; Some 130]%Z; rows := [hdr; row_x] |}.




(** Two qualifying tables on one slide that carry the same key. *)
Definition row_a : list Cell := [plain "ToolX"; plain "a"; plain "Bob"; plain "Pending"].

Definition row_b : list Cell := [plain "ToolX"; plain "b"; plain "Bob"; plain "Pending"].

Definition twin_slide : Slide :=
  {| slide_layout := layout;
     shapes := [GraphicFrame frame {| columns := grid4; rows := [hdr; row_a] |};
                GraphicFrame frame {| columns := grid4; rows := [hdr; row_b] |}] |}.

Definition tool_x_new : ExcelRow :=
  {| Tool := "ToolX"; Service_Use_Case := "new"; Requestor := "Bob"; Status := "Pending" |}.

Definition tool_y : ExcelRow :=
  {| Tool := "ToolY"; Service_Use_Case := "y"; Requestor := "Amy"; Status := "Open" |}.

(** A table at capacity: the header and eight body rows. *)
Definition full : Table := {| columns := grid4; rows := hdr :: replicate 8 row_x |}.

Definition full_state (t : Table) : State :=
  {| presentation := [slide_of t]; updates_made := 0; rows_added := 0;
     not_found_before_adding := 0;
     target := Some {| target_slide := 0; target_table := 1; target_shape := Attached 1 |} |}.

Definition same_as_doc : ExcelRow :=
  {| Tool := "ToolX"; Service_Use_Case := "Old"; Requestor := "Bob"; Status := "Pending" |}.

(** A table whose header row is shorter than its grid. *)
Definition short_hdr : Table := {| columns := grid4; rows := [[plain "AI Tool"]; row_x] |}.

(** A document without any table. *)
Definition bare_doc : list Slide := [{| slide_layout := layout; shapes := [OtherShape 7] |}].

(** The columns and one row of a loaded sheet. *)
Definition sheet_columns : list string :=
  ["Status"; "Tool"; Service_Use_Case_col; "Requestor"].

Definition sheet_row : list string := ["Approved"; "ToolX"; "New"; "Bob"].

(** A slide with a small and a full qualifying table. *)
Definition small_and_full : Slide :=
  {| slide_layout := layout; shapes := [GraphicFrame frame one_row; GraphicFrame frame full] |}.

Definition tool_z : ExcelRow :=
  {| Tool := "ToolZ"; Service_Use_Case := "z"; Requestor := "Zoe"; Status := "Open" |}.

(** * Properties *)

(** ** Facts about [strip] *)

Lemma lstrip_clean s : starts_clean (lstrip s).
Proof.
  induction s as [|a r IH]; simpl; [done|].
  destruct (is_space a) eqn:E; [done|]. simpl. done.
Qed.

Lemma lstrip_id s : starts_clean s → lstrip s = s.
Proof. destruct s as [|a r]; simpl; [done|]. by intros ->. Qed.

Lemma rstrip_clean s : starts_clean s → starts_clean (rstrip s).
Proof.
  destruct s as [|a r]; simpl; [done|]. intros E.
  destruct (rstrip r); simpl; by rewrite ?E.
Qed.

Lemma rstrip_idemp s : rstrip (rstrip s) = rstrip s.
Proof.
  induction s as [|a r IH]; simpl; [done|].
  destruct (rstrip r) as [|b r'] eqn:Er.
  - destruct (is_space a) eqn:E; simpl; [done|]. by rewrite E.
  - change (rstrip (String a (String b r'))) with
      (match rstrip (String b r') with
       | EmptyString => if is_space a then EmptyString else String a EmptyString
       | r'' => String a r''
       end).
    rewrite IH. done.
Qed.

Lemma strip_idemp s : strip (strip s) = strip s.
Proof.
  unfold strip. rewrite (lstrip_id (rstrip (lstrip s))).
  - apply rstrip_idemp.
  - apply rstrip_clean, lstrip_clean.
Qed.

(** ** Loops and grids *)

Lemma for_in_seq_ind {S : Type} (body : nat → S → option S) (P : nat → S → Prop) n s0 :
  P 0%nat s0 →
  (∀ i s, i < n → P i s → ∃ s', body i s = Some s' ∧ P (Datatypes.S i) s') →
  ∃ s', for_in (seq 0 n) body s0 = Some s' ∧ P n s'.
Proof.
  intros H0 Hstep.
  assert (∀ m k s, k + m = n → P k s →
            ∃ s', for_in (seq k m) body s = Some s' ∧ P n s') as Hgen.
  { induction m as [|m IH]; intros k s Hk HP; simpl.
    - exists s. replace n with k by lia. done.
    - destruct (Hstep k s) as (s1 & -> & HP1); [lia|done|]. simpl.
      apply IH; [lia|done]. }
  apply (Hgen n 0%nat s0); [lia|done].
Qed.

Lemma mapM_seq_lookup {A B : Type} (l : list A) (f : A → B) :
  mapM (λ c, x ← l !! c; Some (f x)) (seq 0 (length l)) = Some (f <$> l).
Proof.
  apply mapM_Some. apply Forall2_same_length_lookup_2.
  - by rewrite length_seq, length_fmap.
  - intros i c y Hc Hy. apply lookup_seq in Hc as [-> Hlt]. simpl.
    rewrite list_lookup_fmap in Hy. destruct (l !! i); simpl in *; congruence.
Qed.

Lemma header_names_dims t N M row rest :
  table_dims t N M → rows t = row :: rest →
  header_names t M = Some ((λ cl, strip (text cl)) <$> row).
Proof.
  intros (Hc & Hn & Hall) Hrows. unfold header_names, cell.
  rewrite Hrows in *. simpl. apply Forall_cons in Hall as [<- _].
  apply (mapM_seq_lookup row (λ cl, strip (text cl))).
Qed.

Lemma text_grid_dims t N M :
  table_dims t N M →
  mapM (λ r, mapM (λ c, cl ← cell t r c; Some (text cl)) (seq 0 M)) (seq 0 N)
  = Some (text_grid t).
Proof.
  intros (Hc & Hn & Hall). unfold text_grid. subst N.
  apply mapM_Some. apply Forall2_same_length_lookup_2.
  - by rewrite length_seq, length_fmap.
  - intros i r y Hr Hy. apply lookup_seq in Hr as [-> Hlt]. simpl in *.
    rewrite list_lookup_fmap in Hy. unfold cell.
    destruct (rows t !! i) as [row|] eqn:Hrow; simpl in *; [|done].
    injection Hy as <-.
    assert (length row = M) as <-.
    { eapply Forall_lookup_1 in Hall; eauto. }
    apply (mapM_seq_lookup row text).
Qed.

(** ** The loops of the Table Rebuilder *)

Lemma insert_take_drop_step {A B : Type} (f : B → A) (src : list B) (old : list A) c v x :
  src !! c = Some v → c < length old →
  <[c := x]> ((f <$> take c src) ++ drop c old) = (f <$> take c src) ++ x :: drop (S c) old.
Proof.
  intros Hv Hlt.
  assert (length (f <$> take c src) = c) as Hlen.
  { rewrite length_fmap, length_take. apply lookup_lt_Some in Hv. lia. }
  rewrite insert_app_r_alt by lia. rewrite Hlen, Nat.sub_diag.
  destruct (lookup_lt_is_Some_2 old c Hlt) as [y Hy].
  rewrite (drop_S old y c Hy). done.
Qed.

Lemma fill_row_loop (t : Table) (r : nat) (row : list Cell) (grid : list (list string))
    (grow : list string) (b : bool) :
  rows t !! r = Some row → grid !! r = Some grow → length grow = length row →
  ∃ t', for_in (seq 0 (length row)) (λ c t,
            grow ← grid !! r; v ← grow !! c;
            write_cell t r c (λ cl, set_cell_style (set_text cl v) b)) t = Some t'
        ∧ columns t' = columns t
        ∧ rows t' = <[r := styled_cell b <$> grow]> (rows t).
Proof.
  intros Hrow Hgrow Hlen.
  destruct (for_in_seq_ind
    (λ c t, grow ← grid !! r; v ← grow !! c;
            write_cell t r c (λ cl, set_cell_style (set_text cl v) b))
    (λ c t', columns t' = columns t ∧
             rows t' = <[r := (styled_cell b <$> take c grow) ++ drop c row]> (rows t))
    (length row) t) as (t' & Hrun & Hcols & Hrows).
  - split; [done|]. simpl. rewrite drop_0. by rewrite list_insert_id.
  - intros c s Hc [Hcs Hrs]. rewrite Hgrow. simpl.
    destruct (lookup_lt_is_Some_2 grow c) as [v Hv]; [lia|]. rewrite Hv. simpl.
    unfold write_cell. rewrite Hrs.
    rewrite list_lookup_insert_eq by (by eapply lookup_lt_Some). simpl.
    assert (length (styled_cell b <$> take c grow) = c) as Hl.
    { rewrite length_fmap, length_take. lia. }
    destruct (lookup_lt_is_Some_2 row c Hc) as [y Hy].
    rewrite lookup_app_r by lia. rewrite Hl, Nat.sub_diag.
    rewrite (drop_S row y c Hy). simpl.
    eexists. split; [done|]. simpl. split; [done|].
    rewrite list_insert_insert_eq. f_equal.
    rewrite <- (drop_S row y c Hy).
    rewrite (insert_take_drop_step (styled_cell b) grow row c v) by done.
    rewrite (take_S_r grow c v Hv), fmap_app. simpl. by rewrite <- app_assoc.
  - exists t'. split; [done|]. split; [done|].
    rewrite Hrows. rewrite <- Hlen at 1. rewrite firstn_all.
    rewrite drop_all. by rewrite app_nil_r.
Qed.

Lemma fill_grid_loop (t : Table) (grid : list (list string)) (M : nat) :
  length grid = length (rows t) →
  Forall (λ row, length row = M) (rows t) →
  Forall (λ grow, length grow = M) grid →
  ∃ t', for_in (seq 0 (length (rows t))) (λ r,
          for_in (seq 0 M) (λ c t,
            grow ← grid !! r; v ← grow !! c;
            write_cell t r c (λ cl, set_cell_style (set_text cl v) (bool_decide (r = 0%nat))))) t
        = Some t'
        ∧ columns t' = columns t
        ∧ rows t' = styled_grid grid.
Proof.
  intros Hlen Hrows Hgrid.
  destruct (for_in_seq_ind
    (λ r, for_in (seq 0 M) (λ c t,
            grow ← grid !! r; v ← grow !! c;
            write_cell t r c (λ cl, set_cell_style (set_text cl v) (bool_decide (r = 0%nat)))))
    (λ r t', columns t' = columns t ∧
             rows t' = styled_grid (take r grid) ++ drop r (rows t))
    (length (rows t)) t) as (t' & Hrun & Hcols & Hr).
  - split; [done|]. by rewrite take_0, drop_0.
  - intros r s Hr [Hcs Hrs].
    destruct (lookup_lt_is_Some_2 (rows t) r Hr) as [row Hrow].
    destruct (lookup_lt_is_Some_2 grid r) as [grow Hgrow]; [lia|].
    assert (length row = M) as HM by (eapply Forall_lookup_1 in Hrows; eauto).
    assert (length grow = M) as HG by (eapply Forall_lookup_1 in Hgrid; eauto).
    assert (length (styled_grid (take r grid)) = r) as Hl.
    { unfold styled_grid. rewrite length_imap, length_take. lia. }
    assert (rows s !! r = Some row) as Hsr.
    { rewrite Hrs, lookup_app_r by lia. rewrite Hl, Nat.sub_diag.
      by rewrite (drop_S _ _ _ Hrow). }
    destruct (fill_row_loop s r row grid grow (bool_decide (r = 0%nat)) Hsr Hgrow)
      as (s' & Hrun & Hc' & Hr'); [lia|].
    rewrite HM in Hrun. exists s'. split; [done|]. split; [congruence|].
    rewrite Hr', Hrs. rewrite insert_app_r_alt by lia. rewrite Hl, Nat.sub_diag.
    rewrite (drop_S _ _ _ Hrow). simpl.
    rewrite (take_S_r grid r grow Hgrow). unfold styled_grid at 2.
    rewrite imap_app. simpl. rewrite length_take, Nat.min_l by lia.
    rewrite Nat.add_0_r. rewrite <- app_assoc. done.
  - exists t'. split; [done|]. split; [done|].
    rewrite Hr. rewrite <- Hlen at 1. rewrite firstn_all.
    rewrite drop_all. by rewrite app_nil_r.
Qed.

Lemma capture_widths_columns (t : Table) (ws : list (option Z)) :
  columns t = Some ws → capture_widths t (length ws) = mapM id ws.
Proof.
  intros Hc. unfold capture_widths. rewrite Hc.
  assert (∀ pre : list (option Z),
            mapM (λ c, ws0 ← Some (pre ++ ws); w ← ws0 !! c; w) (seq (length pre) (length ws))
            = mapM id ws) as Hgen.
  { clear Hc. induction ws as [|w ws IH]; intros pre; [done|].
    simpl. rewrite lookup_app_r, Nat.sub_diag by lia. simpl.
    specialize (IH (pre ++ [w])). rewrite length_app in IH. simpl in IH.
    rewrite <- app_assoc in IH. simpl in IH.
    rewrite Nat.add_1_r in IH. rewrite IH. done. }
  apply (Hgen []).
Qed.

Lemma mapM_id_length (ws : list (option Z)) (cw : list Z) :
  mapM id ws = Some cw → length cw = length ws.
Proof. intros H. apply length_mapM in H. done. Qed.

Lemma zip_restore_step (ds : list (option Z)) (cw : list Z) c d w :
  ds !! c = Some d → cw !! c = Some w →
  zip_with (λ d w, if width_settable w then Some w else d) (take (S c) ds) (take (S c) cw)
  = zip_with (λ d w, if width_settable w then Some w else d) (take c ds) (take c cw)
    ++ [if width_settable w then Some w else d].
Proof.
  intros Hd Hw. rewrite (take_S_r ds c d Hd), (take_S_r cw c w Hw).
  rewrite zip_with_app; [done|].
  rewrite !length_take. apply lookup_lt_Some in Hd, Hw. lia.
Qed.

Lemma restore_width_step (s : Table) (ds : list (option Z)) (cw : list Z)
    (pre : list (option Z)) c :
  length cw = length ds → c < length ds → length pre = c →
  columns s = Some (pre ++ drop c ds) →
  ∃ d w, ds !! c = Some d ∧ cw !! c = Some w ∧
    rows (restore_width (Some cw) c s) = rows s ∧
    columns (restore_width (Some cw) c s)
    = Some ((pre ++ [if width_settable w then Some w else d]) ++ drop (S c) ds).
Proof.
  intros Hlen Hc Hpre Hcols.
  destruct (lookup_lt_is_Some_2 ds c Hc) as [d Hd].
  destruct (lookup_lt_is_Some_2 cw c) as [w Hw]; [lia|].
  exists d, w. split; [done|]. split; [done|].
  unfold restore_width. destruct cw as [|w0 cw']; [done|].
  rewrite Hw. simpl. unfold set_col_width. rewrite Hcols. simpl.
  rewrite lookup_app_r by lia. rewrite Hpre, Nat.sub_diag.
  rewrite (drop_S ds d c Hd). simpl.
  destruct (width_settable w); simpl.
  - split; [done|]. rewrite insert_app_r_alt by lia.
    rewrite Hpre, Nat.sub_diag. simpl. by rewrite <- app_assoc.
  - split; [done|]. rewrite Hcols, (drop_S ds d c Hd). by rewrite <- app_assoc.
Qed.

Lemma restore_widths_loop (t : Table) (ds : list (option Z)) (col_widths : option (list Z)) :
  columns t = Some ds →
  (∀ cw, col_widths = Some cw → length cw = length ds) →
  ∃ t', for_in (seq 0 (length ds)) (λ c t, Some (restore_width col_widths c t)) t = Some t'
        ∧ rows t' = rows t
        ∧ columns t' = Some (restored_widths ds col_widths).
Proof.
  intros Hcols Hlen. destruct col_widths as [cw|].
  - specialize (Hlen cw eq_refl).
    destruct (for_in_seq_ind (λ c t, Some (restore_width (Some cw) c t))
      (λ c t', rows t' = rows t ∧
               columns t' = Some (zip_with (λ d w, if width_settable w then Some w else d)
                                    (take c ds) (take c cw) ++ drop c ds))
      (length ds) t) as (t' & Hrun & Hr & Hc).
    + split; [done|]. by rewrite !take_0, drop_0.
    + intros c s Hc [Hrs Hcs]. eexists. split; [done|].
      destruct (restore_width_step s ds cw
                  (zip_with (λ d w, if width_settable w then Some w else d)
                     (take c ds) (take c cw)) c Hlen Hc)
        as (d & w & Hd & Hw & Hr1 & Hc1); [|done|].
      { rewrite length_zip_with, !length_take. lia. }
      split; [congruence|]. rewrite Hc1. by rewrite (zip_restore_step ds cw c d w).
    + exists t'. split; [done|]. split; [done|]. rewrite Hc. simpl.
      rewrite <- Hlen at 2. rewrite !firstn_all, drop_all. by rewrite app_nil_r.
  - destruct (for_in_seq_ind (λ c t, Some (restore_width None c t)) (λ _ t', t' = t)
      (length ds) t) as (t' & Hrun & ->); [done| |].
    + intros c s _ ->. by eexists.
    + by exists t.
Qed.

(** ** The Table Rebuilder as a function of the old table *)

Lemma with_table_last (lay : Layout) (l : list Shape) g t (f : Table → option Table) t' :
  f t = Some t' →
  with_table {| slide_layout := lay; shapes := l ++ [GraphicFrame g t] |}
             (length (l ++ [GraphicFrame g t]) - 1) f
  = Some {| slide_layout := lay; shapes := l ++ [GraphicFrame g t'] |}.
Proof.
  intros Hf. unfold with_table. simpl.
  rewrite length_app. simpl. replace (length l + 1 - 1) with (length l) by lia.
  rewrite lookup_app_r, Nat.sub_diag by lia. simpl. rewrite Hf. simpl.
  rewrite insert_app_r_alt, Nat.sub_diag by lia. done.
Qed.

Lemma default_widths_length g M : length (default_widths g M) = M.
Proof. unfold default_widths. by rewrite length_fmap, length_seq. Qed.

Lemma capture_widths_length t M cw :
  len_columns t = Some M → capture_widths t M = Some cw → length cw = M.
Proof.
  unfold capture_widths. intros _ H. apply length_mapM in H.
  rewrite length_seq in H. done.
Qed.

Lemma rebuild_spec (slide : Slide) (i : nat) g t N M (vals : gmap string string) :
  shapes slide !! i = Some (GraphicFrame g t) →
  table_dims t N M → 0 < N → 0 < M →
  _append_row_by_rebuilding slide (Attached i) vals
  = Some ({| slide_layout := slide_layout slide;
             shapes := delete i (shapes slide) ++ [GraphicFrame g (rebuilt_table g t M vals)] |},
          length (shapes slide) - 1).
Proof.
  intros Hsh Hdims HN HM. pose proof Hdims as (Hc & Hn & Hall).
  unfold _append_row_by_rebuilding. simpl. rewrite Hsh. simpl. rewrite Hc. simpl.
  rewrite Hn. rewrite (text_grid_dims t N M Hdims). simpl.
  destruct (rows t) as [|row rest] eqn:Hrows; [simpl in Hn; lia|].
  rewrite (header_names_dims t N M row rest Hdims Hrows). simpl.
  unfold add_table.
  assert ((N + 1 =? 0)%nat || (M =? 0)%nat = false) as ->.
  { apply orb_false_intro; apply Nat.eqb_neq; lia. }
  simpl.
  set (l := delete i (shapes slide)).
  fold (default_widths g M). fold (blank_table g (N + 1) M).
  destruct (restore_widths_loop (blank_table g (N + 1) M) (default_widths g M)
              (capture_widths t M)) as (t1 & Hrun1 & Hr1 & Hc1); [done| |].
  { intros cw Hcw. rewrite default_widths_length. by eapply capture_widths_length. }
  rewrite default_widths_length in Hrun1.
  rewrite (with_table_last _ l g _ _ t1 Hrun1). simpl.
  set (grid := text_grid t ++ [_]).
  destruct (fill_grid_loop t1 grid M) as (t2 & Hrun2 & Hc2 & Hr2).
  { rewrite Hr1. simpl. unfold grid, text_grid.
    rewrite length_app, length_fmap, length_replicate. simpl. rewrite Hrows. simpl in *. lia. }
  { rewrite Hr1. simpl. apply Forall_replicate. by rewrite length_replicate. }
  { unfold grid. apply Forall_app. split.
    - unfold text_grid. rewrite Hrows. apply Forall_fmap.
      eapply Forall_impl; [exact Hall|].
      intros r Hr. simpl. by rewrite length_fmap.
    - apply Forall_singleton. rewrite !length_fmap.
      by apply Forall_cons in Hall as [? _]. }
  rewrite Hr1 in Hrun2. simpl in Hrun2. rewrite length_replicate in Hrun2.
  replace (length (l ++ [GraphicFrame g (blank_table g (N + 1) M)]) - 1)
    with (length (l ++ [GraphicFrame g t1]) - 1) by (rewrite !length_app; done).
  rewrite (with_table_last _ l g _ _ t2 Hrun2). simpl.
  f_equal. f_equal.
  - f_equal. f_equal. f_equal.
    replace t2 with {| columns := columns t2; rows := rows t2 |} by (by destruct t2).
    rewrite Hc2, Hc1, Hr2. unfold rebuilt_table. f_equal.
    unfold grid, new_row_values. rewrite Hrows. simpl.
    rewrite <- list_fmap_compose. done.
  - rewrite length_app. simpl. unfold l. rewrite length_delete; [|by eexists].
    apply lookup_lt_Some in Hsh. lia.
Qed.

(** ** The loop of the Pagination Controller *)

Lemma widths_upto_all ds col_widths :
  (∀ cw, col_widths = Some cw → length cw = length ds) →
  widths_upto ds col_widths (length ds) = restored_widths ds col_widths.
Proof.
  intros Hlen. destruct col_widths as [cw|]; [|done]. simpl.
  rewrite <- (Hlen cw eq_refl) at 2. rewrite !firstn_all, drop_all. by rewrite app_nil_r.
Qed.

Lemma restore_width_inv (s : Table) ds col_widths c :
  (∀ cw, col_widths = Some cw → length cw = length ds) →
  c < length ds →
  columns s = Some (widths_upto ds col_widths c) →
  rows (restore_width col_widths c s) = rows s ∧
  columns (restore_width col_widths c s) = Some (widths_upto ds col_widths (S c)).
Proof.
  intros Hlen Hc Hcols. destruct col_widths as [cw|]; [|done].
  specialize (Hlen cw eq_refl). simpl in Hcols.
  destruct (restore_width_step s ds cw
              (zip_with (λ d w, if width_settable w then Some w else d)
                 (take c ds) (take c cw)) c Hlen Hc)
    as (d & w & Hd & Hw & Hr1 & Hc1); [|done|].
  { rewrite length_zip_with, !length_take. lia. }
  split; [done|]. rewrite Hc1. simpl. by rewrite (zip_restore_step ds cw c d w).
Qed.

Lemma header_loop (g : Geometry) (M : nat) (hdrs : list string) (col_widths : option (list Z)) :
  length hdrs = M →
  (∀ cw, col_widths = Some cw → length cw = M) →
  for_in (seq 0 M) (λ c t,
      h ← hdrs !! c;
      t1 ← write_cell t 0 c (λ cl, set_cell_style (set_text cl h) true);
      Some (restore_width col_widths c t1)) (blank_table g 1 M)
  = Some {| columns := Some (restored_widths (default_widths g M) col_widths);
            rows := [styled_cell true <$> hdrs] |}.
Proof.
  intros Hh Hcw.
  assert (∀ cw, col_widths = Some cw → length cw = length (default_widths g M)) as Hcw'.
  { intros cw E. rewrite default_widths_length. eauto. }
  destruct (for_in_seq_ind
    (λ c t, h ← hdrs !! c;
            t1 ← write_cell t 0 c (λ cl, set_cell_style (set_text cl h) true);
            Some (restore_width col_widths c t1))
    (λ c t', rows t' = [(styled_cell true <$> take c hdrs) ++ drop c (replicate M blank_cell)] ∧
             columns t' = Some (widths_upto (default_widths g M) col_widths c))
    M (blank_table g 1 M)) as (t' & Hrun & Hr & Hc).
  - split; [by rewrite take_0, drop_0|]. simpl.
    destruct col_widths; simpl; by rewrite ?take_0, ?drop_0.
  - intros c s Hc [Hrs Hcs].
    destruct (lookup_lt_is_Some_2 hdrs c) as [h Hhc]; [lia|]. rewrite Hhc. simpl.
    unfold write_cell. rewrite Hrs. simpl.
    assert (length (styled_cell true <$> take c hdrs) = c) as Hl.
    { rewrite length_fmap, length_take. lia. }
    assert (c < length (replicate M blank_cell)) as Hcb by (by rewrite length_replicate).
    destruct (lookup_lt_is_Some_2 _ c Hcb) as [y Hy].
    rewrite lookup_app_r by lia. rewrite Hl, Nat.sub_diag.
    rewrite (drop_S _ y c Hy). simpl.
    eexists. split; [done|].
    match goal with |- context [restore_width col_widths c ?s1] =>
      destruct (restore_width_inv s1 (default_widths g M) col_widths c Hcw')
        as [Hr1 Hc1] end.
    { by rewrite default_widths_length. }
    { done. }
    rewrite Hr1, Hc1. simpl. split; [|done]. f_equal.
    rewrite <- (drop_S _ y c Hy).
    rewrite (insert_take_drop_step (styled_cell true) hdrs _ c h) by done.
    rewrite (take_S_r hdrs c h Hhc), fmap_app. simpl. by rewrite <- app_assoc.
  - rewrite Hrun. f_equal. destruct t' as [c' r']. simpl in *. subst c' r'. f_equal.
    + f_equal. rewrite <- (widths_upto_all _ _ Hcw').
      by rewrite default_widths_length.
    + rewrite <- Hh at 1. rewrite firstn_all.
      rewrite drop_ge by (rewrite length_replicate; lia). by rewrite app_nil_r.
Qed.

Lemma start_new_slide_spec (pres : Presentation) i slide ref g t N M :
  pres !! i = Some slide →
  deref_shape slide ref = Some (GraphicFrame g t) →
  table_dims t N M → 0 < N → 0 < M →
  _start_new_slide_with_table pres i ref
  = Some (pres ++ [overflow_slide slide g t M],
          length (layout_placeholders (slide_layout slide))).
Proof.
  intros Hs Hsh Hdims HN HM. pose proof Hdims as (Hc & Hn & Hall).
  unfold _start_new_slide_with_table. rewrite Hs. simpl.
  unfold add_slide. rewrite length_app. simpl.
  replace (length pres + 1 - 1) with (length pres) by lia.
  rewrite lookup_app_r, Nat.sub_diag by lia. simpl.
  rewrite Hsh. simpl. rewrite Hc. simpl.
  destruct (rows t) as [|row rest] eqn:Hrows; [simpl in Hn; lia|].
  rewrite (header_names_dims t N M row rest Hdims Hrows). simpl.
  unfold add_table. simpl.
  assert ((M =? 0)%nat = false) as -> by (apply Nat.eqb_neq; lia). simpl.
  fold (default_widths g M). fold (blank_table g 1 M).
  set (l := OtherShape <$> layout_placeholders (slide_layout slide)).
  erewrite with_table_last; cycle 1.
  { apply header_loop.
    - rewrite length_fmap. by apply Forall_cons in Hall as [? _].
    - intros cw Hcw. by eapply capture_widths_length. }
  simpl. f_equal. f_equal.
  - rewrite insert_app_r_alt, Nat.sub_diag by lia. simpl. f_equal. f_equal.
    unfold overflow_slide. f_equal. fold l. f_equal. f_equal. f_equal.
    unfold header_table. f_equal. rewrite Hrows. simpl.
    by rewrite <- list_fmap_compose.
  - rewrite length_app. unfold l. rewrite length_fmap. simpl. lia.
Qed.

(** ** Content of a rebuilt table *)


Lemma restored_widths_length ds col_widths :
  (∀ cw, col_widths = Some cw → length cw = length ds) →
  length (restored_widths ds col_widths) = length ds.
Proof.
  intros H. destruct col_widths as [cw|]; simpl; [|done].
  rewrite length_zip_with, (H cw eq_refl). lia.
Qed.


Lemma rebuilt_table_dims g t N M vals :
  table_dims t N M → 0 < N → table_dims (rebuilt_table g t M vals) (N + 1) M.
Proof.
  intros (Hc & Hn & Hall) HN. split; [|split].
  - unfold len_columns. simpl. f_equal. rewrite restored_widths_length.
    + apply default_widths_length.
    + intros cw Hcw. rewrite default_widths_length. by eapply capture_widths_length.
  - simpl. unfold styled_grid. rewrite length_imap, length_app. unfold text_grid.
    rewrite length_fmap. simpl. lia.
  - simpl. unfold styled_grid. apply Forall_lookup_2. intros r row.
    rewrite list_lookup_imap. intros Hr.
    destruct ((text_grid t ++ [new_row_values t vals]) !! r) as [grow|] eqn:Hg;
      simpl in Hr; [|done].
    injection Hr as <-. rewrite length_fmap.
    apply lookup_app_Some in Hg as [Hg|[_ Hg]].
    + unfold text_grid in Hg. rewrite list_lookup_fmap in Hg.
      destruct (rows t !! r) as [row0|] eqn:Hrow; simpl in Hg; [|done].
      injection Hg as <-. rewrite length_fmap. eapply Forall_lookup_1 in Hall; eauto.
    + apply list_lookup_singleton_Some in Hg as [_ <-].
      unfold new_row_values. rewrite length_fmap.
      destruct (rows t) as [|row0 rest]; [simpl in Hn; lia|].
      simpl. by apply Forall_cons in Hall as [? _].
Qed.


(** ** Column widths after a rebuild or a pagination *)

Lemma default_widths_lookup g M c :
  c < M → default_widths g M !! c = Some (Some (new_col_width (width g) M c)).
Proof.
  intros Hc. unfold default_widths. rewrite list_lookup_fmap.
  rewrite (lookup_seq_lt 0 M c Hc). done.
Qed.

Lemma restored_widths_cases (g : Geometry) (t : Table) (M : nat) (ws : list (option Z)) :
  columns t = Some ws → length ws = M →
  let ws' := restored_widths (default_widths g M) (capture_widths t M) in
  length ws' = M
  ∧ (∀ cw, mapM id ws = Some cw → ∀ c w, cw !! c = Some w →
       ws' !! c = Some (Some (if width_settable w then w else new_col_width (width g) M c)))
  ∧ (mapM id ws = None → ws' = default_widths g M).
Proof.
  intros Hcols Hlen ws'. subst ws'. subst M.
  rewrite (capture_widths_columns t ws Hcols).
  split; [|split].
  - rewrite restored_widths_length; [apply default_widths_length|].
    intros cw Hcw. rewrite default_widths_length. by apply mapM_id_length.
  - intros cw Hcw c w Hw. rewrite Hcw. simpl. rewrite lookup_zip_with.
    assert (c < length ws) as Hc.
    { apply lookup_lt_Some in Hw. apply mapM_id_length in Hcw. lia. }
    rewrite (default_widths_lookup g _ c Hc). simpl. rewrite Hw. simpl.
    by destruct (width_settable w).
  - intros ->. done.
Qed.

(** C8 (as the code has it).  Width handling never aborts a rebuild or a
    pagination: both succeed on every grid-shaped table whatever its column
    widths are.  The capture is all-or-nothing: when every column width can
    be read, each column of the new table gets its captured width, except
    that a column whose width cannot be assigned keeps the width the new
    table was created with (that failure is swallowed for that column
    alone); when the width of any one column cannot be read, no width is
    restored and every column keeps its creation width. *)
Theorem width_failures_are_contained (slide : Slide) (pres : Presentation) (k i : nat)
    (g : Geometry) (t : Table) (N M : nat) (ws : list (option Z))
    (values_by_header : gmap string string) :
  pres !! k = Some slide →
  shapes slide !! i = Some (GraphicFrame g t) →
  table_dims t N M → 0 < N → 0 < M →
  columns t = Some ws →
  let spec (ws' : list (option Z)) :=
    length ws' = M
    ∧ (∀ cw, mapM id ws = Some cw → ∀ c w, cw !! c = Some w →
         ws' !! c = Some (Some (if width_settable w then w else new_col_width (width g) M c)))
    ∧ (mapM id ws = None → ws' = default_widths g M) in
  (∃ slide' new_idx new_table ws',
      _append_row_by_rebuilding slide (Attached i) values_by_header = Some (slide', new_idx)
      ∧ table_at slide' new_idx = Some new_table
      ∧ columns new_table = Some ws' ∧ spec ws')
  ∧ (∃ pres' new_slide new_idx new_table ws',
      _start_new_slide_with_table pres k (Attached i) = Some (pres', new_idx)
      ∧ pres' !! length pres = Some new_slide
      ∧ table_at new_slide new_idx = Some new_table
      ∧ columns new_table = Some ws' ∧ spec ws').
Proof.
  intros Hk Hsh Hdims HN HM Hcols spec.
  assert (length ws = M) as Hlen.
  { destruct Hdims as (Hc & _). unfold len_columns in Hc. rewrite Hcols in Hc.
    simpl in Hc. congruence. }
  pose proof (restored_widths_cases g t M ws Hcols Hlen) as Hspec.
  split.
  - eexists _, _, (rebuilt_table g t M values_by_header), _.
    split; [by eapply rebuild_spec|].
    split.
    { unfold table_at. simpl.
      rewrite lookup_app_r; rewrite length_delete by (by eexists); [|lia].
      by rewrite Nat.sub_diag. }
    split; [done|]. exact Hspec.
  - eexists _, (overflow_slide slide g t M), _, (header_table g t M), _.
    split; [by eapply start_new_slide_spec|].
    split. { rewrite lookup_app_r by lia. by rewrite Nat.sub_diag. }
    split.
    { unfold table_at, overflow_slide. simpl.
      rewrite lookup_app_r; rewrite length_fmap; [|lia]. by rewrite Nat.sub_diag. }
    split; [done|]. exact Hspec.
Qed.

(** ** Pagination *)

Lemma header_table_dims g t N M :
  table_dims t N M → 0 < N → table_dims (header_table g t M) 1 M.
Proof.
  intros (Hc & Hn & Hall) HN. split; [|split].
  - unfold len_columns. simpl. f_equal. rewrite restored_widths_length.
    + apply default_widths_length.
    + intros cw Hcw. rewrite default_widths_length. by eapply capture_widths_length.
  - done.
  - simpl. apply Forall_singleton. rewrite length_fmap.
    destruct (rows t) as [|row0 rest]; [simpl in Hn; lia|].
    simpl. by apply Forall_cons in Hall as [? _].
Qed.

Lemma ensure_capacity_paginates (st : State) (tg : Target) (slide : Slide)
    (tt : Table) (g : Geometry) (t : Table) (N M : nat) :
  target st = Some tg →
  presentation st !! target_slide tg = Some slide →
  table_at slide (target_table tg) = Some tt →
  (MAX_BODY_ROWS <= Z.of_nat (length (rows tt)) - 1)%Z →
  deref_shape slide (target_shape tg) = Some (GraphicFrame g t) →
  table_dims t N M → 0 < N → 0 < M →
  _ensure_capacity_or_paginate st
  = Some {| presentation := presentation st ++ [overflow_slide slide g t M];
            updates_made := updates_made st;
            rows_added := rows_added st;
            not_found_before_adding := not_found_before_adding st;
            target := Some {| target_slide := length (presentation st);
                              target_table := length (layout_placeholders (slide_layout slide));
                              target_shape :=
                                Attached (length (layout_placeholders (slide_layout slide))) |} |}.
Proof.
  intros Htg Hs Htt Hfull Hsh Hdims HN HM.
  unfold _ensure_capacity_or_paginate. rewrite Htg.
  unfold target_table_obj. rewrite Hs. simpl. rewrite Htt. simpl.
  apply Z.leb_le in Hfull. rewrite Hfull.
  rewrite (start_new_slide_spec _ _ slide _ g t N M Hs Hsh Hdims HN HM). simpl.
  rewrite length_app. simpl.
  replace (length (presentation st) + 1 - 1) with (length (presentation st)) by lia.
  done.
Qed.

Lemma ensure_capacity_keeps (st : State) (tg : Target) (slide : Slide) (tt : Table) :
  target st = Some tg →
  presentation st !! target_slide tg = Some slide →
  table_at slide (target_table tg) = Some tt →
  (Z.of_nat (length (rows tt)) - 1 < MAX_BODY_ROWS)%Z →
  _ensure_capacity_or_paginate st = Some st.
Proof.
  intros Htg Hs Htt Hroom.
  unfold _ensure_capacity_or_paginate. rewrite Htg.
  unfold target_table_obj. rewrite Hs. simpl. rewrite Htt. simpl.
  apply Z.leb_gt in Hroom. by rewrite Hroom.
Qed.

(** ** The Header Matcher on a readable header row *)

Lemma header_names_row (t : Table) (M : nat) hdr body :
  rows t = hdr :: body → length hdr = M →
  header_names t M = Some ((λ cl, strip (text cl)) <$> hdr).
Proof.
  intros Hrows <-. unfold header_names, cell. rewrite Hrows. simpl.
  apply (mapM_seq_lookup hdr (λ cl, strip (text cl))).
Qed.

Lemma index_of_elem (x : string) (l : list string) :
  x ∈ l → ∃ i, index_of x l = Some i ∧ l !! i = Some x.
Proof.
  induction l as [|y l IH]; intros Hin; [by apply elem_of_nil in Hin|].
  simpl. destruct (decide (y = x)) as [->|Hne].
  - by exists 0%nat.
  - apply elem_of_cons in Hin as [->|Hin]; [done|].
    destruct (IH Hin) as (i & -> & Hi). by exists (S i).
Qed.

Lemma index_of_Some (x : string) (l : list string) i :
  index_of x l = Some i → l !! i = Some x.
Proof.
  revert i. induction l as [|y l IH]; intros i; simpl; [done|].
  destruct (decide (y = x)) as [->|Hne].
  - by intros [= <-].
  - destruct (index_of x l) as [j|]; simpl; [|done]. intros [= <-]. simpl. by apply IH.
Qed.

Lemma has_required_elem names col :
  has_required names = true → col ∈ required_ppt_cols → col ∈ names.
Proof.
  unfold has_required. rewrite forallb_forall. intros H Hin.
  apply list_elem_of_In in Hin. specialize (H col Hin). by apply bool_decide_eq_true in H.
Qed.

Lemma col_idx_lookup names col :
  has_required names = true → col ∈ required_ppt_cols →
  index_of col names = Some (col_idx names col) ∧ names !! col_idx names col = Some col.
Proof.
  intros H Hin. destruct (index_of_elem col names) as (i & Hi & Hl).
  { by eapply has_required_elem. }
  unfold col_idx. rewrite Hi. done.
Qed.

Lemma idx_map_lookup names col :
  col ∈ required_ppt_cols → idx_map names !! col = Some (col_idx names col).
Proof.
  intros Hin.
  assert (idx_map names
          = <["AI Tool" := col_idx names "AI Tool"]>
              (<["Tool Description" := col_idx names "Tool Description"]>
                (<["Requestor" := col_idx names "Requestor"]>
                  (<["Current State" := col_idx names "Current State"]> ∅)))) as ->
    by reflexivity.
  unfold required_ppt_cols in Hin.
  repeat (apply elem_of_cons in Hin as [->|Hin];
          [by repeat (rewrite lookup_insert_eq || rewrite lookup_insert_ne by done)|]).
  by apply elem_of_nil in Hin.
Qed.

Lemma thi_readable (t : Table) (M : nat) hdr body :
  len_columns t = Some M → 0 < M → rows t = hdr :: body → length hdr = M →
  _table_headers_and_indices t = Some (classify ((λ cl, strip (text cl)) <$> hdr)).
Proof.
  intros Hc HM Hrows Hlen. unfold _table_headers_and_indices. rewrite Hc, Hrows.
  cbn -[forallb mapM list_to_map].
  assert ((M =? 0)%nat = false) as -> by (apply Nat.eqb_neq; lia).
  rewrite (header_names_row t M hdr body Hrows Hlen). cbn -[forallb mapM list_to_map].
  set (names := (λ cl, strip (text cl)) <$> hdr).
  unfold classify. fold (has_required names).
  destruct (has_required names) eqn:Hreq; [|done].
  assert (mapM (λ col, i ← index_of col names; Some (col, i)) required_ppt_cols
          = Some ((λ col, (col, col_idx names col)) <$> required_ppt_cols)) as ->; [|done].
  apply mapM_Some. apply Forall2_fmap_r. apply Forall_Forall2_diag.
  apply Forall_forall. intros col Hin.
  destruct (col_idx_lookup names col Hreq Hin) as [-> _]. done.
Qed.


(** ** Well-formed tables *)

Lemma thi_wf (t : Table) : wf_table t → _table_headers_and_indices t = Some (verdict t).
Proof.
  intros Hwf. unfold verdict.
  destruct (len_columns t) as [M|] eqn:Hc; [|by unfold _table_headers_and_indices; rewrite Hc].
  destruct (rows t) as [|hdr body] eqn:Hrows.
  { unfold _table_headers_and_indices. rewrite Hc, Hrows. by destruct M. }
  destruct M as [|M'].
  { unfold _table_headers_and_indices. rewrite Hc, Hrows. done. }
  apply (thi_readable t (S M') hdr body); [done|lia|done|].
  specialize (Hwf _ Hc). rewrite Hrows in Hwf. by apply Forall_cons in Hwf as [? _].
Qed.

(** ** The Row Synchronizer on one table *)

Lemma insert_as_alter {A : Type} (f : A → A) (l : list A) (c : nat) (x : A) :
  l !! c = Some x → <[c := f x]> l = alter f c l.
Proof.
  revert c. induction l as [|y l IH]; intros [|c]; simpl; try done.
  - by intros [= ->].
  - intros H. f_equal. by apply IH.
Qed.

Lemma write_cell_alter (t : Table) (r c : nat) (f : Cell → Cell) (row : list Cell) :
  rows t !! r = Some row → c < length row →
  write_cell t r c f
  = Some {| columns := columns t; rows := <[r := alter f c row]> (rows t) |}.
Proof.
  intros Hr Hc. unfold write_cell. rewrite Hr. simpl.
  destruct (lookup_lt_is_Some_2 row c Hc) as [cl Hcl]. rewrite Hcl. simpl.
  by rewrite (insert_as_alter f row c cl Hcl).
Qed.

Lemma update_field_alter (t : Table) (r c : nat) (v : string) (row : list Cell) (cl : Cell) :
  rows t !! r = Some row → row !! c = Some cl →
  update_field t r c v
  = Some ({| columns := columns t; rows := <[r := alter (sync_cell v) c row]> (rows t) |},
          changed v cl).
Proof.
  intros Hr Hc. unfold update_field, cell. rewrite Hr. simpl. rewrite Hc. simpl.
  unfold changed. destruct (decide (strip (text cl) = v)) as [E|E].
  - f_equal. f_equal. destruct t as [cs rs]. simpl in *. f_equal.
    rewrite <- (insert_as_alter _ row c cl Hc). unfold sync_cell.
    rewrite decide_True by done. rewrite (list_insert_id row c cl Hc).
    by rewrite list_insert_id.
  - rewrite (write_cell_alter t r c _ row Hr) by (by eapply lookup_lt_Some). simpl.
    f_equal. f_equal. f_equal. f_equal.
    rewrite <- !(insert_as_alter _ row c cl Hc). f_equal.
    unfold sync_cell. by rewrite decide_False by done.
Qed.

Lemma update_row_alter (t : Table) (r : nat) (ci : gmap string nat) (k : Cols)
    (excel_row : ExcelRow) (row : list Cell) :
  maps_cols ci k → cols_ok k (length row) → rows t !! r = Some row →
  update_row t r ci (c_tool k) excel_row
  = Some ({| columns := columns t; rows := <[r := sync_row k excel_row row]> (rows t) |},
          changed_row k excel_row row).
Proof.
  intros (Ha & Hd & Hq & Hs) (La & Ld & Lq & Ls & Nad & Naq & Nas & Ndq & Nds & Nqs) Hr.
  unfold update_row. rewrite Hd. simpl.
  destruct (lookup_lt_is_Some_2 row _ Ld) as [cd Hcd].
  destruct (lookup_lt_is_Some_2 row _ Lq) as [cq Hcq].
  destruct (lookup_lt_is_Some_2 row _ Ls) as [cs Hcs].
  rewrite (update_field_alter t r _ _ row cd Hr Hcd). simpl. rewrite Hq. simpl.
  set (row1 := alter (sync_cell (strip (Service_Use_Case excel_row))) (c_desc k) row).
  assert (row1 !! c_req k = Some cq) as Hcq1.
  { unfold row1. by rewrite list_lookup_alter_ne. }
  erewrite (update_field_alter _ r _ _ row1 cq); [| |exact Hcq1]; cycle 1.
  { simpl. apply list_lookup_insert_eq. by eapply lookup_lt_Some. }
  simpl. rewrite Hs. simpl. rewrite list_insert_insert_eq.
  set (row2 := alter (sync_cell (strip (Requestor excel_row))) (c_req k) row1).
  assert (row2 !! c_status k = Some cs) as Hcs2.
  { unfold row2, row1. by rewrite !list_lookup_alter_ne. }
  erewrite (update_field_alter _ r _ _ row2 cs); [| |exact Hcs2]; cycle 1.
  { simpl. apply list_lookup_insert_eq. by eapply lookup_lt_Some. }
  simpl. rewrite list_insert_insert_eq.
  set (row3 := alter (sync_cell (strip (Status excel_row))) (c_status k) row2).
  erewrite (write_cell_alter _ r _ _ row3); cycle 1.
  { simpl. apply list_lookup_insert_eq. by eapply lookup_lt_Some. }
  { unfold row3, row2, row1. by rewrite !length_alter. }
  simpl. rewrite list_insert_insert_eq. f_equal. f_equal.
  unfold changed_row, cell_or_blank. by rewrite Hcd, Hcq, Hcs.
Qed.

Lemma scan_rows_list (t : Table) (ci : gmap string nat) (k : Cols) (excel_row : ExcelRow)
    (tool_name : string) (M : nat) (body pre : list (list Cell)) :
  maps_cols ci k → cols_ok k M →
  rows t = pre ++ body → Forall (λ row, length row = M) body →
  scan_rows t ci (c_tool k) excel_row tool_name (seq (length pre) (length body))
  = Some ({| columns := columns t;
             rows := pre ++ (sync_first k excel_row tool_name body).1 |},
          (sync_first k excel_row tool_name body).2).
Proof.
  intros Hmap Hok. revert pre. induction body as [|row rest IH]; intros pre Hrows Hall.
  - simpl. rewrite <- Hrows. by destruct t.
  - apply Forall_cons in Hall as [Hlen Hall].
    assert (rows t !! length pre = Some row) as Hr.
    { rewrite Hrows, lookup_app_r by lia. by rewrite Nat.sub_diag. }
    assert (c_tool k < length row) as Hai by (rewrite Hlen; apply Hok).
    destruct (lookup_lt_is_Some_2 row _ Hai) as [cl Hcl].
    assert (row_matches k tool_name row ↔ lower (strip (text cl)) = lower tool_name) as Hm.
    { unfold row_matches, cell_or_blank. by rewrite Hcl. }
    cbn [length seq scan_rows sync_first]. unfold cell. rewrite Hr. simpl. rewrite Hcl. simpl.
    destruct (decide (lower (strip (text cl)) = lower tool_name)) as [E|E].
    all: [> rewrite (decide_True (P := row_matches k tool_name row)) by (by apply Hm)
          | rewrite (decide_False (P := row_matches k tool_name row)) by (by rewrite Hm) ].
    + rewrite (update_row_alter t (length pre) ci k excel_row row Hmap) by (by rewrite ?Hlen).
      simpl. do 3 f_equal. rewrite Hrows.
      rewrite insert_app_r_alt by lia. by rewrite Nat.sub_diag.
    + specialize (IH (pre ++ [row])). rewrite length_app in IH. simpl in IH.
      rewrite Nat.add_1_r in IH. rewrite IH; [| by rewrite <- app_assoc | done].
      destruct (sync_first k excel_row tool_name rest) as [rest' f]. simpl.
      by rewrite <- app_assoc.
Qed.

(** ** Qualifying tables and their entries *)

Lemma col_idx_bound names col :
  has_required names = true → col ∈ required_ppt_cols → col_idx names col < length names.
Proof.
  intros H Hin. destruct (col_idx_lookup names col H Hin) as [_ Hl].
  by eapply lookup_lt_Some.
Qed.

Lemma col_idx_inj names col1 col2 :
  has_required names = true → col1 ∈ required_ppt_cols → col2 ∈ required_ppt_cols →
  col1 ≠ col2 → col_idx names col1 ≠ col_idx names col2.
Proof.
  intros H H1 H2 Hne E.
  destruct (col_idx_lookup names col1 H H1) as [_ Hl1].
  destruct (col_idx_lookup names col2 H H2) as [_ Hl2].
  rewrite E in Hl1. congruence.
Qed.

Lemma required_elems :
  "AI Tool" ∈ required_ppt_cols ∧ "Tool Description" ∈ required_ppt_cols
  ∧ "Requestor" ∈ required_ppt_cols ∧ "Current State" ∈ required_ppt_cols.
Proof. unfold required_ppt_cols. repeat split; set_solver. Qed.

Lemma cols_of_ok names :
  has_required names = true → cols_ok (cols_of names) (length names).
Proof.
  intros H. destruct required_elems as (Ha & Hd & Hq & Hs).
  unfold cols_ok, cols_of. simpl.
  repeat split; try (by apply col_idx_bound); by apply col_idx_inj.
Qed.

Lemma cols_of_maps names : maps_cols (idx_map names) (cols_of names).
Proof.
  destruct required_elems as (Ha & Hd & Hq & Hs).
  unfold maps_cols, cols_of. simpl. repeat split; by apply idx_map_lookup.
Qed.

(** What a verdict of "qualifying" says about a well-formed table. *)
Lemma verdict_Some (t : Table) names ci :
  wf_table t → verdict t = Some (names, ci) →
  ∃ M hdr body,
    len_columns t = Some M ∧ 0 < M ∧ rows t = hdr :: body
    ∧ Forall (λ row, length row = M) (rows t)
    ∧ names = (λ cl, strip (text cl)) <$> hdr ∧ length names = M
    ∧ ci = idx_map names ∧ has_required names = true.
Proof.
  intros Hwf Hv. unfold verdict in Hv.
  destruct (len_columns t) as [[|M']|] eqn:Hc; try done.
  destruct (rows t) as [|hdr body] eqn:Hrows; [done|].
  unfold classify in Hv.
  destruct (has_required _) eqn:Hreq; [|done]. injection Hv as <- <-.
  specialize (Hwf _ Hc). rewrite Hrows in Hwf.
  exists (S M'), hdr, body. repeat split; try done; try lia.
  rewrite length_fmap. by apply Forall_cons in Hwf as [? _].
Qed.

Lemma text_sync_cell v cl : text (sync_cell v cl) = sync_text v (text cl).
Proof. unfold sync_cell, sync_text. by destruct (decide _). Qed.

Lemma changed_differs v cl : changed v cl = differs v (text cl).
Proof. done. Qed.

Lemma cell_or_blank_alter_ne (f : Cell → Cell) row c c' :
  c ≠ c' → cell_or_blank (alter f c row) c' = cell_or_blank row c'.
Proof. intros Hne. unfold cell_or_blank. by rewrite list_lookup_alter_ne. Qed.

Lemma cell_or_blank_alter_eq (f : Cell → Cell) row c :
  c < length row → cell_or_blank (alter f c row) c = f (cell_or_blank row c).
Proof.
  intros Hlt. unfold cell_or_blank. rewrite list_lookup_alter_eq.
  destruct (lookup_lt_is_Some_2 row c Hlt) as [x ->]. done.
Qed.

Lemma entry_of_sync_row k excel_row row :
  cols_ok k (length row) →
  entry_of k (sync_row k excel_row row) = sync_entry excel_row (entry_of k row).
Proof.
  intros (La & Ld & Lq & Ls & Nad & Naq & Nas & Ndq & Nds & Nqs).
  unfold entry_of, sync_row, sync_entry. simpl.
  repeat ((rewrite cell_or_blank_alter_ne by lia)
          || (rewrite cell_or_blank_alter_eq by (rewrite ?length_alter; lia))).
  by rewrite !text_sync_cell.
Qed.

Lemma sync_first_entries k excel_row tool_name M body :
  cols_ok k M → Forall (λ row, length row = M) body →
  (entry_of k <$> (sync_first k excel_row tool_name body).1,
   (sync_first k excel_row tool_name body).2)
  = update_first excel_row tool_name (entry_of k <$> body).
Proof.
  intros Hok. induction body as [|row rest IH]; intros Hall; [done|].
  apply Forall_cons in Hall as [Hlen Hall]. specialize (IH Hall).
  cbn [sync_first update_first fmap list_fmap].
  assert (row_matches k tool_name row ↔ entry_matches tool_name (entry_of k row)) as Hm by done.
  destruct (decide (row_matches k tool_name row)) as [E|E].
  - rewrite decide_True by (by apply Hm). simpl.
    rewrite entry_of_sync_row by (by rewrite Hlen). done.
  - rewrite decide_False by (by rewrite <- Hm).
    destruct (sync_first k excel_row tool_name rest) as [rest' f].
    destruct (update_first excel_row tool_name (entry_of k <$> rest)) as [es' f'].
    simpl in *. injection IH as <- <-. done.
Qed.

Lemma sync_first_lengths k excel_row tool_name body :
  (λ row : list Cell, length row) <$> (sync_first k excel_row tool_name body).1
  = (λ row : list Cell, length row) <$> body.
Proof.
  induction body as [|row rest IH]; [done|]. simpl.
  destruct (decide (row_matches k tool_name row)).
  - simpl. unfold sync_row. by rewrite !length_alter.
  - destruct (sync_first k excel_row tool_name rest) as [rest' f]. simpl in *. by f_equal.
Qed.

Lemma sync_first_None k excel_row tool_name body :
  (sync_first k excel_row tool_name body).2 = None →
  (sync_first k excel_row tool_name body).1 = body.
Proof.
  induction body as [|row rest IH]; [done|]. simpl.
  destruct (decide (row_matches k tool_name row)); [done|].
  destruct (sync_first k excel_row tool_name rest) as [rest' f]. simpl in *.
  intros ->. by rewrite IH.
Qed.

(** ** One qualifying frame in the shape loop *)

Lemma style_header_spec (t : Table) (M : nat) hdr body :
  len_columns t = Some M → rows t = hdr :: body → length hdr = M →
  style_header t = Some (header_styled t).
Proof.
  intros Hc Hrows Hlen. unfold style_header. rewrite Hc. simpl.
  destruct (for_in_seq_ind
    (λ c t, write_cell t 0 c (λ cl, set_cell_style cl true))
    (λ c t', columns t' = columns t ∧
             rows t' = (((λ cl, set_cell_style cl true) <$> take c hdr) ++ drop c hdr) :: body)
    M t) as (t' & Hrun & Hc' & Hr').
  - split; [done|]. by rewrite take_0, drop_0.
  - intros c s Hlt [Hcs Hrs].
    assert (c < length hdr) as Hlt' by lia.
    destruct (lookup_lt_is_Some_2 hdr c Hlt') as [cl Hcl].
    unfold write_cell. rewrite Hrs. simpl.
    assert (length ((λ cl, set_cell_style cl true) <$> take c hdr) = c) as Hl.
    { rewrite length_fmap, length_take. lia. }
    rewrite lookup_app_r by lia. rewrite Hl, Nat.sub_diag.
    rewrite (drop_S hdr cl c Hcl). simpl.
    eexists. split; [done|]. simpl. split; [done|]. f_equal.
    rewrite <- (drop_S hdr cl c Hcl).
    rewrite (insert_take_drop_step (λ cl, set_cell_style cl true) hdr hdr c cl) by done.
    rewrite (take_S_r hdr c cl Hcl), fmap_app. simpl. by rewrite <- app_assoc.
  - rewrite Hrun. f_equal. unfold header_styled. rewrite Hrows.
    destruct t' as [c' r']. simpl in *. subst c' r'. f_equal. f_equal.
    rewrite <- Hlen. rewrite firstn_all, drop_all. by rewrite app_nil_r.
Qed.

Lemma scan_shapes_qualifying excel_row tool_name slide_idx j g (t : Table) rest tgt names ci :
  wf_table t → verdict t = Some (names, ci) →
  scan_shapes excel_row tool_name slide_idx j (GraphicFrame g t :: rest) tgt
  = let t1 := seen_table tgt t in
    let tgt1 := seen_target tgt slide_idx j in
    let res := sync_first (cols_of names) excel_row tool_name (tail (rows t1)) in
    match res.2 with
    | Some n =>
        Some (GraphicFrame g {| columns := columns t; rows := hd [] (rows t1) :: res.1 |} :: rest,
              tgt1, Some n)
    | None =>
        '(rest', tgt', found) ← scan_shapes excel_row tool_name slide_idx (S j) rest tgt1;
        Some (GraphicFrame g t1 :: rest', tgt', found)
    end.
Proof.
  intros Hwf Hv.
  destruct (verdict_Some t names ci Hwf Hv)
    as (M & hdr & body & Hc & HM & Hrows & Hall & Hnames & Hlen & -> & Hreq).
  cbn [scan_shapes]. rewrite (thi_wf t Hwf), Hv. cbn [mbind option_bind].
  pose proof Hall as Hall'. rewrite Hrows in Hall'. apply Forall_cons in Hall' as [Hh Hb].
  assert (style_header t = Some (header_styled t)) as Hsty
    by (by eapply style_header_spec).
  set (t1 := seen_table tgt t). set (tgt1 := seen_target tgt slide_idx j).
  assert (match tgt with
          | None => table1 ← style_header t; Some (table1, Some (first_target slide_idx j))
          | Some _ => Some (t, tgt)
          end = Some (t1, tgt1)) as Hpre.
  { unfold t1, tgt1. destruct tgt; [done|]. simpl. by rewrite Hsty. }
  unfold first_target in Hpre. rewrite Hpre. cbn [mbind option_bind].
  destruct (cols_of_maps names) as (Ha & _). rewrite Ha.
  assert (∃ hdr1, rows t1 = hdr1 :: body ∧ columns t1 = columns t) as (hdr1 & Hrows1 & Hc1).
  { unfold t1. destruct tgt; simpl.
    - by exists hdr.
    - unfold header_styled. rewrite Hrows. simpl. by eexists. }
  rewrite Hrows1. simpl length. replace (S (length body) - 1) with (length body) by lia.
  pose proof (scan_rows_list t1 (idx_map names) (cols_of names) excel_row tool_name M body
                [hdr1] (cols_of_maps names)) as Hscan.
  change (length [hdr1]) with 1%nat in Hscan.
  rewrite Hscan; [| rewrite <- Hlen; by apply cols_of_ok | done | done].
  cbn [mbind option_bind]. simpl tail. simpl hd.
  destruct (sync_first (cols_of names) excel_row tool_name body) as [body' found] eqn:Hsf.
  simpl. destruct found as [n|].
  - by rewrite Hc1.
  - assert (body' = body) as ->.
    { pose proof (sync_first_None (cols_of names) excel_row tool_name body) as Hn.
      rewrite Hsf in Hn. by apply Hn. }
    replace {| columns := columns t1; rows := hdr1 :: body |} with t1; [done|].
    destruct t1 as [c1 r1]. simpl in *. by subst.
Qed.

(** ** Matching and updating a row *)




Example alpha_matches_Alpha : lower (strip " alpha ") = lower (strip "Alpha").
Proof. reflexivity. Qed.


(** ** The record loop and the final save *)

Lemma for_in_app {A S : Type} (l1 l2 : list A) (body : A → S → option S) (s : S) :
  for_in (l1 ++ l2) body s = s' ← for_in l1 body s; for_in l2 body s'.
Proof.
  revert s. induction l1 as [|x l1 IH]; intros s; simpl; [done|].
  destruct (body x s) as [s1|]; simpl; [|done]. apply IH.
Qed.

(** C5.  The save happens after the record loop and only there: a run
    that completes with a positive change count calls [save] exactly once,
    and the file then holds the presentation as it is after the last
    record; a run that completes with a zero change count, or that is
    aborted by an exception, never calls [save] and leaves the file as it
    was. *)
Theorem saved_once_iff_changed (excel_df : list ExcelRow) (ppt_file : Presentation)
    (add_missing_tools : bool) :
  let out := sync_excel_to_ppt excel_df ppt_file add_missing_tools in
  match final out with
  | Some (st, summary) =>
      for_in excel_df (process_row add_missing_tools) (initial_state ppt_file) = Some st
      ∧ sum_updates_made summary = updates_made st
      ∧ (0 < updates_made st → save_calls out = 1%nat ∧ ppt_file_after out = presentation st)
      ∧ (updates_made st = 0%nat → save_calls out = 0%nat ∧ ppt_file_after out = ppt_file)
  | None =>
      for_in excel_df (process_row add_missing_tools) (initial_state ppt_file) = None
      ∧ save_calls out = 0%nat ∧ ppt_file_after out = ppt_file
  end.
Proof.
  unfold sync_excel_to_ppt.
  destruct (for_in excel_df (process_row add_missing_tools) (initial_state ppt_file))
    as [st|] eqn:Hrun; simpl; [|done].
  destruct (0 <? updates_made st)%nat eqn:Hpos; simpl.
  - apply Nat.ltb_lt in Hpos. repeat split; try done; lia.
  - apply Nat.ltb_ge in Hpos. repeat split; try done; lia.
Qed.

Lemma process_row_skip (add_missing_tools : bool) (excel_row : ExcelRow) (st : State) :
  strip (Tool excel_row) = "" → process_row add_missing_tools excel_row st = Some st.
Proof. intros Hempty. unfold process_row. by rewrite Hempty. Qed.

(** C7 (as the code has it).  A record whose key is empty after trimming
    is skipped by the loop: the state (document, cached target and the
    three counters [updates_made], [rows_added] and
    [not_found_before_adding]) is returned as it was, so a run with the
    record in the dataset ends in the same state, makes the same save and
    leaves the same file as the run without it.  The summary differs in one
    place: "Total tools processed" is the size of the dataset, and does
    count the skipped record. *)
Theorem empty_key_is_skipped (add_missing_tools : bool) (excel_row : ExcelRow)
    (before after : list ExcelRow) (ppt_file : Presentation) :
  strip (Tool excel_row) = "" →
  (∀ st, process_row add_missing_tools excel_row st = Some st)
  ∧ let out := sync_excel_to_ppt (before ++ excel_row :: after) ppt_file add_missing_tools in
    let out' := sync_excel_to_ppt (before ++ after) ppt_file add_missing_tools in
    ppt_file_after out = ppt_file_after out'
    ∧ save_calls out = save_calls out'
    ∧ (fst <$> final out) = (fst <$> final out')
    ∧ ((λ p, sum_updates_made (snd p)) <$> final out)
      = ((λ p, sum_updates_made (snd p)) <$> final out')
    ∧ ((λ p, sum_rows_added (snd p)) <$> final out)
      = ((λ p, sum_rows_added (snd p)) <$> final out')
    ∧ ((λ p, sum_not_found (snd p)) <$> final out)
      = ((λ p, sum_not_found (snd p)) <$> final out')
    ∧ ((λ p, total_tools_processed (snd p)) <$> final out)
      = ((λ p, S (total_tools_processed (snd p))) <$> final out').
Proof.
  intros Hempty.
  assert (∀ st, process_row add_missing_tools excel_row st = Some st) as Hskip.
  { intros st. by apply process_row_skip. }
  split; [done|]. simpl. unfold sync_excel_to_ppt.
  rewrite !for_in_app. simpl.
  destruct (for_in before (process_row add_missing_tools) (initial_state ppt_file))
    as [st0|]; simpl; [|done].
  rewrite Hskip. simpl.
  destruct (for_in after (process_row add_missing_tools) st0) as [st|]; simpl; [|done].
  destruct (0 <? updates_made st)%nat; simpl; repeat split; try done.
  all: rewrite !length_app; simpl; f_equal; lia.
Qed.

(** ** The search of one record over the whole document *)

Lemma tbl_skel_rows t t' :
  tbl_skel t = tbl_skel t' → length (rows t) = length (rows t').
Proof.
  unfold tbl_skel. intros [= _ H _].
  apply (f_equal length) in H. by rewrite !length_fmap in H.
Qed.

Lemma tbl_skel_wf t t' : tbl_skel t = tbl_skel t' → wf_table t → wf_table t'.
Proof.
  unfold tbl_skel, wf_table, len_columns. intros [= Hc Hl _] Hwf M HM.
  rewrite <- Hc in HM. specialize (Hwf M HM).
  assert (Forall (λ n, n = M) ((λ row : list Cell, length row) <$> rows t)) as H
    by (apply Forall_fmap; exact Hwf).
  rewrite Hl in H. apply Forall_fmap in H. exact H.
Qed.

Lemma tbl_skel_verdict t t' : tbl_skel t = tbl_skel t' → verdict t = verdict t'.
Proof.
  unfold tbl_skel, verdict, len_columns. intros [= Hc Hl Hh]. rewrite Hc.
  destruct (columns t') as [ws|]; simpl; [|done].
  destruct (length ws); [done|].
  destruct (rows t) as [|hdr body], (rows t') as [|hdr' body']; simpl in *; try done.
  f_equal. rewrite !(list_fmap_compose text strip). by rewrite Hh.
Qed.

Lemma header_styled_skel t : tbl_skel (header_styled t) = tbl_skel t.
Proof.
  unfold tbl_skel, header_styled. simpl. destruct (rows t) as [|hdr body]; [done|].
  simpl. f_equal; [f_equal|].
  - f_equal. by rewrite length_fmap.
  - rewrite <- list_fmap_compose. by apply list_fmap_ext.
Qed.

Lemma header_styled_text t : text_grid (header_styled t) = text_grid t.
Proof.
  unfold text_grid, header_styled. simpl. destruct (rows t) as [|hdr body]; [done|].
  simpl. f_equal. rewrite <- list_fmap_compose. by apply list_fmap_ext.
Qed.

Lemma header_styled_tail t : tail (rows (header_styled t)) = tail (rows t).
Proof. unfold header_styled. simpl. by destruct (rows t). Qed.

Lemma seen_table_skel tgt t : tbl_skel (seen_table tgt t) = tbl_skel t.
Proof. destruct tgt; [done|]. apply header_styled_skel. Qed.

Lemma seen_table_text tgt t : text_grid (seen_table tgt t) = text_grid t.
Proof. destruct tgt; [done|]. apply header_styled_text. Qed.

Lemma seen_table_columns tgt t : columns (seen_table tgt t) = columns t.
Proof. by destruct tgt. Qed.

Lemma seen_table_tail tgt t : tail (rows (seen_table tgt t)) = tail (rows t).
Proof. destruct tgt; [done|]. apply header_styled_tail. Qed.

Lemma table_entries_skel t t' :
  tbl_skel t = tbl_skel t' → tail (rows t) = tail (rows t') →
  table_entries t = table_entries t'.
Proof.
  intros Hs Ht. unfold table_entries. rewrite (tbl_skel_verdict t t' Hs).
  destruct (verdict t') as [[names ci]|]; [|done]. by rewrite Ht.
Qed.

Lemma update_first_app excel_row tool_name es1 es2 :
  update_first excel_row tool_name (es1 ++ es2)
  = match (update_first excel_row tool_name es1).2 with
    | Some n => ((update_first excel_row tool_name es1).1 ++ es2, Some n)
    | None => (es1 ++ (update_first excel_row tool_name es2).1,
               (update_first excel_row tool_name es2).2)
    end.
Proof.
  induction es1 as [|e es1 IH]; simpl.
  - by destruct (update_first excel_row tool_name es2).
  - destruct (decide (entry_matches tool_name e)); [done|].
    rewrite IH. destruct (update_first excel_row tool_name es1) as [es1' [m|]]; simpl; [done|].
    by destruct (update_first excel_row tool_name es2).
Qed.

Lemma update_first_None excel_row tool_name es :
  (update_first excel_row tool_name es).2 = None →
  (update_first excel_row tool_name es).1 = es.
Proof.
  induction es as [|e rest IH]; [done|]. simpl.
  destruct (decide (entry_matches tool_name e)); [done|].
  destruct (update_first excel_row tool_name rest) as [rest' f]. simpl in *.
  intros ->. by rewrite IH.
Qed.

Lemma sync_cell_same v cl : changed v cl = 0%nat → sync_cell v cl = cl.
Proof. unfold changed, sync_cell. by destruct (decide _). Qed.

Lemma alter_fixed {A : Type} (f : A → A) (l : list A) (c : nat) :
  (∀ x, l !! c = Some x → f x = x) → alter f c l = l.
Proof.
  intros H. destruct (l !! c) as [x|] eqn:Hx.
  - rewrite <- (insert_as_alter f l c x Hx), (H x eq_refl). by apply list_insert_id.
  - revert c Hx H. induction l as [|y l IH]; intros [|c] Hx H; simpl in *; try done.
    f_equal. by apply IH.
Qed.

Lemma sync_row_texts k excel_row row :
  cols_ok k (length row) → changed_row k excel_row row = 0%nat →
  text <$> sync_row k excel_row row = text <$> row.
Proof.
  intros (La & Ld & Lq & Ls & Nad & Naq & Nas & Ndq & Nds & Nqs) Hch.
  unfold changed_row, cell_or_blank in Hch. unfold sync_row.
  destruct (lookup_lt_is_Some_2 row _ Ld) as [cd Hcd].
  destruct (lookup_lt_is_Some_2 row _ Lq) as [cq Hcq].
  destruct (lookup_lt_is_Some_2 row _ Ls) as [cs Hcs].
  rewrite Hcd, Hcq, Hcs in Hch. simpl in Hch.
  rewrite (alter_fixed _ row (c_desc k)); cycle 1.
  { intros x Hx. apply sync_cell_same. rewrite Hcd in Hx. injection Hx as <-. lia. }
  rewrite (alter_fixed _ row (c_req k)); cycle 1.
  { intros x Hx. apply sync_cell_same. rewrite Hcq in Hx. injection Hx as <-. lia. }
  rewrite (alter_fixed _ row (c_status k)); cycle 1.
  { intros x Hx. apply sync_cell_same. rewrite Hcs in Hx. injection Hx as <-. lia. }
  rewrite (list_fmap_alter text (λ cl, set_cell_style cl false) id); [|apply Forall_true; done].
  by rewrite list_alter_id.
Qed.

Lemma sync_first_texts k excel_row tool_name M body :
  cols_ok k M → Forall (λ row, length row = M) body →
  (sync_first k excel_row tool_name body).2 = Some 0%nat →
  (λ row : list Cell, text <$> row) <$> (sync_first k excel_row tool_name body).1
  = (λ row : list Cell, text <$> row) <$> body.
Proof.
  intros Hok. induction body as [|row rest IH]; intros Hall; [done|].
  apply Forall_cons in Hall as [Hlen Hall]. simpl.
  destruct (decide (row_matches k tool_name row)); simpl.
  - intros [= Hch]. f_equal. apply sync_row_texts; [by rewrite Hlen|done].
  - destruct (sync_first k excel_row tool_name rest) as [rest' f]. simpl in *.
    intros ->. f_equal. by apply IH.
Qed.

Lemma synced_table_facts (t : Table) names ci tgt excel_row tool_name :
  wf_table t → verdict t = Some (names, ci) →
  let res := sync_first (cols_of names) excel_row tool_name (tail (rows (seen_table tgt t))) in
  let t2 := synced_table tgt names excel_row tool_name t in
  tbl_skel t2 = tbl_skel t
  ∧ (table_entries t2, res.2) = update_first excel_row tool_name (table_entries t)
  ∧ (res.2 = Some 0%nat → text_grid t2 = text_grid t)
  ∧ (res.2 = None → t2 = seen_table tgt t).
Proof.
  intros Hwf Hv res t2.
  destruct (verdict_Some t names ci Hwf Hv)
    as (M & hdr & body & Hc & HM & Hrows & Hall & Hnames & Hlen & -> & Hreq).
  pose proof (cols_of_ok names Hreq) as Hok. rewrite Hlen in Hok.
  pose proof Hall as Hall'. rewrite Hrows in Hall'. apply Forall_cons in Hall' as [Hh Hb].
  assert (tail (rows (seen_table tgt t)) = body) as Htl.
  { rewrite seen_table_tail, Hrows. done. }
  assert (∃ hdr1, rows (seen_table tgt t) = hdr1 :: body ∧ length hdr1 = length hdr
                  ∧ text <$> hdr1 = text <$> hdr) as (hdr1 & Hrows1 & Hl1 & Ht1).
  { pose proof (seen_table_skel tgt t) as Hs. unfold tbl_skel in Hs.
    destruct (rows (seen_table tgt t)) as [|hdr1 body1] eqn:E.
    - rewrite Hrows in Hs. simpl in Hs. by injection Hs.
    - simpl in Htl. subst body1. exists hdr1. rewrite Hrows in Hs. simpl in Hs.
      pose proof (f_equal (λ x, x.1.2) Hs) as Hsl.
      pose proof (f_equal (λ x, x.2) Hs) as Hst. simpl in Hsl, Hst.
      injection Hsl as Hsl. done. }
  assert (columns (seen_table tgt t) = columns t) as Hc1.
  { pose proof (seen_table_skel tgt t) as Hs. unfold tbl_skel in Hs. by injection Hs. }
  subst res t2. unfold synced_table. rewrite Htl, Hrows1. simpl hd.
  assert (tbl_skel {| columns := columns t;
                      rows := hdr1 :: (sync_first (cols_of names) excel_row tool_name body).1 |}
          = tbl_skel t) as Hskel.
  { unfold tbl_skel. simpl. rewrite Hrows. simpl. rewrite Hl1, Ht1. do 3 f_equal.
    apply sync_first_lengths. }
  split; [done|]. split; [|split].
  - unfold table_entries. rewrite (tbl_skel_verdict _ _ Hskel), Hv. simpl. rewrite Hrows. simpl.
    by apply (sync_first_entries _ _ _ M).
  - intros H0. unfold text_grid. simpl. rewrite Hrows. simpl. f_equal; [done|].
    by apply (sync_first_texts _ _ _ M).
  - intros Hnone. rewrite (sync_first_None _ _ _ _ Hnone).
    rewrite <- Hc1, <- Hrows1. by destruct (seen_table tgt t).
Qed.

Lemma shapes_entries_cons sh rest :
  shapes_entries (sh :: rest) = shape_entries sh ++ shapes_entries rest.
Proof. done. Qed.

Lemma scan_shapes_spec excel_row tool_name slide_idx (shs : list Shape) :
  Forall wf_shape shs → ∀ j tgt,
  ∃ shs',
    scan_shapes excel_row tool_name slide_idx j shs tgt
    = Some (shs', new_target tgt (first_target slide_idx <$> first_qual_shape j shs),
            (update_first excel_row tool_name (shapes_entries shs)).2)
    ∧ shapes_entries shs' = (update_first excel_row tool_name (shapes_entries shs)).1
    ∧ shape_skel <$> shs' = shape_skel <$> shs
    ∧ (unchanged_count (update_first excel_row tool_name (shapes_entries shs)).2 →
       shape_text <$> shs' = shape_text <$> shs).
Proof.
  induction 1 as [|sh rest Hsh Hrest IH]; intros j tgt.
  { exists []. simpl. by destruct tgt. }
  destruct sh as [tag|g t].
  - destruct (IH (S j) tgt) as (rest' & Hrun & He & Hs & Ht).
    exists (OtherShape tag :: rest'). cbn [scan_shapes]. rewrite Hrun.
    rewrite !shapes_entries_cons. simpl.
    split; [done|]. split; [done|]. split; [by f_equal|]. intros Hu. f_equal. by apply Ht.
  - simpl in Hsh. destruct (verdict t) as [[names ci]|] eqn:Hv.
    + rewrite (scan_shapes_qualifying _ _ _ _ _ t rest tgt names ci Hsh Hv). cbn zeta.
      destruct (synced_table_facts t names ci tgt excel_row tool_name Hsh Hv)
        as (Hskel & Hent & Htxt & Hnone).
      rewrite (shapes_entries_cons (GraphicFrame g t) rest). cbn [shape_entries].
      rewrite update_first_app.
      cbn [first_qual_shape]. rewrite Hv.
      destruct (update_first excel_row tool_name (table_entries t)) as [es' f] eqn:Hup.
      injection Hent as Hent1 Hent2. rewrite Hent2. cbn [fst snd].
      destruct f as [n|].
      * exists (GraphicFrame g (synced_table tgt names excel_row tool_name t) :: rest).
        split. { by destruct tgt. }
        split. { rewrite shapes_entries_cons. cbn [shape_entries fst]. by rewrite Hent1. }
        split. { cbn [fmap list_fmap shape_skel]. by rewrite Hskel. }
        intros [Hu|Hu]; [done|]. injection Hu as ->.
        cbn [fmap list_fmap shape_text]. by rewrite (Htxt Hent2).
      * destruct (IH (S j) (seen_target tgt slide_idx j)) as (rest' & Hrun & He & Hs & Ht).
        rewrite Hrun. cbn [mbind option_bind].
        exists (GraphicFrame g (seen_table tgt t) :: rest').
        split. { by destruct tgt. }
        split.
        { rewrite shapes_entries_cons. cbn [shape_entries fst]. rewrite He.
          f_equal. apply table_entries_skel; [apply seen_table_skel|by rewrite seen_table_tail]. }
        split. { cbn [fmap list_fmap shape_skel]. rewrite seen_table_skel. by f_equal. }
        intros Hu. cbn [fmap list_fmap shape_text].
        rewrite seen_table_text, seen_table_columns. f_equal. by apply Ht.
    + destruct (IH (S j) tgt) as (rest' & Hrun & He & Hs & Ht).
      exists (GraphicFrame g t :: rest'). cbn [scan_shapes].
      rewrite (thi_wf t Hsh), Hv. cbn [mbind option_bind]. rewrite Hrun.
      cbn [first_qual_shape]. rewrite Hv.
      rewrite !shapes_entries_cons. cbn [shape_entries]. unfold table_entries at 1 2 3 4.
      rewrite Hv. cbn [app].
      split; [done|]. split; [done|].
      split. { cbn [fmap list_fmap]. by f_equal. }
      intros Hu. cbn [fmap list_fmap]. f_equal. by apply Ht.
Qed.

Lemma first_qual_shape_None j shs :
  first_qual_shape j shs = None → shapes_entries shs = [].
Proof.
  revert j. induction shs as [|sh rest IH]; intros j; [done|].
  rewrite shapes_entries_cons. destruct sh as [tag|g t]; simpl.
  - apply IH.
  - unfold table_entries. destruct (verdict t); [done|]. simpl. apply IH.
Qed.

Lemma doc_entries_cons s rest :
  doc_entries (s :: rest) = shapes_entries (shapes s) ++ doc_entries rest.
Proof. done. Qed.

Lemma scan_slides_spec excel_row tool_name (pres : Presentation) :
  wf_pres pres → ∀ i tgt,
  ∃ pres',
    scan_slides excel_row tool_name i pres tgt
    = Some (pres', new_target tgt (first_qual_doc i pres),
            (update_first excel_row tool_name (doc_entries pres)).2)
    ∧ doc_entries pres' = (update_first excel_row tool_name (doc_entries pres)).1
    ∧ slide_skel <$> pres' = slide_skel <$> pres
    ∧ (unchanged_count (update_first excel_row tool_name (doc_entries pres)).2 →
       slide_text <$> pres' = slide_text <$> pres).
Proof.
  induction 1 as [|s rest Hs Hrest IH]; intros i tgt.
  { exists []. simpl. by destruct tgt. }
  destruct (scan_shapes_spec excel_row tool_name i (shapes s) Hs 0%nat tgt)
    as (shs' & Hrun & He & Hsk & Htx).
  cbn [scan_slides]. rewrite Hrun. cbn [mbind option_bind].
  rewrite doc_entries_cons, update_first_app. cbn [first_qual_doc].
  destruct (update_first excel_row tool_name (shapes_entries (shapes s))) as [es' f] eqn:Hup.
  cbn [fst snd] in *. destruct f as [n|].
  - exists ({| slide_layout := slide_layout s; shapes := shs' |} :: rest).
    split.
    { f_equal. f_equal. f_equal. destruct tgt; [done|]. simpl.
      destruct (first_qual_shape 0 (shapes s)) as [j|] eqn:Hq; [done|].
      apply first_qual_shape_None in Hq. rewrite Hq in Hup. done. }
    split. { rewrite doc_entries_cons. cbn [shapes fst snd]. rewrite He. reflexivity. }
    split. { cbn [fmap list_fmap]. unfold slide_skel at 1 3. cbn [shapes slide_layout]. by rewrite Hsk. }
    intros [Hu|Hu]; [done|]. injection Hu as ->.
    cbn [fmap list_fmap]. unfold slide_text at 1 3. cbn [shapes slide_layout].
    rewrite Htx; [done|by right].
  - destruct (IH (S i) (new_target tgt (first_target i <$> first_qual_shape 0 (shapes s))))
      as (rest' & Hrun' & He' & Hsk' & Htx').
    rewrite Hrun'. cbn [mbind option_bind].
    exists ({| slide_layout := slide_layout s; shapes := shs' |} :: rest').
    split.
    { f_equal. f_equal. f_equal. destruct tgt; [done|]. simpl.
      by destruct (first_qual_shape 0 (shapes s)). }
    split.
    { rewrite doc_entries_cons. cbn [shapes fst snd]. rewrite He, He'. f_equal.
      pose proof (update_first_None excel_row tool_name (shapes_entries (shapes s))) as Hn.
      rewrite Hup in Hn. by apply Hn. }
    split. { cbn [fmap list_fmap]. unfold slide_skel at 1 3. cbn [shapes slide_layout]. by rewrite Hsk, Hsk'. }
    intros Hu. cbn [fmap list_fmap]. unfold slide_text at 1 3. cbn [shapes slide_layout].
    rewrite Htx by (by left). by rewrite Htx'.
Qed.

(** ** What the skeleton of a document determines *)

Lemma fmap_eq_Forall2 {A B : Type} (f : A → B) (l l' : list A) :
  f <$> l' = f <$> l → Forall2 (λ x y, f x = f y) l' l.
Proof.
  revert l. induction l' as [|x l' IH]; intros [|y l] H; simpl in *; try discriminate.
  - constructor.
  - injection H as H1 H2. constructor; [done|]. by apply IH.
Qed.

Lemma frame_skel_inv g t g' t' :
  shape_skel (GraphicFrame g' t') = shape_skel (GraphicFrame g t) →
  g' = g ∧ tbl_skel t' = tbl_skel t.
Proof. cbn [shape_skel]. intros H. split; congruence. Qed.

Lemma slide_skel_inv s s' :
  slide_skel s' = slide_skel s →
  slide_layout s' = slide_layout s ∧ shape_skel <$> shapes s' = shape_skel <$> shapes s.
Proof. unfold slide_skel. intros H. split; congruence. Qed.

Lemma shape_skel_wf sh sh' : shape_skel sh' = shape_skel sh → wf_shape sh → wf_shape sh'.
Proof.
  destruct sh as [n|g t], sh' as [n'|g' t']; cbn [shape_skel wf_shape]; try done.
  intros [_ H]%frame_skel_inv Hwf. apply (tbl_skel_wf t t'); [by symmetry|done].
Qed.

Lemma shapes_skel_wf shs shs' :
  shape_skel <$> shs' = shape_skel <$> shs → Forall wf_shape shs → Forall wf_shape shs'.
Proof.
  intros H%fmap_eq_Forall2 Hwf. induction H as [|x y l' l Hxy H IH]; [constructor|].
  apply Forall_cons in Hwf as [Hy Hwf]. constructor; [by eapply shape_skel_wf|by apply IH].
Qed.

Lemma wf_pres_skel (pres pres' : Presentation) :
  slide_skel <$> pres' = slide_skel <$> pres → wf_pres pres → wf_pres pres'.
Proof.
  intros H%fmap_eq_Forall2 Hwf. unfold wf_pres in *.
  induction H as [|x y l' l Hxy H IH]; [constructor|].
  apply Forall_cons in Hwf as [Hy Hwf]. constructor; [|by apply IH].
  apply slide_skel_inv in Hxy as [_ Hxy]. by eapply shapes_skel_wf.
Qed.

Lemma first_qual_shape_skel shs shs' j :
  shape_skel <$> shs' = shape_skel <$> shs → first_qual_shape j shs' = first_qual_shape j shs.
Proof.
  intros H%fmap_eq_Forall2. revert j. induction H as [|x y l' l Hxy H IH]; intros j; [done|].
  destruct x as [n|g t], y as [n'|g' t']; try discriminate.
  - cbn [first_qual_shape]. apply IH.
  - apply frame_skel_inv in Hxy as [_ Hxy]. cbn [first_qual_shape].
    rewrite (tbl_skel_verdict _ _ Hxy).
    destruct (verdict t'); [done|]. apply IH.
Qed.

Lemma first_qual_doc_skel (pres pres' : Presentation) i :
  slide_skel <$> pres' = slide_skel <$> pres → first_qual_doc i pres' = first_qual_doc i pres.
Proof.
  intros H%fmap_eq_Forall2. revert i. induction H as [|x y l' l Hxy H IH]; intros i; [done|].
  simpl. apply slide_skel_inv in Hxy as [_ Hxy].
  rewrite (first_qual_shape_skel _ _ 0 Hxy).
  destruct (first_qual_shape 0 (shapes y)); [done|]. apply IH.
Qed.

Lemma lookup_fmap_eq {A B : Type} (f : A → B) (l l' : list A) i x :
  f <$> l' = f <$> l → l !! i = Some x → ∃ x', l' !! i = Some x' ∧ f x' = f x.
Proof.
  intros H Hx.
  assert ((f <$> l') !! i = Some (f x)) as Hx' by (by rewrite H, list_lookup_fmap, Hx).
  rewrite list_lookup_fmap in Hx'. destruct (l' !! i) as [x'|]; simpl in Hx'; [|done].
  exists x'. split; [done|]. congruence.
Qed.

Lemma qual_at_skel (pres pres' : Presentation) i j :
  slide_skel <$> pres' = slide_skel <$> pres → qual_at pres i j → qual_at pres' i j.
Proof.
  intros H (slide & g & t & Hs & Hsh & Hv).
  destruct (lookup_fmap_eq slide_skel pres pres' i slide H Hs) as (slide' & Hs' & Hsk).
  apply slide_skel_inv in Hsk as [_ Hsk].
  destruct (lookup_fmap_eq shape_skel _ _ j _ Hsk Hsh) as (sh' & Hsh' & Hsk').
  destruct sh' as [n|g' t']; [done|].
  apply frame_skel_inv in Hsk' as [-> Hsk'].
  exists slide', g, t'. split; [done|]. split; [done|].
  by rewrite (tbl_skel_verdict _ _ Hsk').
Qed.

Lemma target_ok_skel (pres pres' : Presentation) tg :
  slide_skel <$> pres' = slide_skel <$> pres → target_ok pres tg → target_ok pres' tg.
Proof.
  intros H [H1 (j & Hj & H2)]. split; [by eapply qual_at_skel|].
  exists j. split; [done|]. by eapply qual_at_skel.
Qed.

Lemma first_qual_shape_Some j0 shs j :
  first_qual_shape j0 shs = Some j →
  (j0 ≤ j)%nat ∧ ∃ g t, shs !! (j - j0) = Some (GraphicFrame g t) ∧ is_Some (verdict t).
Proof.
  revert j0. induction shs as [|sh rest IH]; intros j0; [done|].
  destruct sh as [n|g t]; simpl.
  - intros H. destruct (IH _ H) as (Hle & g & t & Hl & Hv). split; [lia|].
    exists g, t. replace (j - j0) with (S (j - S j0)) by lia. done.
  - destruct (verdict t) eqn:Hv.
    + intros [= <-]. split; [lia|]. exists g, t. rewrite Nat.sub_diag. simpl.
      split; [done|]. rewrite Hv. by eexists.
    + intros H. destruct (IH _ H) as (Hle & g' & t' & Hl & Hv'). split; [lia|].
      exists g', t'. replace (j - j0) with (S (j - S j0)) by lia. done.
Qed.

Lemma first_qual_doc_Some (pres : Presentation) i0 tg :
  first_qual_doc i0 pres = Some tg →
  (i0 ≤ target_slide tg)%nat ∧ target_shape tg = Attached (target_table tg)
  ∧ ∃ slide g t, pres !! (target_slide tg - i0) = Some slide
                 ∧ shapes slide !! target_table tg = Some (GraphicFrame g t)
                 ∧ is_Some (verdict t).
Proof.
  revert i0. induction pres as [|s rest IH]; intros i0; [done|]. simpl.
  destruct (first_qual_shape 0 (shapes s)) as [j|] eqn:Hq.
  - intros [= <-]. simpl. split; [lia|]. split; [done|].
    destruct (first_qual_shape_Some _ _ _ Hq) as (_ & g & t & Hl & Hv).
    exists s, g, t. rewrite Nat.sub_diag. rewrite Nat.sub_0_r in Hl. done.
  - intros H. destruct (IH _ H) as (Hle & Hsh & slide & g & t & Hs & Hl & Hv).
    split; [lia|]. split; [done|]. exists slide, g, t.
    replace (target_slide tg - i0) with (S (target_slide tg - S i0)) by lia. done.
Qed.

Lemma first_qual_doc_ok (pres : Presentation) tg :
  first_qual_doc 0 pres = Some tg → target_ok pres tg.
Proof.
  intros H. destruct (first_qual_doc_Some _ _ _ H) as (_ & Hsh & slide & g & t & Hs & Hl & Hv).
  rewrite Nat.sub_0_r in Hs.
  assert (qual_at pres (target_slide tg) (target_table tg)) as Hq by (by exists slide, g, t).
  split; [done|]. by exists (target_table tg).
Qed.

Lemma first_qual_shape_None_lookup j0 shs j g t :
  first_qual_shape j0 shs = None → shs !! j = Some (GraphicFrame g t) → verdict t = None.
Proof.
  revert j0 j. induction shs as [|sh rest IH]; intros j0 j; [done|].
  destruct sh as [n|g' t']; simpl.
  - destruct j as [|j]; [done|]. simpl. by apply IH.
  - destruct (verdict t') eqn:Hv; [done|]. destruct j as [|j]; simpl.
    + by intros _ [= _ <-].
    + by apply IH.
Qed.

Lemma first_qual_doc_None_lookup (pres : Presentation) i0 i slide :
  first_qual_doc i0 pres = None → pres !! i = Some slide →
  first_qual_shape 0 (shapes slide) = None.
Proof.
  revert i0 i. induction pres as [|s rest IH]; intros i0 i; [done|]. simpl.
  destruct (first_qual_shape 0 (shapes s)) eqn:Hq; [done|].
  destruct i as [|i]; simpl.
  - by intros _ [= <-].
  - by apply IH.
Qed.

Lemma no_qual_not_at (pres : Presentation) i j : no_qual pres → ¬ qual_at pres i j.
Proof.
  intros Hn (slide & g & t & Hs & Hsh & Hv).
  pose proof (first_qual_doc_None_lookup _ _ _ _ Hn Hs) as Hq.
  rewrite (first_qual_shape_None_lookup _ _ _ _ _ Hq Hsh) in Hv. by destruct Hv.
Qed.

(** ** Tables made by pagination and by the rebuild *)

Lemma verdict_dims (t : Table) names ci :
  wf_table t → verdict t = Some (names, ci) →
  ∃ N M, table_dims t N M ∧ 0 < N ∧ 0 < M.
Proof.
  intros Hwf Hv.
  destruct (verdict_Some t names ci Hwf Hv)
    as (M & hdr & body & Hc & HM & Hrows & Hall & _).
  exists (length (rows t)), M. split; [done|]. rewrite Hrows. simpl. split; [lia|done].
Qed.

Lemma table_dims_wf t N M : table_dims t N M → wf_table t.
Proof. intros (Hc & _ & Hall) M' HM'. rewrite Hc in HM'. by injection HM' as <-. Qed.

Lemma text_styled_cell b v : text (styled_cell b v) = v.
Proof. done. Qed.

Lemma styled_grid_cons (r0 : list string) (rest : list (list string)) :
  styled_grid (r0 :: rest)
  = (styled_cell true <$> r0) :: ((λ row : list string, styled_cell false <$> row) <$> rest).
Proof.
  unfold styled_grid. simpl. f_equal.
  rewrite <- (imap_const (λ row : list string, styled_cell false <$> row) rest).
  by apply imap_ext.
Qed.

Lemma verdict_header (t t' : Table) M' hdr body hdr' body' :
  len_columns t = Some (S M') → len_columns t' = Some (S M') →
  rows t = hdr :: body → rows t' = hdr' :: body' →
  (λ cl, strip (text cl)) <$> hdr' = (λ cl, strip (text cl)) <$> hdr →
  verdict t' = verdict t.
Proof. intros Hc Hc' Hr Hr' Hn. unfold verdict. by rewrite Hc, Hc', Hr, Hr', Hn. Qed.

Lemma header_table_facts g (t : Table) names ci N M :
  wf_table t → verdict t = Some (names, ci) → table_dims t N M →
  wf_table (header_table g t M)
  ∧ verdict (header_table g t M) = verdict t
  ∧ table_entries (header_table g t M) = [].
Proof.
  intros Hwf Hv Hdims.
  destruct (verdict_Some t names ci Hwf Hv)
    as (M0 & hdr & body & Hc & HM & Hrows & Hall & Hnames & Hlen & -> & Hreq).
  assert (M0 = M) as -> by (destruct Hdims as (Hc' & _); congruence).
  assert (0 < N) as HN.
  { destruct Hdims as (_ & <- & _). rewrite Hrows. simpl. lia. }
  pose proof (header_table_dims g t N M Hdims HN) as Hd.
  assert (verdict (header_table g t M) = verdict t) as Hv'.
  { destruct M as [|M']; [lia|].
    eapply (verdict_header t (header_table g t (S M')) M'); try done.
    - by destruct Hd as (? & _).
    - rewrite Hrows. simpl. rewrite <- list_fmap_compose. apply list_fmap_ext.
      intros _ cl _. simpl. apply strip_idemp. }
  split; [by eapply table_dims_wf|]. split; [done|].
  unfold table_entries. rewrite Hv', Hv. done.
Qed.

Lemma text_cell_or_blank (row : list Cell) c :
  text (cell_or_blank row c) = default "" ((text <$> row) !! c).
Proof. unfold cell_or_blank. rewrite list_lookup_fmap. by destruct (row !! c). Qed.

Lemma entry_of_texts k (row row' : list Cell) :
  text <$> row' = text <$> row → entry_of k row' = entry_of k row.
Proof. intros H. unfold entry_of. by rewrite !text_cell_or_blank, H. Qed.

Lemma values_lookup_header (hs : list string) (col : string) :
  (list_to_map ((λ h, (h, "")) <$> hs) : gmap string string) !! col
  = if decide (col ∈ hs) then Some "" else None.
Proof.
  induction hs as [|h hs IH].
  - rewrite fmap_nil, list_to_map_nil, lookup_empty.
    by rewrite decide_False by (by intros ?%elem_of_nil).
  - rewrite fmap_cons, list_to_map_cons. cbn [fst snd].
    destruct (decide (h = col)) as [->|Hne].
    + rewrite lookup_insert_eq. rewrite decide_True by (by left). done.
    + rewrite lookup_insert_ne by done. rewrite IH.
      destruct (decide (col ∈ hs)) as [Hin|Hin].
      * rewrite decide_True by (by right). done.
      * rewrite decide_False; [done|]. intros [?|?]%elem_of_cons; [congruence|done].
Qed.

Lemma build_values_lookup (tgt_headers : list string) tool_name excel_row col :
  col ∈ tgt_headers →
  build_values_by_header tgt_headers tool_name excel_row !! col
  = Some (default "" (col_values_from_excel tool_name excel_row !! col)).
Proof.
  intros Hin. unfold build_values_by_header. rewrite map_lookup_imap.
  rewrite values_lookup_header, decide_True by done. done.
Qed.

Lemma build_values_required (tgt_headers : list string) tool_name excel_row :
  has_required tgt_headers = true →
  let vals := build_values_by_header tgt_headers tool_name excel_row in
  vals !! "AI Tool" = Some tool_name
  ∧ vals !! "Tool Description" = Some (strip (Service_Use_Case excel_row))
  ∧ vals !! "Requestor" = Some (strip (Requestor excel_row))
  ∧ vals !! "Current State" = Some (strip (Status excel_row)).
Proof.
  intros Hreq vals. destruct required_elems as (Ha & Hd & Hq & Hs).
  unfold vals. rewrite !build_values_lookup by (by eapply has_required_elem).
  unfold col_values_from_excel.
  repeat split; by repeat (rewrite lookup_insert_eq || rewrite lookup_insert_ne by done).
Qed.

Lemma new_row_entry (names names_tt : list string) (hdr : list Cell) tool_name excel_row :
  names = (λ cl, strip (text cl)) <$> hdr →
  has_required names = true → has_required names_tt = true →
  let vals := build_values_by_header names_tt tool_name excel_row in
  entry_of (cols_of names)
    (styled_cell false <$> ((λ cl, default "" (vals !! strip (text cl))) <$> hdr))
  = new_entry tool_name excel_row.
Proof.
  intros -> Hreq Hreq_tt vals.
  set (names := (λ cl, strip (text cl)) <$> hdr) in *.
  destruct (build_values_required names_tt tool_name excel_row Hreq_tt) as (Va & Vd & Vq & Vs).
  fold vals in Va, Vd, Vq, Vs.
  assert (∀ c col, names !! c = Some col →
            text (cell_or_blank
                    (styled_cell false <$> ((λ cl, default "" (vals !! strip (text cl))) <$> hdr))
                    c)
            = default "" (vals !! col)) as Hany.
  { intros c col Hl. unfold names in Hl. rewrite list_lookup_fmap in Hl.
    destruct (hdr !! c) as [cl|] eqn:Hcl; simpl in Hl; [|done].
    injection Hl as Hl. rewrite text_cell_or_blank, <- !list_fmap_compose.
    rewrite list_lookup_fmap, Hcl. simpl. by rewrite Hl. }
  assert (∀ col, col ∈ required_ppt_cols →
            text (cell_or_blank
                    (styled_cell false <$> ((λ cl, default "" (vals !! strip (text cl))) <$> hdr))
                    (col_idx names col))
            = default "" (vals !! col)) as Hcell.
  { intros col Hin. apply Hany. by destruct (col_idx_lookup names col Hreq Hin) as [_ Hl]. }
  destruct required_elems as (Ha & Hd & Hq & Hs).
  unfold entry_of, new_entry, cols_of. cbn [c_tool c_desc c_req c_status].
  rewrite !Hcell by done. by rewrite Va, Vd, Vq, Vs.
Qed.

Lemma rebuilt_table_facts g (t : Table) names ci N M names_tt tool_name excel_row :
  wf_table t → verdict t = Some (names, ci) → table_dims t N M →
  has_required names_tt = true →
  let vals := build_values_by_header names_tt tool_name excel_row in
  wf_table (rebuilt_table g t M vals)
  ∧ verdict (rebuilt_table g t M vals) = verdict t
  ∧ table_entries (rebuilt_table g t M vals)
    = table_entries t ++ [new_entry tool_name excel_row].
Proof.
  intros Hwf Hv Hdims Hreq_tt vals.
  destruct (verdict_Some t names ci Hwf Hv)
    as (M0 & hdr & body & Hc & HM & Hrows & Hall & Hnames & Hlen & -> & Hreq).
  assert (M0 = M) as -> by (destruct Hdims as (Hc' & _); congruence).
  assert (0 < N) as HN.
  { destruct Hdims as (_ & <- & _). rewrite Hrows. simpl. lia. }
  pose proof (rebuilt_table_dims g t N M vals Hdims HN) as Hd.
  assert (rows (rebuilt_table g t M vals)
          = (styled_cell true <$> (text <$> hdr))
            :: ((λ row : list string, styled_cell false <$> row)
                  <$> (((λ row : list Cell, text <$> row) <$> body)
                       ++ [(λ cl, default "" (vals !! strip (text cl))) <$> hdr]))) as Hr.
  { unfold rebuilt_table, text_grid, new_row_values. simpl. rewrite Hrows. simpl.
    by rewrite styled_grid_cons. }
  assert (verdict (rebuilt_table g t M vals) = verdict t) as Hv'.
  { destruct M as [|M']; [lia|].
    eapply (verdict_header t (rebuilt_table g t (S M') vals) M'); try done.
    - by destruct Hd as (? & _).
    - rewrite <- !list_fmap_compose. by apply list_fmap_ext. }
  split; [by eapply table_dims_wf|]. split; [done|].
  unfold table_entries. rewrite Hv', Hv, Hr, Hrows. simpl tail.
  rewrite !fmap_app. f_equal.
  - rewrite <- !list_fmap_compose. apply list_fmap_ext. intros _ row _. simpl.
    apply entry_of_texts. rewrite <- !list_fmap_compose. by apply list_fmap_ext.
  - simpl. f_equal. by apply (new_row_entry names names_tt hdr).
Qed.

(** ** The append step on the whole state *)

Lemma shapes_entries_app l1 l2 :
  shapes_entries (l1 ++ l2) = shapes_entries l1 ++ shapes_entries l2.
Proof. unfold shapes_entries. by rewrite fmap_app, concat_app. Qed.

Lemma doc_entries_app (p1 p2 : Presentation) :
  doc_entries (p1 ++ p2) = doc_entries p1 ++ doc_entries p2.
Proof. unfold doc_entries. by rewrite fmap_app, concat_app. Qed.

Lemma shapes_entries_placeholders (l : list nat) : shapes_entries (OtherShape <$> l) = [].
Proof. induction l as [|n l IH]; [done|]. by rewrite fmap_cons, shapes_entries_cons, IH. Qed.

Lemma wf_pres_lookup (pres : Presentation) i slide j g t :
  wf_pres pres → pres !! i = Some slide → shapes slide !! j = Some (GraphicFrame g t) →
  wf_table t.
Proof.
  intros Hwf Hs Hsh. eapply Forall_lookup_1 in Hwf; [|exact Hs].
  eapply Forall_lookup_1 in Hwf; [|exact Hsh]. done.
Qed.

Lemma ensure_capacity_spec (st : State) (tg : Target) :
  wf_pres (presentation st) → target st = Some tg → target_ok (presentation st) tg →
  ∃ st' tg',
    _ensure_capacity_or_paginate st = Some st'
    ∧ wf_pres (presentation st')
    ∧ target st' = Some tg' ∧ target_ok (presentation st') tg'
    ∧ doc_entries (presentation st') = doc_entries (presentation st)
    ∧ same_counters st st'.
Proof.
  intros Hwf Htg [(slide & gt & tt & Hs & Htt & Hvt) (j & Hj & (slide' & g & t & Hs' & Hsh & Hv))].
  rewrite Hs in Hs'. injection Hs' as <-.
  destruct (decide (MAX_BODY_ROWS <= Z.of_nat (length (rows tt)) - 1)%Z) as [Hfull|Hroom].
  - pose proof (wf_pres_lookup _ _ _ _ _ _ Hwf Hs Hsh) as Hwt.
    destruct Hv as [[names ci] Hv].
    destruct (verdict_dims t names ci Hwt Hv) as (N & M & Hdims & HN & HM).
    destruct (header_table_facts g t names ci N M Hwt Hv Hdims) as (Hwh & Hvh & Heh).
    eexists _, _. split.
    { apply (ensure_capacity_paginates st tg slide tt g t N M); try done.
      - unfold table_at. rewrite Htt. done.
      - rewrite Hj. done. }
    simpl. split.
    { apply Forall_app. split; [done|]. apply Forall_singleton. simpl.
      apply Forall_app. split.
      - apply Forall_fmap. by apply Forall_true.
      - by apply Forall_singleton. }
    split; [done|].
    assert (qual_at (presentation st ++ [overflow_slide slide g t M])
              (length (presentation st)) (length (layout_placeholders (slide_layout slide))))
      as Hq.
    { exists (overflow_slide slide g t M), g, (header_table g t M).
      split. { rewrite lookup_app_r by lia. by rewrite Nat.sub_diag. }
      split. { simpl. rewrite lookup_app_r; rewrite length_fmap; [|lia]. by rewrite Nat.sub_diag. }
      rewrite Hvh, Hv. by eexists. }
    split. { split; [done|]. by eexists. }
    split; [|done].
    rewrite doc_entries_app. unfold doc_entries at 2. simpl.
    rewrite shapes_entries_app, shapes_entries_placeholders.
    rewrite shapes_entries_cons. simpl. rewrite Heh. by rewrite !app_nil_r.
  - exists st, tg. split.
    { eapply (ensure_capacity_keeps st tg slide tt); try done.
      - unfold table_at. rewrite Htt. done.
      - lia. }
    split; [done|]. split; [done|].
    split. { split; [by exists slide, gt, tt|]. exists j. split; [done|]. by exists slide, g, t. }
    split; [done|]. by unfold same_counters.
Qed.

Lemma find_refreshed_wf (shs : list Shape) j :
  Forall wf_shape shs → find_refreshed_shape j shs = Some (first_qual_shape j shs).
Proof.
  intros Hwf. revert j. induction Hwf as [|sh rest Hsh Hrest IH]; intros j; [done|].
  destruct sh as [n|g t]; simpl; [apply IH|].
  rewrite (thi_wf t Hsh). simpl. destruct (verdict t); [done|]. apply IH.
Qed.

Lemma first_qual_shape_last j0 (l : list Shape) g t :
  is_Some (verdict t) → is_Some (first_qual_shape j0 (l ++ [GraphicFrame g t])).
Proof.
  intros [v Hv]. revert j0. induction l as [|sh l IH]; intros j0; simpl.
  - rewrite Hv. by eexists.
  - destruct sh as [n|g' t']; [apply IH|]. destruct (verdict t'); [by eexists|apply IH].
Qed.

Lemma shapes_entries_replace (shs : list Shape) j g t t' ne :
  shs !! j = Some (GraphicFrame g t) →
  table_entries t' = table_entries t ++ [ne] →
  shapes_entries (delete j shs ++ [GraphicFrame g t']) ≡ₚ shapes_entries shs ++ [ne].
Proof.
  intros Hj He.
  rewrite <- (take_drop_middle shs j _ Hj) at 2.
  rewrite delete_take_drop, !shapes_entries_app, !shapes_entries_cons. simpl.
  rewrite He. unfold shapes_entries at 3. simpl. rewrite app_nil_r.
  rewrite <- !app_assoc. f_equiv. rewrite !app_assoc. f_equiv. apply Permutation_app_comm.
Qed.

Lemma doc_entries_replace (pres : Presentation) i slide slide' ne :
  pres !! i = Some slide →
  shapes_entries (shapes slide') ≡ₚ shapes_entries (shapes slide) ++ [ne] →
  doc_entries (<[i := slide']> pres) ≡ₚ doc_entries pres ++ [ne].
Proof.
  intros Hi He.
  rewrite <- (take_drop_middle pres i _ Hi) at 2.
  rewrite insert_take_drop by (by eapply lookup_lt_Some).
  rewrite !doc_entries_app, !doc_entries_cons. rewrite He.
  rewrite <- !app_assoc. f_equiv. f_equiv. apply Permutation_app_comm.
Qed.

Lemma append_missing_spec (st : State) (tg : Target) tool_name excel_row :
  wf_pres (presentation st) → target st = Some tg → target_ok (presentation st) tg →
  ∃ st' tg',
    append_missing st tool_name excel_row = Some st'
    ∧ wf_pres (presentation st')
    ∧ target st' = Some tg' ∧ target_ok (presentation st') tg'
    ∧ doc_entries (presentation st') ≡ₚ doc_entries (presentation st)
                                        ++ [new_entry tool_name excel_row]
    ∧ updates_made st' = (updates_made st + 4)%nat
    ∧ rows_added st' = (rows_added st + 1)%nat
    ∧ not_found_before_adding st' = not_found_before_adding st.
Proof.
  intros Hwf0 Htg0 Hok0.
  destruct (ensure_capacity_spec st tg Hwf0 Htg0 Hok0)
    as (st1 & tg1 & Hens & Hwf & Htg & Hok & Hent & (Hu & Hr & Hn)).
  destruct Hok as [(slide & gt & tt & Hs & Htt & Hvt) (j & Hj & (slide' & g & t & Hs' & Hsh & Hv))].
  rewrite Hs in Hs'. injection Hs' as <-.
  pose proof (wf_pres_lookup _ _ _ _ _ _ Hwf Hs Htt) as Hwtt.
  pose proof (wf_pres_lookup _ _ _ _ _ _ Hwf Hs Hsh) as Hwt.
  destruct Hvt as [[names_tt ci_tt] Hvt]. destruct Hv as [[names ci] Hv].
  destruct (verdict_Some tt names_tt ci_tt Hwtt Hvt)
    as (Mt & hdr_tt & body_tt & Hct & HMt & Hrows_tt & Hall_tt & Hnames_tt & Hlen_tt & _ & Hreq_tt).
  destruct (verdict_dims t names ci Hwt Hv) as (N & M & Hdims & HN & HM).
  destruct (rebuilt_table_facts g t names ci N M names_tt tool_name excel_row
              Hwt Hv Hdims Hreq_tt) as (Hwr & Hvr & Her).
  set (vals := build_values_by_header names_tt tool_name excel_row) in *.
  set (slide2 := {| slide_layout := slide_layout slide;
                    shapes := delete j (shapes slide)
                              ++ [GraphicFrame g (rebuilt_table g t M vals)] |}).
  assert (Forall wf_shape (shapes slide2)) as Hwf2.
  { simpl. apply Forall_app. split.
    - apply Forall_delete. eapply Forall_lookup_1 in Hwf; [|exact Hs]. done.
    - by apply Forall_singleton. }
  destruct (first_qual_shape_last 0 (delete j (shapes slide)) g (rebuilt_table g t M vals))
    as [jr Hjr]; [rewrite Hvr, Hv; by eexists|].
  assert (length (delete j (shapes slide)) = length (shapes slide) - 1) as Hdel.
  { apply length_delete. by eexists. }
  eexists _, _. split.
  { unfold append_missing. rewrite Hens. simpl. rewrite Htg. simpl.
    unfold target_table_obj. rewrite Hs. simpl. unfold table_at. rewrite Htt. simpl.
    rewrite Hct. simpl.
    rewrite (header_names_row tt Mt hdr_tt body_tt Hrows_tt); cycle 1.
    { rewrite Hrows_tt in Hall_tt. by apply Forall_cons in Hall_tt as [? _]. }
    simpl. rewrite <- Hnames_tt. fold vals. rewrite Hj. simpl. rewrite Hsh. simpl.
    rewrite (rebuild_spec slide j g t N M vals Hsh Hdims HN HM). simpl.
    pose proof (find_refreshed_wf _ 0 Hwf2) as Hfr. unfold slide2 in Hfr. cbn [shapes] in Hfr.
    rewrite Hfr. simpl. rewrite Hjr. reflexivity. }
  simpl. split.
  { apply Forall_insert; done. }
  split; [done|].
  split.
  { assert (∀ j', shapes slide2 !! j' = Some (GraphicFrame g (rebuilt_table g t M vals)) ∨
                  (∃ g' t', shapes slide2 !! j' = Some (GraphicFrame g' t') ∧ is_Some (verdict t')) →
                  ∃ g' t', shapes slide2 !! j' = Some (GraphicFrame g' t') ∧ is_Some (verdict t'))
      as Hany.
    { intros j' [H|H]; [|done]. exists g, (rebuilt_table g t M vals). split; [done|].
      rewrite Hvr, Hv. by eexists. }
    split.
    - exists slide2, g, (rebuilt_table g t M vals). simpl.
      split. { apply list_lookup_insert_eq. by eapply lookup_lt_Some. }
      split. { rewrite lookup_app_r by lia. by rewrite Hdel, Nat.sub_diag. }
      rewrite Hvr, Hv. by eexists.
    - exists jr. split; [done|].
      destruct (first_qual_shape_Some _ _ _ Hjr) as (_ & g' & t' & Hl & Hv').
      rewrite Nat.sub_0_r in Hl. exists slide2, g', t'. simpl.
      split; [|done]. apply list_lookup_insert_eq. by eapply lookup_lt_Some. }
  split.
  { rewrite <- Hent. apply (doc_entries_replace _ _ slide slide2); [done|].
    by apply (shapes_entries_replace _ j g t). }
  rewrite Hu, Hr, Hn. done.
Qed.

(** ** One record *)

Lemma target_ok_not_no_qual (pres : Presentation) tg : target_ok pres tg → ¬ no_qual pres.
Proof. intros [Hq _] Hn. by eapply no_qual_not_at. Qed.

Lemma process_row_spec (add_missing_tools : bool) (excel_row : ExcelRow) (st : State) :
  strip (Tool excel_row) ≠ "" →
  wf_pres (presentation st) → target_inv st →
  ∃ st',
    process_row add_missing_tools excel_row st = Some st'
    ∧ wf_pres (presentation st') ∧ target_inv st'
    ∧ ((∃ n, found_step excel_row st st' n)
       ∨ (add_missing_tools = true ∧ appended_step excel_row st st')
       ∨ passed_step add_missing_tools excel_row st st').
Proof.
  intros Hkey Hwf Hinv. unfold process_row. rewrite decide_False by done.
  destruct (scan_slides_spec excel_row (strip (Tool excel_row)) (presentation st) Hwf 0%nat
              (target st)) as (pres' & Hrun & He & Hsk & Htx).
  rewrite Hrun. cbn [mbind option_bind].
  pose proof (wf_pres_skel _ _ Hsk Hwf) as Hwf'.
  set (tgt' := new_target (target st) (first_qual_doc 0 (presentation st))) in *.
  assert (match tgt' with None => True | Some tg => target_ok pres' tg end) as Hinv'.
  { unfold tgt', target_inv in *. destruct (target st) as [tg|]; simpl.
    - by apply (target_ok_skel _ _ _ Hsk).
    - destruct (first_qual_doc 0 (presentation st)) as [tg|] eqn:Hq; [|done].
      apply (target_ok_skel _ _ _ Hsk). by apply first_qual_doc_ok. }
  destruct (update_first excel_row (strip (Tool excel_row)) (doc_entries (presentation st)))
    as [es' found] eqn:Hup. cbn [fst snd] in *.
  assert (found = None → es' = doc_entries (presentation st)) as Hsame.
  { intros ->.
    pose proof (update_first_None excel_row (strip (Tool excel_row))
                  (doc_entries (presentation st))) as Hn.
    rewrite Hup in Hn. by apply Hn. }
  destruct found as [n|].
  - eexists. split; [done|]. simpl. split; [done|]. split; [done|]. left. exists n.
    unfold found_step. simpl. rewrite Hup, He. split; [done|]. split; [done|].
    split; [done|]. split; [done|]. intros ->. apply Htx. by right.
  - destruct (add_missing_tools && bool_decide (is_Some tgt')) eqn:Happ.
    + apply andb_true_iff in Happ as [-> Hsome]. apply bool_decide_eq_true in Hsome.
      destruct Hsome as [tg Htg]. rewrite Htg in Hinv'.
      set (st1 := {| presentation := pres'; updates_made := updates_made st;
                     rows_added := rows_added st;
                     not_found_before_adding := (not_found_before_adding st + 1)%nat;
                     target := tgt' |}).
      destruct (append_missing_spec st1 tg (strip (Tool excel_row)) excel_row)
        as (st2 & tg2 & Happ & Hwf2 & Htg2 & Hok2 & Hent2 & Hu2 & Hr2 & Hn2); try done.
      exists st2. split; [done|]. split; [done|].
      split. { unfold target_inv. by rewrite Htg2. }
      right. left. split; [done|]. unfold appended_step. simpl. rewrite Hup. simpl.
      split; [done|]. split. { rewrite Hent2. simpl. by rewrite He, Hsame. }
      split; [done|]. split; [done|].
      intros Hnq. apply (target_ok_not_no_qual pres' tg Hinv').
      unfold no_qual in *. by rewrite (first_qual_doc_skel _ _ 0 Hsk).
    + eexists. split; [done|]. simpl. split; [done|]. split; [done|].
      right. right. unfold passed_step. simpl. rewrite Hup. simpl.
      split; [done|]. split; [by rewrite He, Hsame|].
      split; [done|]. split; [done|]. split; [done|].
      split. { apply Htx. by left. }
      apply andb_false_iff in Happ as [->|Hnone]; [by left|]. right.
      apply bool_decide_eq_false in Hnone. unfold tgt' in Hnone.
      destruct (target st) as [tg|]; simpl in Hnone; [exfalso; apply Hnone; by eexists|].
      unfold no_qual. destruct (first_qual_doc 0 (presentation st)); [|done].
      exfalso. apply Hnone. by eexists.
Qed.


(** ** Header styling at the discovery of the target *)




(** ** Records and entries *)





Lemma hits_cons_match name e es : entry_matches name e → hits name (e :: es) = e :: hits name es.
Proof. intros H. unfold hits. by rewrite filter_cons_True. Qed.

Lemma hits_cons_other name e es : ¬ entry_matches name e → hits name (e :: es) = hits name es.
Proof. intros H. unfold hits. by rewrite filter_cons_False. Qed.

Lemma update_first_hits_other excel_row name name0 es :
  lower name0 ≠ lower name →
  hits name0 (update_first excel_row name es).1 = hits name0 es.
Proof.
  intros Hne. induction es as [|e es IH]; [done|]. simpl.
  destruct (decide (entry_matches name e)) as [Hm|Hm]; simpl.
  - assert (¬ entry_matches name0 e) as H0.
    { unfold entry_matches in *. congruence. }
    rewrite !hits_cons_other; done.
  - destruct (update_first excel_row name es) as [es' f]. simpl in *.
    destruct (decide (entry_matches name0 e)).
    + rewrite !hits_cons_match by done. by rewrite IH.
    + rewrite !hits_cons_other by done. done.
Qed.


Lemma update_first_not_found excel_row name es :
  (update_first excel_row name es).2 = None ↔ hits name es = [].
Proof.
  induction es as [|e es IH]; [done|]. simpl.
  destruct (decide (entry_matches name e)) as [Hm|Hm]; simpl.
  - rewrite hits_cons_match by done. done.
  - rewrite hits_cons_other by done.
    destruct (update_first excel_row name es) as [es' f]. simpl in *. done.
Qed.




Lemma new_entry_other excel_row name0 :
  lower name0 ≠ lower (strip (Tool excel_row)) →
  ¬ entry_matches name0 (new_entry (strip (Tool excel_row)) excel_row).
Proof. unfold entry_matches, new_entry. simpl. rewrite strip_idemp. congruence. Qed.

Lemma hits_perm name es es' : es' ≡ₚ es → hits name es' ≡ₚ hits name es.
Proof. intros H. unfold hits. by rewrite H. Qed.

Lemma hits_app name es1 es2 : hits name (es1 ++ es2) = hits name es1 ++ hits name es2.
Proof. unfold hits. apply filter_app. Qed.

(** ** What one step does to the records *)

Lemma no_qual_skel (pres pres' : Presentation) :
  slide_skel <$> pres' = slide_skel <$> pres → no_qual pres → no_qual pres'.
Proof. intros H Hn. unfold no_qual in *. by rewrite (first_qual_doc_skel _ _ 0 H). Qed.

Lemma step_no_qual add excel_row st st' :
  step add excel_row st st' → no_qual (presentation st) → no_qual (presentation st').
Proof.
  intros [(n & _ & _ & _ & Hsk & _)|[(_ & _ & _ & _ & _ & Hnq)|(_ & _ & _ & _ & Hsk & _)]] Hn.
  - by eapply no_qual_skel.
  - done.
  - by eapply no_qual_skel.
Qed.

Lemma step_other add excel_row st st' name0 :
  step add excel_row st st' → lower name0 ≠ lower (strip (Tool excel_row)) →
  hits name0 (doc_entries (presentation st')) ≡ₚ hits name0 (doc_entries (presentation st)).
Proof.
  intros [(n & Hup & _)|[(_ & _ & Hp & _)|(_ & -> & _)]] Hne; [| |done].
  - pose proof (update_first_hits_other excel_row (strip (Tool excel_row)) name0
                  (doc_entries (presentation st)) Hne) as H.
    rewrite Hup in H. simpl in H. by rewrite H.
  - rewrite (hits_perm _ _ _ Hp), hits_app.
    rewrite (hits_cons_other name0 _ []) by (by apply new_entry_other).
    by rewrite app_nil_r.
Qed.




(** ** A whole run *)

Lemma keys_cons excel_row (excel_df : list ExcelRow) :
  keys (excel_row :: excel_df)
  = match key_of excel_row with
    | Some k => k :: keys excel_df
    | None => keys excel_df
    end.
Proof. done. Qed.







(** ** The counters of a run *)

Lemma update_field_count (t : Table) r c v t' n :
  update_field t r c v = Some (t', n) → (n ≤ 1)%nat.
Proof.
  unfold update_field. intros H.
  destruct (cell t r c) as [cl|]; cbn [mbind option_bind] in H; [|done].
  destruct (decide (strip (text cl) = v)).
  - injection H as _ <-. lia.
  - destruct (write_cell t r c _); cbn [mbind option_bind] in H; [|done].
    injection H as _ <-. lia.
Qed.

Lemma update_row_count (t : Table) r ci a excel_row t' n :
  update_row t r ci a excel_row = Some (t', n) → (n ≤ 3)%nat.
Proof.
  unfold update_row. intros H.
  destruct (ci !! "Tool Description") as [d|]; cbn [mbind option_bind] in H; [|done].
  destruct (update_field t r d _) as [[t1 n1]|] eqn:H1; cbn [mbind option_bind] in H; [|done].
  destruct (ci !! "Requestor") as [q|]; cbn [mbind option_bind] in H; [|done].
  destruct (update_field t1 r q _) as [[t2 n2]|] eqn:H2; cbn [mbind option_bind] in H; [|done].
  destruct (ci !! "Current State") as [s|]; cbn [mbind option_bind] in H; [|done].
  destruct (update_field t2 r s _) as [[t3 n3]|] eqn:H3; cbn [mbind option_bind] in H; [|done].
  destruct (write_cell t3 r a _); cbn [mbind option_bind] in H; [|done].
  injection H as _ <-.
  apply update_field_count in H1, H2, H3. lia.
Qed.

Lemma scan_rows_count (t : Table) ci a excel_row tool_name row_idxs t' n :
  scan_rows t ci a excel_row tool_name row_idxs = Some (t', Some n) → (n ≤ 3)%nat.
Proof.
  induction row_idxs as [|r rest IH]; [done|]. cbn [scan_rows]. intros H.
  destruct (cell t r a) as [cl|]; cbn [mbind option_bind] in H; [|done].
  destruct (decide (lower (strip (text cl)) = lower tool_name)); [|by apply IH].
  destruct (update_row t r ci a excel_row) as [[t1 n1]|] eqn:Hu;
    cbn [mbind option_bind] in H; [|done].
  injection H as _ <-. by eapply update_row_count.
Qed.

Lemma scan_shapes_count excel_row tool_name slide_idx (shs : list Shape) :
  ∀ j tgt shs' tgt' n,
  scan_shapes excel_row tool_name slide_idx j shs tgt = Some (shs', tgt', Some n) →
  (n ≤ 3)%nat.
Proof.
  induction shs as [|sh rest IH]; intros j tgt shs' tgt' n H; [done|].
  cbn [scan_shapes] in H. destruct sh as [tag|g t].
  - destruct (scan_shapes excel_row tool_name slide_idx (S j) rest tgt)
      as [[[r1 g1] f1]|] eqn:Hr; cbn [mbind option_bind] in H; [|done].
    injection H as _ _ ->. by eapply IH.
  - destruct (_table_headers_and_indices t) as [[[hs ci]|]|]; cbn [mbind option_bind] in H;
      [| |done].
    + destruct (match tgt with
                | Some _ => Some (t, tgt)
                | None => _
                end) as [[t1 tgt1]|]; cbn [mbind option_bind] in H; [|done].
      destruct (ci !! "AI Tool") as [a|].
      * destruct (scan_rows t1 ci a excel_row tool_name _) as [[t2 f]|] eqn:Hs;
          cbn [mbind option_bind] in H; [|done].
        destruct f as [m|].
        -- injection H as _ _ <-. by eapply scan_rows_count.
        -- destruct (scan_shapes excel_row tool_name slide_idx (S j) rest tgt1)
             as [[[r1 g1] f1]|] eqn:Hr; cbn [mbind option_bind] in H; [|done].
           injection H as _ _ ->. by eapply IH.
      * destruct (scan_shapes excel_row tool_name slide_idx (S j) rest tgt1)
          as [[[r1 g1] f1]|] eqn:Hr; cbn [mbind option_bind] in H; [|done].
        injection H as _ _ ->. by eapply IH.
    + destruct (scan_shapes excel_row tool_name slide_idx (S j) rest tgt)
        as [[[r1 g1] f1]|] eqn:Hr; cbn [mbind option_bind] in H; [|done].
      injection H as _ _ ->. by eapply IH.
Qed.

Lemma scan_slides_count excel_row tool_name (slides : list Slide) :
  ∀ i tgt slides' tgt' n,
  scan_slides excel_row tool_name i slides tgt = Some (slides', tgt', Some n) → (n ≤ 3)%nat.
Proof.
  induction slides as [|s rest IH]; intros i tgt slides' tgt' n H; [done|].
  cbn [scan_slides] in H.
  destruct (scan_shapes excel_row tool_name i 0 (shapes s) tgt) as [[[shs1 tgt1] f]|] eqn:Hs;
    cbn [mbind option_bind] in H; [|done].
  destruct f as [m|].
  - injection H as _ _ <-. by eapply scan_shapes_count.
  - destruct (scan_slides excel_row tool_name (S i) rest tgt1) as [[[r1 g1] f1]|] eqn:Hr;
      cbn [mbind option_bind] in H; [|done].
    injection H as _ _ ->. by eapply IH.
Qed.

Lemma ensure_capacity_counters (st st' : State) :
  _ensure_capacity_or_paginate st = Some st' → same_counters st st'.
Proof.
  unfold _ensure_capacity_or_paginate, same_counters. intros H.
  destruct (target st) as [tg|]; [|by injection H as <-].
  destruct (target_table_obj (presentation st) tg) as [tt|]; cbn [mbind option_bind] in H;
    [|done].
  destruct (MAX_BODY_ROWS <=? _)%Z; [|by injection H as <-].
  destruct (_start_new_slide_with_table _ _ _) as [[pres' new_idx]|];
    cbn [mbind option_bind] in H; [|done].
  by injection H as <-.
Qed.

Lemma append_missing_counters (st st' : State) tool_name excel_row :
  append_missing st tool_name excel_row = Some st' →
  updates_made st' = (updates_made st + 4)%nat
  ∧ rows_added st' = (rows_added st + 1)%nat
  ∧ not_found_before_adding st' = not_found_before_adding st.
Proof.
  unfold append_missing. intros H.
  destruct (_ensure_capacity_or_paginate st) as [st1|] eqn:Hcap;
    cbn [mbind option_bind] in H; [|done].
  apply ensure_capacity_counters in Hcap as (Hu & Hr & Hn).
  destruct (target st1) as [tg|]; cbn [mbind option_bind] in H; [|done].
  destruct (target_table_obj (presentation st1) tg) as [tt|]; cbn [mbind option_bind] in H;
    [|done].
  destruct (len_columns tt) as [ncols|]; cbn [mbind option_bind] in H; [|done].
  destruct (header_names tt ncols) as [hs|]; cbn [mbind option_bind] in H; [|done].
  destruct (presentation st1 !! target_slide tg) as [slide|]; cbn [mbind option_bind] in H;
    [|done].
  destruct (deref_shape slide (target_shape tg)) as [old|]; cbn [mbind option_bind] in H;
    [|done].
  destruct (_append_row_by_rebuilding slide (target_shape tg) _) as [[slide' new_idx]|];
    cbn [mbind option_bind] in H; [|done].
  destruct (find_refreshed_shape 0 (shapes slide')) as [rs|]; cbn [mbind option_bind] in H;
    [|done].
  injection H as <-. cbn [updates_made rows_added not_found_before_adding].
  rewrite Hu, Hr, Hn. done.
Qed.

(** What one record does to the three counters. *)
Lemma process_row_counters (add_missing_tools : bool) (excel_row : ExcelRow) (st st' : State) :
  process_row add_missing_tools excel_row st = Some st' →
  (strip (Tool excel_row) = "" ∧ st' = st)
  ∨ (strip (Tool excel_row) ≠ ""
     ∧ ((∃ n, (n ≤ 3)%nat ∧ updates_made st' = (updates_made st + n)%nat
              ∧ rows_added st' = rows_added st
              ∧ not_found_before_adding st' = not_found_before_adding st)
        ∨ (add_missing_tools = true
           ∧ updates_made st' = (updates_made st + 4)%nat
           ∧ rows_added st' = (rows_added st + 1)%nat
           ∧ not_found_before_adding st' = (not_found_before_adding st + 1)%nat)
        ∨ (updates_made st' = updates_made st
           ∧ rows_added st' = rows_added st
           ∧ not_found_before_adding st' = (not_found_before_adding st + 1)%nat))).
Proof.
  unfold process_row. intros H.
  destruct (decide (strip (Tool excel_row) = "")) as [He|Hk].
  { left. by injection H as <-. }
  right. split; [done|].
  destruct (scan_slides excel_row (strip (Tool excel_row)) 0 (presentation st) (target st))
    as [[[slides' tgt'] found]|] eqn:Hscan; cbn [mbind option_bind] in H; [|done].
  destruct found as [n|].
  - left. exists n. injection H as <-. split; [by eapply scan_slides_count|done].
  - destruct (add_missing_tools && bool_decide (is_Some tgt')) eqn:Happ.
    + right. left. apply andb_true_iff in Happ as [-> _]. split; [done|].
      apply append_missing_counters in H as (-> & -> & ->). done.
    + right. right. by injection H as <-.
Qed.

Lemma length_keys_cons excel_row (excel_df : list ExcelRow) :
  length (keys (excel_row :: excel_df))
  = ((if decide (strip (Tool excel_row) = "") then 0 else 1) + length (keys excel_df))%nat.
Proof. rewrite keys_cons. unfold key_of. by destruct (decide _). Qed.

Lemma length_keys_le (excel_df : list ExcelRow) : (length (keys excel_df) ≤ length excel_df)%nat.
Proof.
  induction excel_df as [|r rest IH]; [done|]. rewrite length_keys_cons. simpl.
  destruct (decide _); lia.
Qed.

Lemma run_counters (add_missing_tools : bool) (excel_df : list ExcelRow) :
  ∀ st st',
  for_in excel_df (process_row add_missing_tools) st = Some st' →
  (rows_added st ≤ rows_added st')%nat
  ∧ (rows_added st' + not_found_before_adding st
     ≤ not_found_before_adding st' + rows_added st)%nat
  ∧ (not_found_before_adding st'
     ≤ not_found_before_adding st + length (keys excel_df))%nat
  ∧ (updates_made st + 4 * rows_added st' ≤ updates_made st' + 4 * rows_added st)%nat
  ∧ (updates_made st' + 3 * not_found_before_adding st' + 4 * rows_added st
     ≤ updates_made st + 3 * not_found_before_adding st + 4 * rows_added st'
       + 3 * length (keys excel_df))%nat
  ∧ (add_missing_tools = false → rows_added st' = rows_added st).
Proof.
  induction excel_df as [|r rest IH]; intros st st' H.
  { injection H as <-. simpl. repeat split; lia. }
  cbn [for_in] in H.
  destruct (process_row add_missing_tools r st) as [st1|] eqn:H1;
    cbn [mbind option_bind] in H; [|done].
  apply IH in H as (Ha & Hb & Hc & Hd & He & Hf).
  rewrite length_keys_cons.
  apply process_row_counters in H1
    as [[Hk ->]|[Hk [(n & Hn & Hu & Hr & Hnf)|[(Hadd & Hu & Hr & Hnf)|(Hu & Hr & Hnf)]]]].
  - rewrite decide_True by done. repeat split; try lia. done.
  - rewrite decide_False by done. repeat split; try lia. intros E. rewrite Hf by done. lia.
  - rewrite decide_False by done. repeat split; try lia. intros E. congruence.
  - rewrite decide_False by done. repeat split; try lia. intros E. rewrite Hf by done. lia.
Qed.

(** X1.  The accounting of a completed run.  No more rows are added than
    records were not found, and no more records are reported as not found
    than the dataset has records with a key; every added row counts as four
    updates and every found record as at most three; without
    [add_missing_tools] no row is added; and a run that added a row saved
    the file. *)
Theorem completed_run_accounting (excel_df : list ExcelRow) (ppt_file : Presentation)
    (add_missing_tools : bool) (st : State) (summary : Summary) :
  final (sync_excel_to_ppt excel_df ppt_file add_missing_tools) = Some (st, summary) →
  (sum_rows_added summary ≤ sum_not_found summary)%nat
  ∧ (sum_not_found summary ≤ length (keys excel_df))%nat
  ∧ (length (keys excel_df) ≤ total_tools_processed summary)%nat
  ∧ (4 * sum_rows_added summary ≤ sum_updates_made summary)%nat
  ∧ (sum_updates_made summary + 3 * sum_not_found summary
     ≤ 3 * length (keys excel_df) + 4 * sum_rows_added summary)%nat
  ∧ (add_missing_tools = false → sum_rows_added summary = 0%nat)
  ∧ ((0 < sum_rows_added summary)%nat →
     save_calls (sync_excel_to_ppt excel_df ppt_file add_missing_tools) = 1%nat
     ∧ ppt_file_after (sync_excel_to_ppt excel_df ppt_file add_missing_tools)
       = presentation st).
Proof.
  unfold sync_excel_to_ppt.
  destruct (for_in excel_df (process_row add_missing_tools) (initial_state ppt_file))
    as [st0|] eqn:Hrun; [|done].
  apply run_counters in Hrun as (Ha & Hb & Hc & Hd & He & Hf). simpl in *.
  pose proof (length_keys_le excel_df) as Hk.
  destruct (0 <? updates_made st0)%nat eqn:Hpos; simpl; intros [= <- <-]; simpl.
  - repeat split; try lia; done.
  - apply Nat.ltb_ge in Hpos. repeat split; try lia; done.
Qed.

(** ** What a run keeps *)

Lemma final_spec (excel_df : list ExcelRow) (ppt_file : Presentation) (add_missing_tools : bool) :
  final (sync_excel_to_ppt excel_df ppt_file add_missing_tools)
  = (λ st, (st, summary_of excel_df st))
      <$> for_in excel_df (process_row add_missing_tools) (initial_state ppt_file).
Proof.
  unfold sync_excel_to_ppt.
  destruct (for_in excel_df (process_row add_missing_tools) (initial_state ppt_file))
    as [st|]; [|done].
  by destruct (0 <? updates_made st)%nat.
Qed.

Lemma update_first_tools excel_row name es :
  e_tool <$> (update_first excel_row name es).1 = e_tool <$> es.
Proof.
  induction es as [|e rest IH]; [done|]. cbn [update_first].
  destruct (decide (entry_matches name e)); [done|].
  destruct (update_first excel_row name rest) as [rest' f]. simpl. simpl in IH. by f_equal.
Qed.

Lemma row_counts_skel (pres pres' : Presentation) :
  slide_skel <$> pres' = slide_skel <$> pres → row_counts pres' = row_counts pres.
Proof.
  intros H.
  assert (∀ p : Presentation,
            row_counts p
            = (λ sk : Layout * list (nat + Geometry
                                     * (option (list (option Z)) * list nat * list string)),
                 (λ x, match x with
                       | inr (_, (_, lens, _)) => Some (length lens)
                       | inl _ => None
                       end) <$> sk.2) <$> (slide_skel <$> p)) as Hrc.
  { intros p. unfold row_counts. rewrite <- list_fmap_compose. apply list_fmap_ext.
    intros _ s _. simpl. rewrite <- list_fmap_compose. apply list_fmap_ext.
    intros _ [n|g t] _; simpl; [done|]. by rewrite length_fmap. }
  by rewrite !Hrc, H.
Qed.

Lemma hits_nil_tools name (es es' : list Entry) :
  e_tool <$> es' = e_tool <$> es → hits name es = [] → hits name es' = [].
Proof.
  revert es'. induction es as [|e rest IH]; intros [|e' rest'] H; try done.
  injection H as He Hrest. intros Hh.
  destruct (decide (entry_matches name e)) as [Hm|Hm].
  - by rewrite hits_cons_match in Hh.
  - rewrite hits_cons_other in Hh by done.
    rewrite hits_cons_other; [by apply IH|].
    unfold entry_matches in *. by rewrite He.
Qed.

Lemma no_qual_entries (pres : Presentation) : no_qual pres → doc_entries pres = [].
Proof.
  unfold no_qual. generalize 0%nat. induction pres as [|s rest IH]; intros i H; [done|].
  rewrite doc_entries_cons. cbn [first_qual_doc] in H.
  destruct (first_qual_shape 0 (shapes s)) eqn:E; [done|].
  rewrite (first_qual_shape_None _ _ E). simpl. by eapply IH.
Qed.

Lemma step_no_qual_back add excel_row st st' :
  step add excel_row st st' → no_qual (presentation st') → no_qual (presentation st).
Proof.
  intros [(n & _ & _ & _ & Hsk & _)|[(_ & _ & Hp & _)|(_ & _ & _ & _ & Hsk & _)]] Hn.
  - by apply (no_qual_skel (presentation st')).
  - apply no_qual_entries in Hn. rewrite Hn in Hp. apply Permutation_nil in Hp.
    by apply app_eq_nil in Hp as [_ ?].
  - by apply (no_qual_skel (presentation st')).
Qed.

Lemma step_tools add excel_row st st' :
  step add excel_row st st' →
  ∃ added,
    e_tool <$> doc_entries (presentation st')
      ≡ₚ (e_tool <$> doc_entries (presentation st)) ++ added
    ∧ rows_added st' = (rows_added st + length added)%nat
    ∧ (∀ k, k ∈ added → k = strip (Tool excel_row))
    ∧ (add = false →
       slide_skel <$> presentation st' = slide_skel <$> presentation st
       ∧ e_tool <$> doc_entries (presentation st') = e_tool <$> doc_entries (presentation st)).
Proof.
  intros [(n & Hup & _ & Hr & Hsk & _)|[(Hadd & _ & Hp & _ & Hr & _)
         |(_ & He & _ & Hr & Hsk & _)]].
  - exists []. rewrite app_nil_r.
    assert (e_tool <$> doc_entries (presentation st')
            = e_tool <$> doc_entries (presentation st)) as Ht.
    { rewrite <- (update_first_tools excel_row (strip (Tool excel_row))
                    (doc_entries (presentation st))).
      unfold found_step in Hup. by rewrite Hup. }
    split; [by rewrite Ht|]. split; [simpl; lia|].
    split; [intros k Hk; by apply elem_of_nil in Hk|done].
  - exists [strip (Tool excel_row)].
    split; [by rewrite Hp, fmap_app|]. split; [done|].
    split; [intros k Hk; by apply list_elem_of_singleton in Hk|]. congruence.
  - exists []. rewrite app_nil_r, He. split; [done|]. split; [simpl; lia|].
    split; [intros k Hk; by apply elem_of_nil in Hk|done].
Qed.

Lemma run_steps (add : bool) (excel_df : list ExcelRow) :
  ∀ st,
  wf_pres (presentation st) → target_inv st →
  ∃ st',
    for_in excel_df (process_row add) st = Some st'
    ∧ wf_pres (presentation st') ∧ target_inv st'
    ∧ (∀ name0, lower name0 ∉ keys excel_df →
         hits name0 (doc_entries (presentation st'))
           ≡ₚ hits name0 (doc_entries (presentation st)))
    ∧ (no_qual (presentation st') ↔ no_qual (presentation st))
    ∧ (∃ added,
         e_tool <$> doc_entries (presentation st')
           ≡ₚ (e_tool <$> doc_entries (presentation st)) ++ added
         ∧ rows_added st' = (rows_added st + length added)%nat
         ∧ ∀ k, k ∈ added → ∃ r, r ∈ excel_df ∧ strip (Tool r) ≠ "" ∧ k = strip (Tool r))
    ∧ (add = false →
       slide_skel <$> presentation st' = slide_skel <$> presentation st
       ∧ e_tool <$> doc_entries (presentation st') = e_tool <$> doc_entries (presentation st)).
Proof.
  induction excel_df as [|rec todo IH]; intros st Hwf Hinv.
  { exists st. split; [done|]. split; [done|]. split; [done|]. split; [done|].
    split; [done|]. split; [|done]. exists []. rewrite app_nil_r. split; [done|].
    split; [simpl; lia|]. intros k Hk. by apply elem_of_nil in Hk. }
  destruct (decide (strip (Tool rec) = "")) as [Hempty|Hkey].
  - destruct (IH st Hwf Hinv) as (st' & Hrun & Hwf' & Hinv' & Hout & Hnq & Hadd & Hskel).
    exists st'. cbn [for_in]. rewrite process_row_skip by done. cbn [mbind option_bind].
    split; [done|]. split; [done|]. split; [done|].
    split. { intros name0 Hn0. apply Hout. rewrite keys_cons in Hn0. unfold key_of in Hn0.
             by rewrite decide_True in Hn0. }
    split; [done|]. split; [|done].
    destruct Hadd as (added & Hp & Hr & Hin). exists added. split; [done|]. split; [done|].
    intros k Hk. destruct (Hin k Hk) as (r & Hr' & Hne & ->). exists r.
    split; [by right|done].
  - destruct (process_row_spec add rec st Hkey Hwf Hinv) as (st1 & Hrun1 & Hwf1 & Hinv1 & Hstep).
    fold (step add rec st st1) in Hstep.
    destruct (IH st1 Hwf1 Hinv1) as (st' & Hrun & Hwf' & Hinv' & Hout & Hnq & Hadd & Hskel).
    exists st'. cbn [for_in]. rewrite Hrun1. cbn [mbind option_bind].
    split; [done|]. split; [done|]. split; [done|].
    split.
    { intros name0 Hn0. rewrite keys_cons in Hn0. unfold key_of in Hn0.
      rewrite decide_False in Hn0 by done. apply not_elem_of_cons in Hn0 as [Hn0 Hn0'].
      rewrite (Hout name0 Hn0'). by apply (step_other add rec st st1). }
    split.
    { rewrite Hnq. split; [by apply (step_no_qual_back add rec)|by apply (step_no_qual add rec)]. }
    destruct (step_tools add rec st st1 Hstep) as (a1 & Hp1 & Hr1 & Hin1 & Hsk1).
    split.
    { destruct Hadd as (a2 & Hp2 & Hr2 & Hin2). exists (a1 ++ a2).
      split; [by rewrite Hp2, Hp1, app_assoc|]. split; [rewrite length_app; lia|].
      intros k [Hk|Hk]%elem_of_app.
      - exists rec. split; [by left|]. split; [done|by apply Hin1].
      - destruct (Hin2 k Hk) as (r & Hr' & Hne & ->). exists r. split; [by right|done]. }
    intros E. destruct (Hsk1 E) as [Hs1 Ht1]. destruct (Hskel E) as [Hs2 Ht2].
    split; congruence.
Qed.

Lemma initial_state_inv (ppt_file : Presentation) : target_inv (initial_state ppt_file).
Proof. done. Qed.

(** X2.  A document whose tables are all well-formed grids is never fatal:
    the run completes, whatever the dataset holds, and leaves a document
    (in memory and on disk) whose tables are well-formed grids again. *)
Theorem well_formed_run_completes (excel_df : list ExcelRow) (ppt_file : Presentation)
    (add_missing_tools : bool) :
  wf_pres ppt_file →
  ∃ st summary,
    final (sync_excel_to_ppt excel_df ppt_file add_missing_tools) = Some (st, summary)
    ∧ wf_pres (presentation st)
    ∧ wf_pres (ppt_file_after (sync_excel_to_ppt excel_df ppt_file add_missing_tools)).
Proof.
  intros Hwf.
  destruct (run_steps add_missing_tools excel_df (initial_state ppt_file) Hwf
              (initial_state_inv ppt_file)) as (st & Hrun & Hwf' & _).
  exists st, (summary_of excel_df st). rewrite final_spec, Hrun. split; [done|].
  split; [done|]. unfold sync_excel_to_ppt. rewrite Hrun.
  by destruct (0 <? updates_made st)%nat.
Qed.



Lemma process_row_not_found add excel_row (st st' : State) :
  strip (Tool excel_row) ≠ "" → wf_pres (presentation st) →
  process_row add excel_row st = Some st' →
  not_found_before_adding st'
  = (not_found_before_adding st
     + if decide (hits (strip (Tool excel_row)) (doc_entries (presentation st)) = [])
       then 1 else 0)%nat.
Proof.
  intros Hk Hwf H. unfold process_row in H. rewrite decide_False in H by done.
  destruct (scan_slides_spec excel_row (strip (Tool excel_row)) (presentation st) Hwf 0%nat
              (target st)) as (pres' & Hrun & _).
  rewrite Hrun in H. cbn [mbind option_bind] in H.
  destruct (update_first excel_row (strip (Tool excel_row)) (doc_entries (presentation st))).2
    as [n|] eqn:Hf.
  - injection H as <-. simpl. rewrite decide_False; [lia|].
    intros E. apply (update_first_not_found excel_row) in E. congruence.
  - rewrite decide_True by (by apply (update_first_not_found excel_row)).
    destruct (add && _).
    + by apply append_missing_counters in H as (_ & _ & ->).
    + by injection H as <-.
Qed.

Lemma lacks_tools (es es' : list Entry) excel_row :
  e_tool <$> es' = e_tool <$> es → lacks es excel_row ↔ lacks es' excel_row.
Proof.
  intros H. unfold lacks. split; intros [Hk Hh]; (split; [done|]).
  - by apply (hits_nil_tools _ es).
  - by apply (hits_nil_tools _ es').
Qed.

Lemma update_only_not_found (excel_df : list ExcelRow) :
  ∀ st st',
  wf_pres (presentation st) → target_inv st →
  for_in excel_df (process_row false) st = Some st' →
  not_found_before_adding st'
  = (not_found_before_adding st
     + length (filter (lacks (doc_entries (presentation st))) excel_df))%nat.
Proof.
  induction excel_df as [|rec todo IH]; intros st st' Hwf Hinv H.
  { injection H as <-. simpl. lia. }
  destruct (decide (strip (Tool rec) = "")) as [Hempty|Hkey].
  - cbn [for_in] in H. rewrite process_row_skip in H by done. cbn [mbind option_bind] in H.
    rewrite (IH st st' Hwf Hinv H). rewrite filter_cons_False; [done|].
    by intros [? _].
  - destruct (process_row_spec false rec st Hkey Hwf Hinv) as (st1 & Hrun1 & Hwf1 & Hinv1 & Hstep).
    fold (step false rec st st1) in Hstep.
    cbn [for_in] in H. rewrite Hrun1 in H. cbn [mbind option_bind] in H.
    rewrite (IH st1 st' Hwf1 Hinv1 H).
    rewrite (process_row_not_found false rec st st1 Hkey Hwf Hrun1).
    destruct (step_tools false rec st st1 Hstep) as (_ & _ & _ & _ & Hsk).
    destruct (Hsk eq_refl) as [_ Ht].
    rewrite (list_filter_iff (lacks (doc_entries (presentation st1)))
               (lacks (doc_entries (presentation st))))
      by (intros r; symmetry; by apply lacks_tools).
    destruct (decide (hits (strip (Tool rec)) (doc_entries (presentation st)) = [])) as [E|E].
    + rewrite filter_cons_True by done. simpl. lia.
    + rewrite filter_cons_False; [lia|]. by intros [_ ?].
Qed.

(** X5.  Without [add_missing_tools] a run only overwrites cells of rows it
    finds: slides, shapes, geometry, column widths, the number and length
    of the rows of every table, the header texts and the tool names stay
    as they were; no row is added; and the records reported as not found
    are exactly the records with a key that no entry of the initial
    document carries. *)
Theorem update_only_keeps_structure (excel_df : list ExcelRow) (ppt_file : Presentation) :
  wf_pres ppt_file →
  ∃ st summary,
    final (sync_excel_to_ppt excel_df ppt_file false) = Some (st, summary)
    ∧ slide_skel <$> presentation st = slide_skel <$> ppt_file
    ∧ row_counts (presentation st) = row_counts ppt_file
    ∧ e_tool <$> doc_entries (presentation st) = e_tool <$> doc_entries ppt_file
    ∧ sum_rows_added summary = 0%nat
    ∧ sum_not_found summary = length (filter (lacks (doc_entries ppt_file)) excel_df).
Proof.
  intros Hwf.
  destruct (run_steps false excel_df (initial_state ppt_file) Hwf (initial_state_inv ppt_file))
    as (st & Hrun & _ & _ & _ & _ & _ & Hsk).
  destruct (Hsk eq_refl) as [Hskel Htools].
  exists st, (summary_of excel_df st). rewrite final_spec, Hrun.
  split; [done|]. split; [done|].
  split. { by apply row_counts_skel. }
  split; [done|].
  split.
  { destruct (run_counters false excel_df _ _ Hrun) as (_ & _ & _ & _ & _ & Hr).
    simpl. by rewrite (Hr eq_refl). }
  simpl. by rewrite (update_only_not_found excel_df (initial_state ppt_file) st Hwf
                       (initial_state_inv ppt_file) Hrun).
Qed.

(** ** A search that finds nothing *)

Lemma update_first_app_None excel_row name es1 es2 :
  (update_first excel_row name (es1 ++ es2)).2 = None →
  (update_first excel_row name es1).2 = None ∧ (update_first excel_row name es2).2 = None.
Proof.
  rewrite update_first_app. by destruct (update_first excel_row name es1).2.
Qed.

Lemma scan_shapes_same excel_row tool_name slide_idx (shs : list Shape) :
  Forall wf_shape shs → ∀ j tgt,
  (update_first excel_row tool_name (shapes_entries shs)).2 = None →
  is_Some tgt ∨ first_qual_shape j shs = None →
  scan_shapes excel_row tool_name slide_idx j shs tgt = Some (shs, tgt, None).
Proof.
  induction 1 as [|sh rest Hsh Hrest IH]; intros j tgt Hnf Hcase; [done|].
  rewrite shapes_entries_cons in Hnf. apply update_first_app_None in Hnf as [Hnf1 Hnf2].
  destruct sh as [tag|g t].
  - cbn [scan_shapes]. rewrite IH; [done|done|]. destruct Hcase; [by left|by right].
  - simpl in Hsh. cbn [shape_entries] in Hnf1. destruct (verdict t) as [[names ci]|] eqn:Hv.
    + destruct tgt as [tg|].
      2:{ destruct Hcase as [[? ?]|Hq]; [done|]. cbn [first_qual_shape] in Hq.
          by rewrite Hv in Hq. }
      rewrite (scan_shapes_qualifying _ _ _ _ _ t rest (Some tg) names ci Hsh Hv). cbn zeta.
      destruct (synced_table_facts t names ci (Some tg) excel_row tool_name Hsh Hv)
        as (_ & Hent & _ & _).
      cbn [seen_table seen_target] in *.
      destruct (update_first excel_row tool_name (table_entries t)) as [es' f].
      injection Hent as _ Hent2. simpl in Hnf1. subst f. rewrite Hent2.
      rewrite IH; [done|done|]. left. by eexists.
    + cbn [scan_shapes]. rewrite (thi_wf t Hsh), Hv. cbn [mbind option_bind].
      rewrite IH; [done|done|]. destruct Hcase as [?|Hq]; [by left|right].
      cbn [first_qual_shape] in Hq. by rewrite Hv in Hq.
Qed.

Lemma scan_slides_same excel_row tool_name (pres : Presentation) :
  wf_pres pres → ∀ i tgt,
  (update_first excel_row tool_name (doc_entries pres)).2 = None →
  is_Some tgt ∨ first_qual_doc i pres = None →
  scan_slides excel_row tool_name i pres tgt = Some (pres, tgt, None).
Proof.
  induction 1 as [|s rest Hs Hrest IH]; intros i tgt Hnf Hcase; [done|].
  rewrite doc_entries_cons in Hnf. apply update_first_app_None in Hnf as [Hnf1 Hnf2].
  cbn [scan_slides].
  rewrite (scan_shapes_same excel_row tool_name i (shapes s) Hs 0%nat tgt Hnf1).
  - cbn [mbind option_bind]. rewrite IH; [by destruct s|done|].
    destruct Hcase as [?|Hq]; [by left|right]. cbn [first_qual_doc] in Hq.
    by destruct (first_qual_shape 0 (shapes s)).
  - destruct Hcase as [?|Hq]; [by left|right]. cbn [first_qual_doc] in Hq.
    by destruct (first_qual_shape 0 (shapes s)).
Qed.

Lemma unmatched_step (add_missing_tools : bool) (excel_row : ExcelRow) (st : State) :
  wf_pres (presentation st) → target_inv st →
  strip (Tool excel_row) ≠ "" →
  hits (strip (Tool excel_row)) (doc_entries (presentation st)) = [] →
  (add_missing_tools = false ∧ is_Some (target st)) ∨ no_qual (presentation st) →
  process_row add_missing_tools excel_row st
  = Some {| presentation := presentation st;
            updates_made := updates_made st;
            rows_added := rows_added st;
            not_found_before_adding := (not_found_before_adding st + 1)%nat;
            target := target st |}.
Proof.
  intros Hwf Hinv Hkey Hh Hcase. unfold process_row. rewrite decide_False by done.
  apply (update_first_not_found excel_row) in Hh.
  assert (is_Some (target st) ∨ first_qual_doc 0 (presentation st) = None) as Hc.
  { destruct Hcase as [[_ ?]|?]; [by left|by right]. }
  rewrite (scan_slides_same excel_row _ _ Hwf 0%nat (target st) Hh Hc).
  cbn [mbind option_bind].
  destruct Hcase as [[-> _]|Hnq]; [done|].
  assert (target st = None) as Ht.
  { unfold target_inv in Hinv. destruct (target st) as [tg|]; [|done].
    by apply target_ok_not_no_qual in Hinv. }
  rewrite Ht. simpl. by rewrite andb_false_r.
Qed.

(** X6.  A record that is not found and not appended changes nothing once
    the target is cached (or when no table qualifies): the document, with
    the style of every cell, and the cached target are returned as they
    were; only the not-found counter moves. *)
Theorem unmatched_record_changes_nothing (add_missing_tools : bool) (excel_row : ExcelRow)
    (st : State) :
  wf_pres (presentation st) → target_inv st →
  strip (Tool excel_row) ≠ "" →
  hits (strip (Tool excel_row)) (doc_entries (presentation st)) = [] →
  (add_missing_tools = false ∧ is_Some (target st)) ∨ no_qual (presentation st) →
  process_row add_missing_tools excel_row st
  = Some {| presentation := presentation st;
            updates_made := updates_made st;
            rows_added := rows_added st;
            not_found_before_adding := (not_found_before_adding st + 1)%nat;
            target := target st |}.
Proof. apply unmatched_step. Qed.

Lemma run_no_qual (add : bool) (excel_df : list ExcelRow) :
  ∀ st,
  wf_pres (presentation st) → no_qual (presentation st) → target st = None →
  for_in excel_df (process_row add) st
  = Some {| presentation := presentation st;
            updates_made := updates_made st;
            rows_added := rows_added st;
            not_found_before_adding := (not_found_before_adding st + length (keys excel_df))%nat;
            target := None |}.
Proof.
  induction excel_df as [|rec todo IH]; intros st Hwf Hnq Ht.
  { simpl. destruct st. simpl in *. subst. do 2 f_equal. lia. }
  cbn [for_in]. rewrite length_keys_cons.
  destruct (decide (strip (Tool rec) = "")) as [Hempty|Hkey].
  - rewrite process_row_skip by done. cbn [mbind option_bind]. by rewrite IH.
  - rewrite (unmatched_step add rec st); [|done| |done| |by right].
    2:{ unfold target_inv. by rewrite Ht. }
    2:{ by rewrite (no_qual_entries _ Hnq). }
    cbn [mbind option_bind]. rewrite IH; [|done|done|done].
    simpl. do 2 f_equal. lia.
Qed.

(** X7.  A document without a qualifying table: nothing is updated and
    nothing can be appended, every record with a key counts as not found,
    the document is returned exactly as it was loaded (no header is
    restyled), and the file is not saved. *)
Theorem run_without_qualifying_table (excel_df : list ExcelRow) (ppt_file : Presentation)
    (add_missing_tools : bool) :
  wf_pres ppt_file → no_qual ppt_file →
  ∃ st summary,
    final (sync_excel_to_ppt excel_df ppt_file add_missing_tools) = Some (st, summary)
    ∧ presentation st = ppt_file ∧ target st = None
    ∧ sum_updates_made summary = 0%nat ∧ sum_rows_added summary = 0%nat
    ∧ sum_not_found summary = length (keys excel_df)
    ∧ save_calls (sync_excel_to_ppt excel_df ppt_file add_missing_tools) = 0%nat
    ∧ ppt_file_after (sync_excel_to_ppt excel_df ppt_file add_missing_tools) = ppt_file.
Proof.
  intros Hwf Hnq.
  pose proof (run_no_qual add_missing_tools excel_df (initial_state ppt_file) Hwf Hnq eq_refl)
    as Hrun.
  eexists _, _. rewrite final_spec, Hrun. split; [done|].
  unfold sync_excel_to_ppt. rewrite Hrun. simpl. done.
Qed.

(** ** The document after a run *)



Lemma cons_eq_inv {A : Type} (x y : A) (l k : list A) : x :: l = y :: k → x = y ∧ l = k.
Proof. by intros [= -> ->]. Qed.







(** ** The Header Matcher on any table *)

Lemma index_of_first (x : string) (l : list string) i :
  index_of x l = Some i → ∀ j, j < i → l !! j ≠ Some x.
Proof.
  revert i. induction l as [|y l IH]; intros i; simpl; [done|].
  destruct (decide (y = x)) as [->|Hne].
  - intros [= <-] j Hj. lia.
  - destruct (index_of x l) as [k|] eqn:Hk; simpl; [|done]. intros [= <-] [|j] Hj; simpl.
    + congruence.
    + apply (IH k eq_refl). lia.
Qed.

Lemma idx_map_other names col : col ∉ required_ppt_cols → idx_map names !! col = None.
Proof.
  intros Hnot.
  assert (idx_map names
          = <["AI Tool" := col_idx names "AI Tool"]>
              (<["Tool Description" := col_idx names "Tool Description"]>
                (<["Requestor" := col_idx names "Requestor"]>
                  (<["Current State" := col_idx names "Current State"]> ∅)))) as ->
    by reflexivity.
  unfold required_ppt_cols in Hnot.
  repeat (apply not_elem_of_cons in Hnot as [? Hnot]).
  by repeat (rewrite lookup_insert_ne by done).
Qed.

Lemma header_names_lookup (t : Table) (M : nat) hdrs :
  header_names t M = Some hdrs →
  length hdrs = M
  ∧ ∀ c, c < M → ∃ cl, cell t 0 c = Some cl ∧ hdrs !! c = Some (strip (text cl)).
Proof.
  unfold header_names. intros H. pose proof (length_mapM _ _ _ H) as Hlen.
  rewrite length_seq in Hlen. split; [done|].
  intros c Hc. apply mapM_Some_1 in H.
  destruct (Forall2_lookup_l _ _ _ c c H) as (h & Hh & Hf).
  { by apply lookup_seq. }
  destruct (cell t 0 c) as [cl|]; simpl in Hf; [|done]. injection Hf as <-. by exists cl.
Qed.

Lemma thi_qualifying (t : Table) hdrs idx :
  _table_headers_and_indices t = Some (Some (hdrs, idx)) →
  ∃ M, len_columns t = Some M ∧ 0 < M ∧ 0 < length (rows t)
       ∧ header_names t M = Some hdrs ∧ has_required hdrs = true ∧ idx = idx_map hdrs.
Proof.
  unfold _table_headers_and_indices. intros H.
  destruct (len_columns t) as [M|]; [|done]. exists M.
  destruct ((length (rows t) =? 0)%nat || (M =? 0)%nat) eqn:Hz; [done|].
  apply orb_false_iff in Hz as [Hr Hm]. apply Nat.eqb_neq in Hr, Hm.
  destruct (header_names t M) as [names|]; [|done].
  cbn -[forallb mapM list_to_map] in H. fold (has_required names) in H.
  destruct (has_required names) eqn:Hreq; [|done].
  assert (mapM (λ col, i ← index_of col names; Some (col, i)) required_ppt_cols
          = Some ((λ col, (col, col_idx names col)) <$> required_ppt_cols)) as Hm'.
  { apply mapM_Some. apply Forall2_fmap_r. apply Forall_Forall2_diag.
    apply Forall_forall. intros col Hin.
    by destruct (col_idx_lookup names col Hreq Hin) as [-> _]. }
  rewrite Hm' in H. cbn -[list_to_map] in H. injection H as <- <-.
  split; [done|]. split; [lia|]. split; [lia|]. done.
Qed.

(** X9.  What a qualifying verdict holds.  The header list is the trimmed
    text of the cells of row 0, one per column of the grid; each of the
    four required names is mapped to the first column whose trimmed header
    is exactly that name (case-sensitive), and no other name is mapped. *)
Theorem qualifying_indices_are_first_columns (t : Table) (hdrs : list string)
    (idx : gmap string nat) :
  _table_headers_and_indices t = Some (Some (hdrs, idx)) →
  ∃ M, len_columns t = Some M ∧ 0 < M ∧ 0 < length (rows t) ∧ length hdrs = M
       ∧ (∀ c, c < M → ∃ cl, cell t 0 c = Some cl ∧ hdrs !! c = Some (strip (text cl)))
       ∧ (∀ col, col ∈ required_ppt_cols →
            ∃ i, idx !! col = Some i ∧ i < M ∧ hdrs !! i = Some col
                 ∧ ∀ j, j < i → hdrs !! j ≠ Some col)
       ∧ (∀ col, col ∉ required_ppt_cols → idx !! col = None).
Proof.
  intros H. destruct (thi_qualifying t hdrs idx H) as (M & Hc & HM & HN & Hh & Hreq & ->).
  destruct (header_names_lookup t M hdrs Hh) as [Hlen Hcells].
  exists M. split; [done|]. split; [done|]. split; [done|]. split; [done|].
  split; [done|]. split.
  - intros col Hin. exists (col_idx hdrs col).
    destruct (col_idx_lookup hdrs col Hreq Hin) as [Hi Hl].
    split; [by apply idx_map_lookup|].
    split; [apply lookup_lt_Some in Hl; lia|]. split; [done|].
    by apply index_of_first.
  - apply idx_map_other.
Qed.

Lemma header_names_short (t : Table) (M : nat) hdr body :
  rows t = hdr :: body → length hdr < M → header_names t M = None.
Proof.
  intros Hrows Hlen. destruct (header_names t M) as [hdrs|] eqn:Hh; [|done].
  destruct (header_names_lookup t M hdrs Hh) as [_ Hcells].
  destruct (Hcells (length hdr) Hlen) as (cl & Hcl & _).
  unfold cell in Hcl. rewrite Hrows in Hcl. simpl in Hcl.
  by rewrite lookup_ge_None_2 in Hcl.
Qed.

Lemma thi_short (t : Table) (M : nat) hdr body :
  len_columns t = Some M → rows t = hdr :: body → length hdr < M →
  _table_headers_and_indices t = None.
Proof.
  intros Hc Hrows Hlen. unfold _table_headers_and_indices. rewrite Hc.
  rewrite (header_names_short t M hdr body Hrows Hlen). rewrite Hrows. simpl.
  by destruct M; [lia|].
Qed.

Lemma scan_shapes_short excel_row tool_name slide_idx (tags : list nat) g (t : Table) rest :
  _table_headers_and_indices t = None →
  ∀ j tgt,
  scan_shapes excel_row tool_name slide_idx j ((OtherShape <$> tags) ++ GraphicFrame g t :: rest)
    tgt = None.
Proof.
  intros Hthi. induction tags as [|tag tags IH]; intros j tgt.
  - cbn [fmap list_fmap app scan_shapes]. by rewrite Hthi.
  - cbn [fmap list_fmap app scan_shapes]. fold (fmap (M := list) OtherShape tags).
    by rewrite IH.
Qed.

Lemma run_aborts (add : bool) (excel_df : list ExcelRow) (st : State) :
  (∀ r, strip (Tool r) ≠ "" → process_row add r st = None) →
  (∃ r, r ∈ excel_df ∧ strip (Tool r) ≠ "") →
  for_in excel_df (process_row add) st = None.
Proof.
  intros Hfail. induction excel_df as [|rec todo IH]; intros (r & Hr & Hk).
  { by apply elem_of_nil in Hr. }
  cbn [for_in]. destruct (decide (strip (Tool rec) = "")) as [Hempty|Hkey].
  - rewrite process_row_skip by done. cbn [mbind option_bind]. apply IH.
    apply elem_of_cons in Hr as [->|Hr]; [done|]. by exists r.
  - by rewrite Hfail.
Qed.

(** X10.  The guard of the Header Matcher covers the two [len] calls only.
    A table whose header row has fewer cells than the grid has columns is
    not reported as "not qualifying": reading its header raises, in the
    search loop and in the loop that refreshes the cached shape alike.
    When such a table is the first table of the first slide, every run
    over a dataset that holds a record with a key aborts: nothing is saved
    and the file stays as it was. *)
Theorem short_header_row_is_fatal (t : Table) (M : nat) (hdr : list Cell)
    (body : list (list Cell)) :
  len_columns t = Some M → rows t = hdr :: body → length hdr < M →
  _table_headers_and_indices t = None
  ∧ (∀ j g rest, find_refreshed_shape j (GraphicFrame g t :: rest) = None)
  ∧ (∀ excel_df lay tags g rest others add_missing_tools,
       (∃ r, r ∈ excel_df ∧ strip (Tool r) ≠ "") →
       let ppt_file :=
         {| slide_layout := lay;
            shapes := (OtherShape <$> tags) ++ GraphicFrame g t :: rest |} :: others in
       let out := sync_excel_to_ppt excel_df ppt_file add_missing_tools in
       final out = None ∧ save_calls out = 0%nat ∧ ppt_file_after out = ppt_file).
Proof.
  intros Hc Hrows Hlen. pose proof (thi_short t M hdr body Hc Hrows Hlen) as Hthi.
  split; [done|]. split.
  { intros. cbn [find_refreshed_shape]. by rewrite Hthi. }
  intros excel_df lay tags g rest others add Hkeyed ppt_file out.
  assert (for_in excel_df (process_row add) (initial_state ppt_file) = None) as Hrun.
  { apply run_aborts; [|done]. intros r Hk. unfold process_row.
    rewrite decide_False by done. cbn [initial_state presentation target].
    unfold ppt_file. cbn [scan_slides shapes].
    by rewrite (scan_shapes_short r _ 0 tags g t rest Hthi). }
  unfold out, sync_excel_to_ppt. by rewrite Hrun.
Qed.

(** ** What a rebuild does besides adding the row *)



(** ** The row an append writes *)



Lemma strip_header_table g (t : Table) M :
  (λ cl, strip (text cl)) <$> hd [] (rows (header_table g t M))
  = (λ cl, strip (text cl)) <$> hd [] (rows t).
Proof.
  unfold header_table. cbn [rows hd]. rewrite <- list_fmap_compose.
  apply list_fmap_ext. intros c cl _. simpl. by rewrite ?text_styled_cell, strip_idemp.
Qed.

Lemma wf_after_rebuild (shs : list Shape) i g (t : Table) N M vals :
  Forall wf_shape shs → table_dims t N M → 0 < N →
  Forall wf_shape (delete i shs ++ [GraphicFrame g (rebuilt_table g t M vals)]).
Proof.
  intros Hwf Hdims HN. apply Forall_app. split; [by apply Forall_delete|].
  apply Forall_singleton. simpl. eapply table_dims_wf. by apply rebuilt_table_dims.
Qed.

(** The append on a table with room: the rebuild replaces the target
    table on its slide. *)
Lemma append_in_place (st : State) (tg : Target) (slide : Slide) g (t : Table) N M
    tool_name excel_row :
  target st = Some tg →
  presentation st !! target_slide tg = Some slide →
  shapes slide !! target_table tg = Some (GraphicFrame g t) →
  target_shape tg = Attached (target_table tg) →
  table_dims t N M → 0 < N → 0 < M →
  (Z.of_nat N - 1 < MAX_BODY_ROWS)%Z →
  Forall wf_shape (shapes slide) →
  let vals := build_values_by_header ((λ cl, strip (text cl)) <$> hd [] (rows t))
                tool_name excel_row in
  let slide' := {| slide_layout := slide_layout slide;
                   shapes := delete (target_table tg) (shapes slide)
                             ++ [GraphicFrame g (rebuilt_table g t M vals)] |} in
  append_missing st tool_name excel_row
  = Some {| presentation := <[target_slide tg := slide']> (presentation st);
            updates_made := (updates_made st + 4)%nat;
            rows_added := (rows_added st + 1)%nat;
            not_found_before_adding := not_found_before_adding st;
            target := Some {| target_slide := target_slide tg;
                              target_table := (length (shapes slide) - 1)%nat;
                              target_shape :=
                                match first_qual_shape 0 (shapes slide') with
                                | Some j => Attached j
                                | None => Detached (GraphicFrame g t)
                                end |} |}.
Proof.
  intros Htg Hs Hsh Href Hdims HN HM Hroom Hwf vals slide'.
  assert (length (rows t) = N) as Hn by (by destruct Hdims as (_ & ? & _)).
  assert (table_at slide (target_table tg) = Some t) as Hat.
  { unfold table_at. by rewrite Hsh. }
  unfold append_missing.
  rewrite (ensure_capacity_keeps st tg slide t Htg Hs Hat) by (by rewrite Hn).
  cbn [mbind option_bind]. rewrite Htg. cbn [mbind option_bind].
  unfold target_table_obj. rewrite Hs. cbn [mbind option_bind]. rewrite Hat.
  cbn [mbind option_bind]. pose proof Hdims as (Hc & _ & Hall). rewrite Hc.
  cbn [mbind option_bind].
  destruct (rows t) as [|hdr body] eqn:Hrows; [simpl in Hn; lia|].
  rewrite (header_names_dims t N M hdr body Hdims Hrows). cbn [mbind option_bind].
  rewrite Href. cbn [deref_shape]. rewrite Hsh. cbn [mbind option_bind].
  cbn [hd] in vals. fold vals.
  rewrite (rebuild_spec slide (target_table tg) g t N M vals Hsh Hdims HN HM).
  cbn [mbind option_bind]. fold slide'.
  rewrite (find_refreshed_wf (shapes slide') 0).
  2:{ unfold slide'. cbn [shapes]. by eapply wf_after_rebuild. }
  done.
Qed.

(** The append on a full table: the rebuild replaces the header-only
    table of the new slide. *)
Lemma append_paginated (st : State) (tg : Target) (slide : Slide) g (t : Table) N M
    tool_name excel_row :
  target st = Some tg →
  presentation st !! target_slide tg = Some slide →
  shapes slide !! target_table tg = Some (GraphicFrame g t) →
  target_shape tg = Attached (target_table tg) →
  table_dims t N M → 0 < N → 0 < M →
  (MAX_BODY_ROWS <= Z.of_nat N - 1)%Z →
  let vals := build_values_by_header ((λ cl, strip (text cl)) <$> hd [] (rows t))
                tool_name excel_row in
  let p := length (layout_placeholders (slide_layout slide)) in
  let slide2 := {| slide_layout := slide_layout slide;
                   shapes := (OtherShape <$> layout_placeholders (slide_layout slide))
                             ++ [GraphicFrame g (rebuilt_table g (header_table g t M) M vals)] |} in
  append_missing st tool_name excel_row
  = Some {| presentation := presentation st ++ [slide2];
            updates_made := (updates_made st + 4)%nat;
            rows_added := (rows_added st + 1)%nat;
            not_found_before_adding := not_found_before_adding st;
            target := Some {| target_slide := length (presentation st);
                              target_table := p;
                              target_shape :=
                                match first_qual_shape 0 (shapes slide2) with
                                | Some j => Attached j
                                | None => Detached (GraphicFrame g (header_table g t M))
                                end |} |}.
Proof.
  intros Htg Hs Hsh Href Hdims HN HM Hfull vals p slide2.
  assert (length (rows t) = N) as Hn by (by destruct Hdims as (_ & ? & _)).
  set (ov := overflow_slide slide g t M).
  pose proof (header_table_dims g t N M Hdims HN) as Hhd.
  assert (shapes ov !! p = Some (GraphicFrame g (header_table g t M))) as Hov.
  { unfold ov, overflow_slide. simpl. rewrite lookup_app_r; rewrite length_fmap; [|done].
    by rewrite Nat.sub_diag. }
  assert (length (shapes ov) = S p) as Hlen.
  { unfold ov, overflow_slide. simpl. rewrite length_app, length_fmap. simpl. unfold p. lia. }
  assert (delete p (shapes ov) = OtherShape <$> layout_placeholders (slide_layout slide))
    as Hdel.
  { unfold ov, overflow_slide. cbn [shapes]. unfold p.
    rewrite <- (length_fmap OtherShape). rewrite delete_middle. by rewrite app_nil_r. }
  assert (Forall wf_shape (shapes slide2)) as Hwf2.
  { simpl. apply Forall_app. split.
    - apply Forall_fmap. by apply Forall_true.
    - apply Forall_singleton. simpl. eapply table_dims_wf.
      by apply (rebuilt_table_dims g (header_table g t M) 1 M); [|lia]. }
  unfold append_missing.
  rewrite (ensure_capacity_paginates st tg slide t g t N M); try done; cycle 1.
  { unfold table_at. by rewrite Hsh. }
  { by rewrite Hn. }
  { by rewrite Href. }
  cbn [mbind option_bind target presentation target_slide target_table target_shape].
  unfold target_table_obj. cbn [target_slide target_table].
  rewrite lookup_app_r by lia. rewrite Nat.sub_diag. cbn [lookup list_lookup mbind option_bind].
  fold ov. unfold table_at. fold p. rewrite Hov.
  cbn [mbind option_bind shape_table fmap option_fmap option_map snd].
  pose proof Hhd as (Hc1 & _ & _). rewrite Hc1. cbn [mbind option_bind].
  rewrite (header_names_row (header_table g t M) M
             ((λ cl, styled_cell true (strip (text cl))) <$> hd [] (rows t)) []); [|done|];
    cycle 1.
  { rewrite length_fmap. destruct Hdims as (_ & Hn' & Hall).
    destruct (rows t) as [|hdr body]; [simpl in Hn'; lia|]. simpl.
    by apply Forall_cons in Hall as [? _]. }
  cbn [mbind option_bind deref_shape]. rewrite Hov. cbn [mbind option_bind].
  assert ((λ cl, strip (text cl)) <$> ((λ cl, styled_cell true (strip (text cl)))
                                         <$> hd [] (rows t))
          = (λ cl, strip (text cl)) <$> hd [] (rows t)) as Hnames
    by apply (strip_header_table g t M).
  rewrite Hnames. fold vals.
  rewrite (rebuild_spec ov p g (header_table g t M) 1 M vals Hov); [|exact Hhd|lia|done].
  cbn [mbind option_bind]. rewrite Hdel.
  change (slide_layout ov) with (slide_layout slide). fold slide2.
  rewrite (find_refreshed_wf _ 0 Hwf2). cbn [mbind option_bind].
  rewrite insert_app_r_alt by lia. rewrite Nat.sub_diag. cbn [insert list_insert].
  rewrite Hlen. replace (S p - 1) with p by lia. done.
Qed.

Lemma append_target_table (st : State) (tg : Target) (slide : Slide) g (t : Table) N M
    tool_name excel_row :
  target st = Some tg →
  presentation st !! target_slide tg = Some slide →
  shapes slide !! target_table tg = Some (GraphicFrame g t) →
  target_shape tg = Attached (target_table tg) →
  table_dims t N M → 0 < N → 0 < M →
  Forall wf_shape (shapes slide) →
  let vals := build_values_by_header ((λ cl, strip (text cl)) <$> hd [] (rows t))
                tool_name excel_row in
  ∃ st' tg',
    append_missing st tool_name excel_row = Some st'
    ∧ target st' = Some tg'
    ∧ target_table_obj (presentation st') tg'
      = Some (rebuilt_table g (receiving_table g t M) M vals)
    ∧ length (presentation st')
      = (length (presentation st)
         + if decide (MAX_BODY_ROWS ≤ Z.of_nat N - 1)%Z then 1 else 0)%nat.
Proof.
  intros Htg Hs Hsh Href Hdims HN HM Hwf vals.
  assert (length (rows t) = N) as Hn by (by destruct Hdims as (_ & ? & _)).
  unfold receiving_table. rewrite Hn.
  destruct (decide (MAX_BODY_ROWS ≤ Z.of_nat N - 1)%Z) as [Hfull|Hroom].
  - eexists _, _. split; [by eapply append_paginated|]. split; [done|].
    cbn [presentation target_slide target_table]. unfold target_table_obj.
    cbn [target_slide target_table].
    rewrite lookup_app_r by lia. rewrite Nat.sub_diag. cbn [lookup list_lookup mbind option_bind].
    split; [|rewrite length_app; simpl; lia].
    unfold table_at. cbn [shapes].
    rewrite lookup_app_r; rewrite length_fmap; [|lia]. by rewrite Nat.sub_diag.
  - eexists _, _. split; [eapply append_in_place; try done; lia|]. split; [done|].
    cbn [presentation target_slide target_table]. unfold target_table_obj.
    cbn [target_slide target_table].
    rewrite list_lookup_insert_eq by (by eapply lookup_lt_Some).
    cbn [mbind option_bind]. split; [|rewrite length_insert; lia].
    unfold table_at. cbn [shapes].
    assert (length (delete (target_table tg) (shapes slide)) = length (shapes slide) - 1)
      as Hdl by (apply length_delete; by eexists).
    rewrite lookup_app_r by lia. rewrite Hdl, Nat.sub_diag. done.
Qed.

(** X12.  Where an appended row lands.  When the cached shape is the frame
    of the cached table, the table that is the target after the append
    holds the appended row as its last row and has at most
    [MAX_BODY_ROWS] body rows: it is the old target with one more row when
    the old target had room, and otherwise a two-row table on a new last
    slide. *)
Theorem appended_row_lands_within_capacity (st : State) (tg : Target) (slide : Slide)
    (g : Geometry) (t : Table) (N M : nat) (tool_name : string) (excel_row : ExcelRow) :
  target st = Some tg →
  presentation st !! target_slide tg = Some slide →
  shapes slide !! target_table tg = Some (GraphicFrame g t) →
  target_shape tg = Attached (target_table tg) →
  table_dims t N M → 0 < N → 0 < M →
  Forall wf_shape (shapes slide) →
  ∃ st' tg' tt',
    append_missing st tool_name excel_row = Some st'
    ∧ target st' = Some tg'
    ∧ target_table_obj (presentation st') tg' = Some tt'
    ∧ length (rows tt')
      = (if decide (MAX_BODY_ROWS ≤ Z.of_nat N - 1)%Z then 2 else N + 1)%nat
    ∧ (Z.of_nat (length (rows tt')) - 1 ≤ MAX_BODY_ROWS)%Z
    ∧ length (presentation st')
      = (length (presentation st)
         + if decide (MAX_BODY_ROWS ≤ Z.of_nat N - 1)%Z then 1 else 0)%nat.
Proof.
  intros Htg Hs Hsh Href Hdims HN HM Hwf.
  destruct (append_target_table st tg slide g t N M tool_name excel_row)
    as (st' & tg' & Happ & Htg' & Htt & Hlen); try done.
  eexists st', tg', _. split; [done|]. split; [done|]. split; [done|].
  assert (length (rows t) = N) as Hn by (by destruct Hdims as (_ & ? & _)).
  unfold receiving_table. rewrite Hn.
  destruct (decide (MAX_BODY_ROWS ≤ Z.of_nat N - 1)%Z) as [Hfull|Hroom].
  - destruct (rebuilt_table_dims g (header_table g t M) 1 M
                (build_values_by_header ((λ cl, strip (text cl)) <$> hd [] (rows t))
                   tool_name excel_row)) as (_ & Hr & _).
    { by eapply header_table_dims. } { lia. }
    rewrite Hr. unfold MAX_BODY_ROWS. split; [done|]. split; [lia|done].
  - destruct (rebuilt_table_dims g t N M
                (build_values_by_header ((λ cl, strip (text cl)) <$> hd [] (rows t))
                   tool_name excel_row) Hdims HN) as (_ & Hr & _).
    rewrite Hr. split; [done|]. split; [lia|done].
Qed.


(** ** Reading the dataset *)

Lemma kept_iff (row : list (option Value)) : kept row ↔ ∃ c v, row !! c = Some (Some v).
Proof.
  unfold kept, any_not_none. rewrite existsb_exists. split.
  - intros (cell & Hin & Hc). apply bool_decide_eq_true in Hc.
    apply list_elem_of_In, list_elem_of_lookup in Hin as [c Hl].
    destruct cell as [v|]; [|done]. by exists c, v.
  - intros (c & v & Hl). exists (Some v). split.
    + apply list_elem_of_In. by eapply list_elem_of_lookup_2.
    + by apply bool_decide_eq_true.
Qed.

Lemma read_rows_body (rest : list (list (option Value))) :
  ∀ k headers excel_data,
  0 < k →
  fold_left read_row (zip (seq k (length rest)) rest) (headers, excel_data)
  = (headers, excel_data ++ ((λ row : list (option Value), cell_str <$> row) <$> filter kept rest)).
Proof.
  induction rest as [|row rest IH]; intros k headers excel_data Hk.
  { simpl. by rewrite app_nil_r. }
  cbn [length seq zip zip_with fold_left read_row].
  assert ((k =? 0)%nat = false) as -> by (apply Nat.eqb_neq; lia).
  destruct (any_not_none row) eqn:Hany.
  - rewrite IH by lia. rewrite filter_cons_True by done.
    rewrite fmap_cons. by rewrite <- app_assoc.
  - rewrite IH by lia. rewrite filter_cons_False; [done|].
    unfold kept. by rewrite Hany.
Qed.

(** X14.  What the loading loop reads.  The first row of the sheet is the
    header row whatever it holds; each later row is kept, in order, when
    at least one of its cells is not [None], and dropped otherwise.  Every
    cell read is a string of the width-preserving row: the [str] of a
    truthy value, and the empty string for [None] and for any falsy value
    (a zero, [False], an empty text). *)
Theorem loading_keeps_nonblank_rows (hdr : list (option Value))
    (rest : list (list (option Value))) :
  read_rows [] = ([], [])
  ∧ read_rows (hdr :: rest)
    = (cell_str <$> hdr, (λ row : list (option Value), cell_str <$> row) <$> filter kept rest)
  ∧ (∀ row : list (option Value), kept row ↔ ∃ c v, row !! c = Some (Some v))
  ∧ (∀ (row : list (option Value)) (c : nat), (cell_str <$> row) !! c
              = (λ cell, match cell with
                         | Some v => if truthy v then str v else ""
                         | None => ""
                         end) <$> row !! c).
Proof.
  split; [done|]. split.
  - unfold read_rows. cbn [length seq zip zip_with fold_left read_row Nat.eqb].
    by rewrite (read_rows_body rest 1 (cell_str <$> hdr) []) by lia.
  - split; [apply kept_iff|]. intros row c. by rewrite list_lookup_fmap.
Qed.

Lemma newline_labels :
  Service_Use_Case_col ≠ Service_Use_Case_variant
  ∧ Service_Use_Case_col ≠ "Tool" ∧ Service_Use_Case_col ≠ "Requestor"
  ∧ Service_Use_Case_col ≠ "Status"
  ∧ Service_Use_Case_variant ≠ "Tool" ∧ Service_Use_Case_variant ≠ "Requestor"
  ∧ Service_Use_Case_variant ≠ "Status".
Proof. repeat split; by vm_compute. Qed.

Lemma elem_of_renamed (headers : list string) (col : string) :
  col ≠ Service_Use_Case_variant →
  col ∈ rename_column <$> headers
  ↔ col ∈ headers ∨ (col = Service_Use_Case_col ∧ Service_Use_Case_variant ∈ headers).
Proof.
  intros Hne. rewrite list_elem_of_fmap. unfold rename_column. split.
  - intros (y & -> & Hin). destruct (decide (y = Service_Use_Case_variant)) as [->|?].
    + by right.
    + by left.
  - intros [Hin|[-> Hin]].
    + exists col. by rewrite decide_False.
    + exists Service_Use_Case_variant. by rewrite decide_True.
Qed.

(** X15.  The column check.  After the renaming of the one tolerated
    variant, no column is reported missing exactly when the header row
    holds the labels Tool, Requestor and Status and at least one of the two
    spellings of the Service / Use Case label, each as the exact text of a
    header cell (no trimming, no case folding). *)
Theorem columns_check_accepts (headers : list string) :
  missing_cols (rename_column <$> headers) = []
  ↔ "Tool" ∈ headers
    ∧ (Service_Use_Case_col ∈ headers ∨ Service_Use_Case_variant ∈ headers)
    ∧ "Requestor" ∈ headers
    ∧ "Status" ∈ headers.
Proof.
  destruct newline_labels as (Hv & Ht & Hr & Hs & Hvt & Hvr & Hvs).
  unfold missing_cols.
  assert (∀ l : list string, filter (λ col, col ∉ rename_column <$> headers) l = []
                             ↔ Forall (λ col, col ∈ rename_column <$> headers) l) as Hf.
  { induction l as [|x l IH]; [done|].
    destruct (decide (x ∈ rename_column <$> headers)) as [Hin|Hout].
    - rewrite filter_cons_False by (by intros ?). rewrite IH, Forall_cons.
      split; [intros ?; by split|by intros [_ ?]].
    - rewrite filter_cons_True by done. rewrite Forall_cons.
      split; [done|by intros [? _]]. }
  rewrite Hf, !Forall_cons, !elem_of_renamed by (try done; by apply not_eq_sym).
  split.
  - intros ([?|[? _]] & [?|[_ ?]] & [?|[? _]] & [?|[? _]] & _); try done;
      repeat split; auto.
  - intros (? & [?|?] & ? & ?); repeat split; auto.
Qed.

Lemma row_get_Some (columns row : list string) (label v : string) :
  row_get columns row label = Some v →
  ∃ i, columns !! i = Some label ∧ (∀ j, columns !! j = Some label → j = i)
       ∧ row !! i = Some v.
Proof.
  unfold row_get. destruct (index_of label columns) as [i|] eqn:Hi; simpl; [|done].
  destruct (bool_decide (label ∈ drop (S i) columns)) eqn:Hd; [done|].
  apply bool_decide_eq_false in Hd. intros Hv. exists i.
  split; [by apply index_of_Some|]. split; [|done].
  intros j Hj. destruct (Nat.lt_trichotomy j i) as [Hlt|[->|Hgt]]; [|done|].
  - exfalso. by apply (index_of_first label columns i Hi j Hlt).
  - exfalso. apply Hd. apply list_elem_of_lookup. exists (j - S i).
    rewrite lookup_drop. by replace (S i + (j - S i)) with j by lia.
Qed.

Lemma row_get_unique (columns row : list string) (label : string) :
  label ∈ columns → NoDup columns → length row = length columns →
  is_Some (row_get columns row label).
Proof.
  intros Hin Hnd Hlen. unfold row_get.
  destruct (index_of_elem label columns Hin) as (i & -> & Hl). simpl.
  rewrite bool_decide_eq_false_2.
  - apply lookup_lt_is_Some. rewrite Hlen. by eapply lookup_lt_Some.
  - intros Hd. apply list_elem_of_lookup in Hd as [k Hk]. rewrite lookup_drop in Hk.
    pose proof (NoDup_lookup _ _ _ _ Hnd Hl Hk). lia.
Qed.

Lemma record_of_total (columns row : list string) :
  missing_cols columns = [] → NoDup columns → length row = length columns →
  is_Some (record_of columns row).
Proof.
  intros Hmiss Hnd Hlen. unfold missing_cols in Hmiss.
  assert (∀ l : list string, filter (λ col, col ∉ columns) l = []
                             → Forall (λ col, col ∈ columns) l) as Hf.
  { induction l as [|x l IH]; [done|].
    destruct (decide (x ∈ columns)) as [Hin|Hout].
    - rewrite filter_cons_False by (by intros ?). intros H. apply Forall_cons. auto.
    - by rewrite filter_cons_True by done. }
  apply Hf in Hmiss. rewrite !Forall_cons in Hmiss.
  destruct Hmiss as (Ht & Hd & Hq & Hs & _). unfold record_of.
  destruct (row_get_unique columns row "Tool" Ht Hnd Hlen) as [t ->].
  destruct (row_get_unique columns row Service_Use_Case_col Hd Hnd Hlen) as [d ->].
  destruct (row_get_unique columns row "Requestor" Hq Hnd Hlen) as [q ->].
  destruct (row_get_unique columns row "Status" Hs Hnd Hlen) as [s ->].
  by eexists.
Qed.

(** X16.  Records are read by column label.  With pairwise distinct column
    labels that pass the column check, every full-width row yields a
    record, and each field of the record is the cell of the row in the one
    column that carries the field's label, wherever that column stands in
    the sheet. *)
Theorem records_are_read_by_label (columns row : list string) :
  missing_cols columns = [] → NoDup columns → length row = length columns →
  ∃ r, record_of columns row = Some r
       ∧ ∀ label field,
           (label, field) ∈ [("Tool", Tool r); (Service_Use_Case_col, Service_Use_Case r);
                             ("Requestor", Requestor r); ("Status", Status r)] →
           ∃ i, columns !! i = Some label ∧ (∀ j, columns !! j = Some label → j = i)
                ∧ row !! i = Some field.
Proof.
  intros Hmiss Hnd Hlen.
  destruct (record_of_total columns row Hmiss Hnd Hlen) as [r Hr].
  exists r. split; [done|]. intros label field Hin. unfold record_of in Hr.
  destruct (row_get columns row "Tool") as [t|] eqn:Ht; simpl in Hr; [|done].
  destruct (row_get columns row Service_Use_Case_col) as [d|] eqn:Hd; simpl in Hr; [|done].
  destruct (row_get columns row "Requestor") as [q|] eqn:Hq; simpl in Hr; [|done].
  destruct (row_get columns row "Status") as [s|] eqn:Hs; simpl in Hr; [|done].
  injection Hr as <-. simpl in Hin.
  repeat (apply elem_of_cons in Hin as [[= -> ->]|Hin]; [by apply row_get_Some|]).
  by apply elem_of_nil in Hin.
Qed.

(** ** Documents with one qualifying table per slide *)

Lemma qualifies_skel sh sh' : shape_skel sh' = shape_skel sh → qualifies sh' → qualifies sh.
Proof.
  destruct sh as [n|g t], sh' as [n'|g' t']; try done. intros H.
  apply frame_skel_inv in H as [_ H]. simpl. by rewrite (tbl_skel_verdict _ _ H).
Qed.

Lemma within_skel B sh sh' : shape_skel sh' = shape_skel sh → within B sh → within B sh'.
Proof.
  destruct sh as [n|g t], sh' as [n'|g' t']; try done. intros H.
  apply frame_skel_inv in H as [_ H]. simpl. by rewrite (tbl_skel_rows _ _ H).
Qed.

Lemma shapes_skel_capped B (shs shs' : list Shape) :
  shape_skel <$> shs' = shape_skel <$> shs →
  length (filter qualifies shs') = length (filter qualifies shs)
  ∧ (Forall (within B) shs → Forall (within B) shs').
Proof.
  revert shs'. induction shs as [|sh shs IH]; intros [|sh' shs'] H; try done.
  rewrite !fmap_cons in H. apply cons_eq_inv in H as [Hsh Hshs].
  destruct (IH shs' Hshs) as [Hlen Hw]. split.
  - destruct (decide (qualifies sh)) as [Hq|Hq].
    + rewrite (filter_cons_True _ sh) by done.
      rewrite filter_cons_True by (by apply (qualifies_skel sh' sh)). simpl. by rewrite Hlen.
    + rewrite (filter_cons_False _ sh) by done.
      rewrite filter_cons_False; [done|]. intros Hq'. apply Hq. by apply (qualifies_skel sh sh').
  - intros [Hh Ht]%Forall_cons. apply Forall_cons. split; [by apply (within_skel B sh)|auto].
Qed.

Lemma capped_skel B (pres pres' : Presentation) :
  slide_skel <$> pres' = slide_skel <$> pres → capped B pres → capped B pres'.
Proof.
  revert pres'. induction pres as [|s rest IH]; intros [|s' rest'] H; try done.
  rewrite !fmap_cons in H. apply cons_eq_inv in H as [Hs Hrest].
  intros [[Hsingle Hw] Hcap]%Forall_cons. apply Forall_cons. split; [|by apply IH].
  apply slide_skel_inv in Hs as [_ Hs].
  destruct (shapes_skel_capped B _ _ Hs) as [Hlen Hw']. split; [|auto].
  unfold single_qual in *. by rewrite Hlen.
Qed.

Lemma filter_delete_qual (shs : list Shape) j sh :
  shs !! j = Some sh → qualifies sh →
  S (length (filter qualifies (delete j shs))) = length (filter qualifies shs).
Proof.
  revert j. induction shs as [|x l IH]; intros [|j] Hl Hq; try done.
  - simpl in Hl. injection Hl as ->. cbn [delete list_delete].
    by rewrite filter_cons_True by done.
  - simpl in Hl. cbn [delete list_delete]. fold (delete j l).
    destruct (decide (qualifies x)).
    + rewrite !filter_cons_True by done. simpl. f_equal. by apply IH.
    + rewrite !filter_cons_False by done. by apply IH.
Qed.

Lemma first_qual_shape_app_last (l : list Shape) g (t : Table) :
  filter qualifies l = [] → is_Some (verdict t) →
  ∀ j0, first_qual_shape j0 (l ++ [GraphicFrame g t]) = Some (j0 + length l)%nat.
Proof.
  intros Hf [v Hv]. induction l as [|x l IH]; intros j0.
  { cbn [app first_qual_shape]. rewrite Hv. simpl. f_equal. lia. }
  destruct (decide (qualifies x)) as [Hq|Hq].
  { by rewrite filter_cons_True in Hf by done. }
  rewrite filter_cons_False in Hf by done.
  cbn [app first_qual_shape]. destruct x as [n|g' t'].
  - rewrite (IH Hf). simpl. f_equal. lia.
  - simpl in Hq. destruct (verdict t') eqn:Hv'; [exfalso; apply Hq; by eexists|].
    rewrite (IH Hf). simpl. f_equal. lia.
Qed.

Lemma filter_placeholders (l : list nat) : filter qualifies (OtherShape <$> l) = [].
Proof.
  induction l as [|n l IH]; [done|]. rewrite fmap_cons.
  by rewrite filter_cons_False by (by intros ?).
Qed.

Lemma capped_after_scan B (st : State) (pres' : Presentation) :
  capped_state B st →
  slide_skel <$> pres' = slide_skel <$> presentation st →
  wf_pres pres' ∧ capped B pres'
  ∧ match new_target (target st) (first_qual_doc 0 (presentation st)) with
    | None => True
    | Some tg => target_ok pres' tg ∧ target_shape tg = Attached (target_table tg)
    end.
Proof.
  intros (Hwf & Hcap & Htgt) Hsk.
  split; [by eapply wf_pres_skel|]. split; [by eapply capped_skel|].
  destruct (target st) as [tg|]; simpl.
  - destruct Htgt as [Hok Href]. split; [by eapply target_ok_skel|done].
  - destruct (first_qual_doc 0 (presentation st)) as [tg|] eqn:Hq; [|done].
    split.
    + apply (target_ok_skel _ _ _ Hsk). by apply first_qual_doc_ok.
    + by destruct (first_qual_doc_Some _ _ _ Hq) as (_ & ? & _).
Qed.

Lemma capped_append B (st : State) (tg : Target) tool_name excel_row :
  (9 ≤ B)%nat → capped_state B st → target st = Some tg →
  ∃ st', append_missing st tool_name excel_row = Some st' ∧ capped_state B st'.
Proof.
  intros HB (Hwf & Hcap & Htgt) Htg. rewrite Htg in Htgt.
  destruct Htgt as [[(slide & g & t & Hs & Hsh & [[names ci] Hv]) _] Href].
  pose proof (wf_pres_lookup _ _ _ _ _ _ Hwf Hs Hsh) as Hwt.
  destruct (verdict_dims t names ci Hwt Hv) as (N & M & Hdims & HN & HM).
  destruct (verdict_Some t names ci Hwt Hv)
    as (M' & hdr & body & _ & _ & Hrows & _ & Hnames & _ & _ & Hreq).
  assert (Forall wf_shape (shapes slide)) as Hwfs.
  { unfold wf_pres in Hwf. rewrite Forall_lookup in Hwf. by apply (Hwf _ _ Hs). }
  assert (single_qual (shapes slide) ∧ Forall (within B) (shapes slide)) as [Hsingle Hwithin].
  { unfold capped in Hcap. rewrite Forall_lookup in Hcap. by apply (Hcap _ _ Hs). }
  assert (length (rows t) = N) as Hn by (by destruct Hdims as (_ & ? & _)).
  set (vals := build_values_by_header ((λ cl, strip (text cl)) <$> hd [] (rows t))
                 tool_name excel_row).
  assert (has_required ((λ cl, strip (text cl)) <$> hd [] (rows t)) = true) as Hreq'.
  { rewrite Hrows. simpl. by rewrite <- Hnames. }
  destruct (decide (MAX_BODY_ROWS ≤ Z.of_nat N - 1)%Z) as [Hfull|Hroom].
  - (* a new slide *)
    pose proof (header_table_dims g t N M Hdims HN) as Hhd.
    destruct (header_table_facts g t names ci N M Hwt Hv Hdims) as (Hwh & Hvh & _).
    rewrite Hv in Hvh.
    destruct (rebuilt_table_facts g (header_table g t M) names ci 1 M _ tool_name excel_row
                Hwh Hvh Hhd Hreq') as (Hwr & Hvr & _).
    fold vals in Hwr, Hvr. rewrite Hvh in Hvr.
    pose proof (rebuilt_table_dims g (header_table g t M) 1 M vals Hhd) as (_ & Hr2 & _);
      [lia|].
    set (ph := layout_placeholders (slide_layout slide)).
    assert (first_qual_shape 0 ((OtherShape <$> ph)
                                ++ [GraphicFrame g (rebuilt_table g (header_table g t M) M vals)])
            = Some (length ph)) as Hfq.
    { rewrite (first_qual_shape_app_last _ g _ (filter_placeholders ph)) by (by eexists).
      by rewrite length_fmap. }
    eexists. split; [by eapply append_paginated|].
    cbn [shapes]. fold ph vals. rewrite Hfq.
    split; [|split]; cbn [presentation target].
    + apply Forall_app. split; [done|]. apply Forall_singleton. cbn [shapes].
      apply Forall_app. split; [apply Forall_fmap; by apply Forall_true|].
      by apply Forall_singleton.
    + apply Forall_app. split; [done|]. apply Forall_singleton. cbn [shapes]. split.
      * unfold single_qual. rewrite filter_app, filter_placeholders, app_nil_l.
        etrans; [apply length_filter|done].
      * apply Forall_app. split; [apply Forall_fmap; by apply Forall_true|].
        apply Forall_singleton. cbn [within]. rewrite Hr2. lia.
    + split; [|done].
      assert (qual_at (presentation st
                       ++ [{| slide_layout := slide_layout slide;
                              shapes := (OtherShape <$> ph)
                                        ++ [GraphicFrame g
                                              (rebuilt_table g (header_table g t M) M vals)] |}])
                (length (presentation st)) (length ph)) as Hqa.
      { eexists _, g, _. split.
        - rewrite lookup_app_r by lia. by rewrite Nat.sub_diag.
        - cbn [shapes]. split; [|by eexists].
          rewrite lookup_app_r; rewrite length_fmap; [|lia]. by rewrite Nat.sub_diag. }
      split; [done|]. by exists (length ph).
  - (* the same slide *)
    destruct (rebuilt_table_facts g t names ci N M _ tool_name excel_row
                Hwt Hv Hdims Hreq') as (Hwr & Hvr & _).
    fold vals in Hwr, Hvr. rewrite Hv in Hvr.
    pose proof (rebuilt_table_dims g t N M vals Hdims HN) as (_ & Hr2 & _).
    set (j := target_table tg) in *.
    assert (filter qualifies (delete j (shapes slide)) = []) as Hnone.
    { apply length_zero_iff_nil.
      pose proof (filter_delete_qual (shapes slide) j _ Hsh) as Hd. simpl in Hd.
      specialize (Hd (ex_intro _ _ Hv)). unfold single_qual in Hsingle. lia. }
    assert (length (delete j (shapes slide)) = length (shapes slide) - 1) as Hdl.
    { apply length_delete. by eexists. }
    assert (first_qual_shape 0 (delete j (shapes slide)
                                ++ [GraphicFrame g (rebuilt_table g t M vals)])
            = Some (length (shapes slide) - 1)) as Hfq.
    { rewrite (first_qual_shape_app_last _ g _ Hnone) by (by eexists). by rewrite Hdl. }
    eexists. split; [eapply append_in_place; try done; lia|].
    cbn [shapes]. fold vals j. rewrite Hfq.
    split; [|split]; cbn [presentation target].
    + apply Forall_insert; [done|]. cbn [shapes]. by eapply wf_after_rebuild.
    + apply Forall_insert; [done|]. cbn [shapes]. split.
      * unfold single_qual. rewrite filter_app, Hnone, app_nil_l.
        etrans; [apply length_filter|done].
      * apply Forall_app. split; [by apply Forall_delete|].
        apply Forall_singleton. cbn [within]. rewrite Hr2. unfold MAX_BODY_ROWS in Hroom. lia.
    + split; [|done].
      assert (qual_at (<[target_slide tg :=
                         {| slide_layout := slide_layout slide;
                            shapes := delete j (shapes slide)
                                      ++ [GraphicFrame g (rebuilt_table g t M vals)] |}]>
                         (presentation st))
                (target_slide tg) (length (shapes slide) - 1)) as Hqa.
      { eexists _, g, _. split.
        - apply list_lookup_insert_eq. by eapply lookup_lt_Some.
        - cbn [shapes]. split; [|by eexists].
          rewrite lookup_app_r by lia. by rewrite Hdl, Nat.sub_diag. }
      split; [done|]. by exists (length (shapes slide) - 1).
Qed.

Lemma capped_process B (add : bool) (excel_row : ExcelRow) (st : State) :
  (9 ≤ B)%nat → capped_state B st →
  ∃ st', process_row add excel_row st = Some st' ∧ capped_state B st'.
Proof.
  intros HB Hst. destruct (decide (strip (Tool excel_row) = "")) as [Hempty|Hkey].
  { exists st. by rewrite process_row_skip. }
  pose proof Hst as (Hwf & _).
  unfold process_row. rewrite decide_False by done.
  destruct (scan_slides_spec excel_row (strip (Tool excel_row)) (presentation st) Hwf 0%nat
              (target st)) as (pres' & Hrun & _ & Hsk & _).
  rewrite Hrun. cbn [mbind option_bind].
  pose proof (capped_after_scan B st pres' Hst Hsk) as Hafter.
  destruct (update_first excel_row (strip (Tool excel_row)) (doc_entries (presentation st))).2
    as [n|].
  { eexists. split; [done|]. exact Hafter. }
  destruct (add && bool_decide (is_Some _)) eqn:Happ.
  - apply andb_true_iff in Happ as [_ Hsome]. apply bool_decide_eq_true in Hsome.
    destruct Hsome as [tg Htg].
    apply (capped_append B _ tg); [done| |done]. exact Hafter.
  - eexists. split; [done|]. exact Hafter.
Qed.

Lemma capped_run B (add : bool) (excel_df : list ExcelRow) :
  (9 ≤ B)%nat → ∀ st, capped_state B st →
  ∃ st', for_in excel_df (process_row add) st = Some st' ∧ capped_state B st'.
Proof.
  intros HB. induction excel_df as [|rec todo IH]; intros st Hst; [by exists st|].
  destruct (capped_process B add rec st HB Hst) as (st1 & Hrun1 & Hst1).
  destruct (IH st1 Hst1) as (st' & Hrun & Hst').
  exists st'. cbn [for_in]. by rewrite Hrun1.
Qed.

(** X17.  Pagination keeps its promise on documents with at most one
    qualifying table per slide.  If every table of such a well-formed
    document has at most [B] rows, with [B] at least [MAX_BODY_ROWS + 1],
    then so has every table of the document after the run, whatever the
    dataset; each slide still holds at most one qualifying table, and the
    cached shape is the frame of the cached table. *)
Theorem tables_stay_within_capacity (B : nat) (excel_df : list ExcelRow)
    (ppt_file : Presentation) (add_missing_tools : bool) :
  (Z.to_nat MAX_BODY_ROWS + 1 ≤ B)%nat →
  wf_pres ppt_file → capped B ppt_file →
  ∃ st summary,
    final (sync_excel_to_ppt excel_df ppt_file add_missing_tools) = Some (st, summary)
    ∧ capped B (presentation st)
    ∧ (∀ tg, target st = Some tg → target_shape tg = Attached (target_table tg)).
Proof.
  intros HB Hwf Hcap.
  destruct (capped_run B add_missing_tools excel_df HB (initial_state ppt_file))
    as (st & Hrun & _ & Hcap' & Htgt); [done|].
  exists st, (summary_of excel_df st). rewrite final_spec, Hrun.
  split; [done|]. split; [done|]. intros tg Htg. rewrite Htg in Htgt. by destruct Htgt.
Qed.

Lemma first_qual_shape_before (shs : list Shape) :
  ∀ j0 j, first_qual_shape j0 shs = Some j → filter qualifies (take (j - j0) shs) = [].
Proof.
  induction shs as [|x l IH]; intros j0 j H; [done|].
  cbn [first_qual_shape] in H. destruct x as [n|g t].
  - pose proof (first_qual_shape_Some _ _ _ H) as [Hle _].
    replace (j - j0) with (S (j - S j0)) by lia. cbn [take].
    rewrite filter_cons_False by (by intros ?). by apply IH.
  - destruct (verdict t) as [v|] eqn:Hv.
    + injection H as <-. by rewrite Nat.sub_diag.
    + pose proof (first_qual_shape_Some _ _ _ H) as [Hle _].
      replace (j - j0) with (S (j - S j0)) by lia. cbn [take].
      rewrite filter_cons_False; [by apply IH|]. simpl. rewrite Hv. by intros [? ?].
Qed.

(** X18.  The shape that an append caches.  After a rebuild in place the
    cached table is the rebuilt one, last on its slide, while the cached
    shape is the first frame of the slide whose table qualifies: the two
    coincide exactly when no other frame of the slide holds a qualifying
    table. *)
Theorem append_caches_first_qualifying_frame (st : State) (tg : Target) (slide : Slide)
    (g : Geometry) (t : Table) (N M : nat) (tool_name : string) (excel_row : ExcelRow) :
  target st = Some tg →
  presentation st !! target_slide tg = Some slide →
  shapes slide !! target_table tg = Some (GraphicFrame g t) →
  target_shape tg = Attached (target_table tg) →
  table_dims t N M → is_Some (verdict t) →
  (Z.of_nat N - 1 < MAX_BODY_ROWS)%Z →
  Forall wf_shape (shapes slide) →
  ∃ st' tg' slide' j,
    append_missing st tool_name excel_row = Some st'
    ∧ target st' = Some tg'
    ∧ target_slide tg' = target_slide tg
    ∧ presentation st' !! target_slide tg' = Some slide'
    ∧ target_table tg' = (length (shapes slide') - 1)%nat
    ∧ target_shape tg' = Attached j
    ∧ first_qual_shape 0 (shapes slide') = Some j
    ∧ (j = target_table tg'
       ↔ filter qualifies (delete (target_table tg) (shapes slide)) = []).
Proof.
  intros Htg Hs Hsh Href Hdims [[names ci] Hv] Hroom Hwfs.
  pose proof (table_dims_wf t N M Hdims) as Hwt.
  destruct (verdict_dims t names ci Hwt Hv) as (N' & M' & Hdims' & HN & HM).
  assert (N' = N ∧ M' = M) as [-> ->].
  { destruct Hdims as (Hc & Hn & _), Hdims' as (Hc' & Hn' & _). split; congruence. }
  destruct (verdict_Some t names ci Hwt Hv)
    as (M' & hdr & body & _ & _ & Hrows & _ & Hnames & _ & _ & Hreq).
  assert (has_required ((λ cl, strip (text cl)) <$> hd [] (rows t)) = true) as Hreq'.
  { rewrite Hrows. simpl. by rewrite <- Hnames. }
  set (vals := build_values_by_header ((λ cl, strip (text cl)) <$> hd [] (rows t))
                 tool_name excel_row).
  destruct (rebuilt_table_facts g t names ci N M _ tool_name excel_row
              Hwt Hv Hdims Hreq') as (_ & Hvr & _).
  fold vals in Hvr. rewrite Hv in Hvr.
  set (l := delete (target_table tg) (shapes slide)).
  assert (length l = length (shapes slide) - 1) as Hdl.
  { apply length_delete. by eexists. }
  destruct (first_qual_shape_last 0 l g (rebuilt_table g t M vals)) as [j Hj];
    [by eexists|].
  eexists _, _, {| slide_layout := slide_layout slide;
                   shapes := l ++ [GraphicFrame g (rebuilt_table g t M vals)] |}, j.
  split; [eapply append_in_place; try done|].
  cbn [shapes target presentation target_slide target_table target_shape].
  fold vals l. rewrite Hj.
  split; [done|]. split; [done|].
  split. { apply list_lookup_insert_eq. by eapply lookup_lt_Some. }
  split. { rewrite length_app. simpl. lia. }
  split; [done|]. split; [done|]. split.
  - intros E. pose proof (first_qual_shape_before _ _ _ Hj) as Hb.
    cbn [target_table] in E. rewrite Nat.sub_0_r, E, <- Hdl in Hb.
    by rewrite take_app_length in Hb.
  - intros Hnone.
    rewrite (first_qual_shape_app_last l g _ Hnone) in Hj by (by eexists).
    injection Hj as <-. simpl. lia.
Qed.

End Sync.

(** * Concrete runs *)








(** One key in two tables of the target slide: the rebuild moves the
    target table behind the other one, and the second run updates the
    other row. *)
Example twin_rows_break_idempotence :
  NoDup (keys [tool_x_new; tool_y])
  ∧ ((λ p, sum_updates_made (snd p))
       <$> final (second_run even_width nonneg [tool_x_new; tool_y] [twin_slide] true))
    = Some 1%nat.
Proof.
  split; [|vm_compute; reflexivity].
  vm_compute. apply NoDup_cons. split; [|apply NoDup_singleton].
  intros H. apply list_elem_of_singleton in H. discriminate.
Qed.


Lemma empty_key_is_skipped_witness :
  strip (Tool blank_key) = ""
  ∧ process_row even_width nonneg true blank_key (full_state one_row) = Some (full_state one_row)
  ∧ ppt_file_after (sync_excel_to_ppt even_width nonneg [tool_x; blank_key] doc_one true)
    = ppt_file_after (sync_excel_to_ppt even_width nonneg [tool_x] doc_one true)
  ∧ save_calls (sync_excel_to_ppt even_width nonneg [tool_x; blank_key] doc_one true)
    = save_calls (sync_excel_to_ppt even_width nonneg [tool_x] doc_one true).
Proof.
  split; [reflexivity|].
  destruct (empty_key_is_skipped even_width nonneg true blank_key [tool_x] [] doc_one)
    as (Hskip & Hfile & Hsave & _).
  - reflexivity.
  - split; [apply Hskip|]. split; [exact Hfile|exact Hsave].
Defined.

(** The skipped record is counted in "Total tools processed". *)
Lemma skipped_record_is_counted :
  strip (Tool blank_key) = ""
  ∧ ((λ p, total_tools_processed (snd p))
       <$> final (sync_excel_to_ppt even_width nonneg [blank_key] [slide_of one_row] true))
    = Some 1%nat
  ∧ ((λ p, total_tools_processed (snd p))
       <$> final (sync_excel_to_ppt even_width nonneg [] [slide_of one_row] true))
    = Some 0%nat.
Proof. split; [reflexivity|]. split; vm_compute; reflexivity. Qed.

Lemma width_failures_are_contained_witness :
  ∃ slide' new_idx new_table ws',
    _append_row_by_rebuilding even_width nonneg (slide_of one_row_gap) (Attached 1) values_x
    = Some (slide', new_idx)
    ∧ table_at slide' new_idx = Some new_table
    ∧ columns new_table = Some ws'
    ∧ length ws' = 4%nat.
Proof.
  destruct (width_failures_are_contained even_width nonneg (slide_of one_row_gap)
              [slide_of one_row_gap] 0 1 frame one_row_gap 2 4
              [Some 70; None; Some 110; Some 130]%Z values_x)
    as [(slide' & new_idx & new_table & ws' & H1 & H2 & H3 & H4 & _) _].
  - reflexivity.
  - reflexivity.
  - split; [reflexivity|]. split; [reflexivity|]. repeat constructor.
  - lia.
  - lia.
  - reflexivity.
  - exists slide', new_idx, new_table, ws'.
    split; [exact H1|]. split; [exact H2|]. split; [exact H3|exact H4].
Defined.

(** One unreadable width discards every captured width: the first column
    could be read (70) and assigned, yet the rebuilt table has the
    creation width there. *)
Lemma one_gap_discards_all_widths :
  ∃ slide' new_idx new_table,
    columns one_row_gap = Some [Some 70; None; Some 110; Some 130]%Z
    ∧ nonneg 70 = true
    ∧ _append_row_by_rebuilding even_width nonneg (slide_of one_row_gap) (Attached 1) values_x
      = Some (slide', new_idx)
    ∧ table_at slide' new_idx = Some new_table
    ∧ columns new_table = Some [Some 100; Some 100; Some 100; Some 100]%Z
    ∧ (new_table_cols ← columns new_table; new_table_cols !! 0%nat) ≠ Some (Some 70%Z).
Proof.
  eexists _, _, _. split; [reflexivity|]. split; [reflexivity|].
  split; [vm_compute; reflexivity|]. split; [reflexivity|]. split; [reflexivity|].
  vm_compute. discriminate.
Qed.



(** A run that changes no text leaves a restyled document in memory and
    the file as it was. *)
Example unsaved_restyling :
  save_calls (sync_excel_to_ppt even_width nonneg [same_as_doc] doc_one true) = 0%nat
  ∧ ppt_file_after (sync_excel_to_ppt even_width nonneg [same_as_doc] doc_one true) = doc_one
  ∧ ((λ p, updates_made (fst p))
       <$> final (sync_excel_to_ppt even_width nonneg [same_as_doc] doc_one true))
    = Some 0%nat
  ∧ ((λ p, presentation (fst p))
       <$> final (sync_excel_to_ppt even_width nonneg [same_as_doc] doc_one true))
    ≠ Some doc_one.
Proof.
  split; [vm_compute; reflexivity|]. split; [vm_compute; reflexivity|].
  split; [vm_compute; reflexivity|]. vm_compute. discriminate.
Qed.

(** ** Further runs *)

Lemma doc_one_wf : wf_pres doc_one.
Proof.
  apply Forall_singleton. apply Forall_cons. split; [exact I|]. apply Forall_singleton.
  intros M H. injection H as <-. repeat constructor.
Qed.

Lemma full_wf : Forall wf_shape (shapes (slide_of full)).
Proof.
  apply Forall_cons. split; [exact I|]. apply Forall_singleton.
  intros M H. injection H as <-. repeat constructor.
Qed.

Lemma full_dims : table_dims full 9 4.
Proof. split; [reflexivity|]. split; [reflexivity|]. repeat constructor. Qed.

Lemma one_row_dims : table_dims one_row 2 4.
Proof. split; [reflexivity|]. split; [reflexivity|]. repeat constructor. Qed.

Lemma completed_run_accounting_witness :
  ∃ st summary,
    final (sync_excel_to_ppt even_width nonneg [tool_y] doc_one true) = Some (st, summary)
    ∧ (4 * sum_rows_added summary ≤ sum_updates_made summary)%nat
    ∧ save_calls (sync_excel_to_ppt even_width nonneg [tool_y] doc_one true) = 1%nat.
Proof.
  edestruct (completed_run_accounting even_width nonneg [tool_y] doc_one true)
    as (_ & _ & _ & H4 & _ & _ & Hs); [vm_compute; reflexivity|].
  eexists _, _. split; [vm_compute; reflexivity|]. split; [exact H4|].
  apply Hs. vm_compute. lia.
Defined.

Lemma well_formed_run_completes_witness :
  ∃ st summary,
    final (sync_excel_to_ppt even_width nonneg [tool_x; tool_y] doc_one true)
    = Some (st, summary)
    ∧ wf_pres (presentation st).
Proof.
  destruct (well_formed_run_completes even_width nonneg [tool_x; tool_y] doc_one true
              doc_one_wf) as (st & sm & H & Hwf & _).
  exists st, sm. split; [exact H|exact Hwf].
Defined.



Lemma update_only_keeps_structure_witness :
  ∃ st summary,
    final (sync_excel_to_ppt even_width nonneg [tool_x; tool_y] doc_one false)
    = Some (st, summary)
    ∧ row_counts (presentation st) = row_counts doc_one
    ∧ sum_rows_added summary = 0%nat
    ∧ sum_not_found summary = 1%nat.
Proof.
  destruct (update_only_keeps_structure even_width nonneg [tool_x; tool_y] doc_one doc_one_wf)
    as (st & sm & H & _ & Hr & _ & Ha & Hn).
  exists st, sm. split; [exact H|]. split; [exact Hr|]. split; [exact Ha|].
  rewrite Hn. vm_compute. reflexivity.
Defined.

Lemma unmatched_record_changes_nothing_witness :
  process_row even_width nonneg false tool_y (full_state one_row)
  = Some {| presentation := presentation (full_state one_row);
            updates_made := updates_made (full_state one_row);
            rows_added := rows_added (full_state one_row);
            not_found_before_adding := (not_found_before_adding (full_state one_row) + 1)%nat;
            target := target (full_state one_row) |}.
Proof.
  apply (unmatched_record_changes_nothing even_width nonneg false tool_y (full_state one_row)).
  - exact doc_one_wf.
  - split.
    + eexists _, _, _. split; [reflexivity|]. split; [reflexivity|].
      eexists. vm_compute. reflexivity.
    + exists 1%nat. split; [reflexivity|].
      eexists _, _, _. split; [reflexivity|]. split; [reflexivity|].
      eexists. vm_compute. reflexivity.
  - vm_compute. discriminate.
  - vm_compute. reflexivity.
  - left. split; [reflexivity|]. eexists. reflexivity.
Defined.

Lemma run_without_qualifying_table_witness :
  ∃ st summary,
    final (sync_excel_to_ppt even_width nonneg [tool_x; blank_key] bare_doc true)
    = Some (st, summary)
    ∧ presentation st = bare_doc
    ∧ sum_not_found summary = 1%nat
    ∧ save_calls (sync_excel_to_ppt even_width nonneg [tool_x; blank_key] bare_doc true)
      = 0%nat.
Proof.
  destruct (run_without_qualifying_table even_width nonneg [tool_x; blank_key] bare_doc true)
    as (st & sm & H & Hp & _ & _ & _ & Hn & Hs & _).
  - apply Forall_singleton. apply Forall_singleton. exact I.
  - vm_compute. reflexivity.
  - exists st, sm. split; [exact H|]. split; [exact Hp|]. split; [|exact Hs].
    rewrite Hn. vm_compute. reflexivity.
Defined.


Lemma qualifying_indices_are_first_columns_witness :
  ∃ M, len_columns one_row = Some M ∧ 0 < M
       ∧ ∃ i, idx_map names !! "Requestor" = Some i ∧ names !! i = Some "Requestor".
Proof.
  destruct (qualifying_indices_are_first_columns one_row names (idx_map names))
    as (M & Hc & HM & _ & _ & _ & Hreq & _); [vm_compute; reflexivity|].
  exists M. split; [exact Hc|]. split; [exact HM|].
  destruct (Hreq "Requestor") as (i & Hi & _ & Hl & _).
  - right. right. left.
  - exists i. split; [exact Hi|exact Hl].
Defined.

Lemma short_header_row_is_fatal_witness :
  _table_headers_and_indices short_hdr = None
  ∧ final (sync_excel_to_ppt even_width nonneg [tool_x] [slide_of short_hdr] true) = None.
Proof.
  destruct (short_header_row_is_fatal even_width nonneg short_hdr 4 [plain "AI Tool"] [row_x])
    as (H1 & _ & H3).
  - reflexivity.
  - reflexivity.
  - simpl. lia.
  - split; [exact H1|].
    destruct (H3 [tool_x] layout [7%nat] frame [] [] true) as [Hf _]; [|exact Hf].
    exists tool_x. split; [by left|vm_compute; discriminate].
Defined.


Lemma appended_row_lands_within_capacity_witness :
  ∃ st' tg' tt',
    append_missing even_width nonneg (full_state full) "ToolY" tool_y = Some st'
    ∧ target st' = Some tg'
    ∧ target_table_obj (presentation st') tg' = Some tt'
    ∧ length (rows tt') = 2%nat
    ∧ length (presentation st') = 2%nat.
Proof.
  destruct (appended_row_lands_within_capacity even_width nonneg (full_state full)
              {| target_slide := 0; target_table := 1; target_shape := Attached 1 |}
              (slide_of full) frame full 9 4 "ToolY" tool_y)
    as (st' & tg' & tt' & H1 & H2 & H3 & H4 & _ & H6).
  - reflexivity.
  - reflexivity.
  - reflexivity.
  - reflexivity.
  - exact full_dims.
  - lia.
  - lia.
  - exact full_wf.
  - exists st', tg', tt'. split; [exact H1|]. split; [exact H2|]. split; [exact H3|].
    split; [exact H4|exact H6].
Defined.


Lemma tables_stay_within_capacity_witness :
  ∃ st summary,
    final (sync_excel_to_ppt even_width nonneg [tool_x; tool_y] doc_one true)
    = Some (st, summary)
    ∧ capped 9 (presentation st).
Proof.
  destruct (tables_stay_within_capacity even_width nonneg 9 [tool_x; tool_y] doc_one true)
    as (st & sm & H & Hc & _).
  - vm_compute. lia.
  - exact doc_one_wf.
  - apply Forall_singleton. split.
    + unfold single_qual. vm_compute. lia.
    + apply Forall_cons. split; [exact I|]. apply Forall_singleton. simpl. lia.
  - exists st, sm. split; [exact H|exact Hc].
Defined.

Lemma records_are_read_by_label_witness :
  ∃ r, record_of sheet_columns sheet_row = Some r
       ∧ ∃ i, sheet_columns !! i = Some "Tool" ∧ sheet_row !! i = Some (Tool r).
Proof.
  destruct (records_are_read_by_label sheet_columns sheet_row) as (r & Hr & Hf).
  - vm_compute. reflexivity.
  - compute_done.
  - reflexivity.
  - exists r. split; [exact Hr|].
    destruct (Hf "Tool" (Tool r)) as (i & Hi & _ & Hv); [by left|].
    exists i. split; [exact Hi|exact Hv].
Defined.

Lemma append_caches_first_qualifying_frame_witness :
  ∃ st' tg' j,
    append_missing even_width nonneg (full_state one_row) "ToolY" tool_y = Some st'
    ∧ target st' = Some tg'
    ∧ target_shape tg' = Attached j.
Proof.
  destruct (append_caches_first_qualifying_frame even_width nonneg (full_state one_row)
              {| target_slide := 0; target_table := 1; target_shape := Attached 1 |}
              (slide_of one_row) frame one_row 2 4 "ToolY" tool_y)
    as (st' & tg' & slide' & j & H1 & H2 & _ & _ & _ & H6 & _).
  - reflexivity.
  - reflexivity.
  - reflexivity.
  - reflexivity.
  - exact one_row_dims.
  - eexists. vm_compute. reflexivity.
  - vm_compute. reflexivity.
  - apply Forall_cons. split; [exact I|]. apply Forall_singleton.
    intros M H. injection H as <-. repeat constructor.
  - exists st', tg', j. split; [exact H1|]. split; [exact H2|exact H6].
Defined.

(** With two qualifying tables on the target slide the second append
    rebuilds the table of the cached shape, not the cached table: the full
    table gets a ninth body row. *)
Example second_table_outgrows_capacity :
  row_counts [small_and_full] = [[Some 2%nat; Some 9%nat]]
  ∧ ((λ p, row_counts (presentation (fst p)))
       <$> final (sync_excel_to_ppt even_width nonneg [tool_y; tool_z] [small_and_full] true))
    = Some [[Some 3%nat; Some 10%nat]].
Proof. split; vm_compute; reflexivity. Qed.
